(** * billion-challenge: the benchmark engine of src/billion-challenge.ts

    A shallow embedding of the summation strategies, the worker
    partitioner, the benchmark runner and the ranking/verification
    pipeline, followed by the properties proved about them.

    Conventions.
    - A JavaScript [number] that holds an integer (sizes, loop counters,
      partial sums) is a [Z]; every arithmetic operation on such values
      rounds its exact result to the nearest IEEE-754 binary64 value,
      ties to even ([Number.round53]).  Overflow to [Infinity] (beyond
      2^1024) is out of reach of every value handled here.
    - A JavaScript [number] that holds a measurement (milliseconds,
      megabytes, ratios) is a [num]: the exact rational value of a
      double, or one of the special values [Infinity], [-Infinity],
      [NaN].  Every arithmetic operation on measurements rounds its exact
      result to the nearest double ([Double]); comparisons are exact.
    - [bigint] values are [Z]. *)

From Stdlib Require Import ZArith QArith Qabs Qround Qpower Lia List.
From stdpp Require Import base numbers list strings gmap pretty sorting.

Local Open Scope Z_scope.

(** ** Integer-valued doubles *)

Module Number.

  (** [Number.MAX_SAFE_INTEGER + 1]: up to here every integer is a double. *)
Definition two53 : Z := 2 ^ 53.

  (** Nearest double of an integer, ties to even: 53 significant bits. *)
Definition round53 (x : Z) : Z :=
    let a := Z.abs x in
    if a <? two53 then x
    else
      let e := Z.log2 a - 52 in
      let q := a / 2 ^ e in
      let r := a mod 2 ^ e in
      let q' :=
        if 2 * r <? 2 ^ e then q
        else if 2 ^ e <? 2 * r then q + 1
        else if Z.even q then q else q + 1 in
      Z.sgn x * (q' * 2 ^ e).

Definition fadd (x y : Z) : Z := round53 (x + y).
Definition fsub (x y : Z) : Z := round53 (x - y).
Definition fmul (x y : Z) : Z := round53 (x * y).

  (** [x / 2] on a double holding an even integer: halving is exact. *)
Definition fhalf (x : Z) : Z := x / 2.

  (** [Math.floor(n / d)] and [Math.ceil(n / d)] for integers [n] and
      [d > 0] below 2^53: the double quotient lies strictly between the
      two neighbouring integers unless it is one, so flooring or ceiling
      it gives the exact integer floor or ceiling. *)
Definition floorDiv (n d : Z) : Z := n / d.
Definition ceilDiv (n d : Z) : Z := - ((- n) / d).

End Number.

Export Number.

Infix "⊕" := fadd (at level 50, left associativity).
Infix "⊖" := fsub (at level 50, left associativity).
Infix "⊗" := fmul (at level 40, left associativity).

(** ** Configuration (lines 31-57) *)

Record BenchmarkConfig := {
  warmupRuns : nat;
  testRuns : nat;
  maxNumber : Z;
  enableMemoryTracking : bool;
  enableProgressReporting : bool;
  progressInterval : Z;
  batchSize : Z
}.

Definition config : BenchmarkConfig := {|
  warmupRuns := 3;
  testRuns := 5;
  maxNumber := 1000000000;
  enableMemoryTracking := true;
  enableProgressReporting := true;
  progressInterval := 50000000;
  batchSize := 10000000
|}.

(** Command line flags: [--full], [--verbose], [--dev]. *)
Record Flags := {
  isFullTest : bool;
  isVerbose : bool;
  isDevelopment : bool
}.

(** ** Summation strategies (class BillionChallenge, lines 101-326)

    Progress reporting ([PerformanceUtils.reportProgress]) only writes to
    standard output and is left out.  Loops take their iteration budget
    as a [nat]; each strategy passes a budget that the loop cannot
    exhaust for sizes up to 2^53 (see [scalarLoop_budget] and the
    exactness lemmas). *)

Module BillionChallenge.

  (** [(n * (n - 1)) / 2] *)
Definition mathFormula (n : Z) : Z := fhalf (n ⊗ (n ⊖ 1)).

  (** [BigInt(n)], then [(bigN * (bigN - 1n)) / 2n]; bigint division
      truncates. *)
Definition mathFormulaBigInt (n : Z) : Z := Z.quot (n * (n - 1)) 2.

  (** [for (; i < limit; i++) sum += i], the loop shared by
      [optimizedLoop], the two remainder loops, the inner loop of
      [cacheFriendly] and the worker thread. *)
Fixpoint scalarLoop (budget : nat) (limit i sum : Z) : Z :=
    match budget with
    | O => sum
    | S budget' =>
        if i <? limit then scalarLoop budget' limit (i ⊕ 1) (sum ⊕ i)
        else sum
    end.

Definition optimizedLoop (n : Z) : Z :=
    scalarLoop (Z.to_nat n) n 0 0.

  (** The sixteen-term sum of one unrolled iteration, associated as
      JavaScript evaluates it. *)
Definition unrolled16 (i : Z) : Z :=
    i ⊕ (i ⊕ 1) ⊕ (i ⊕ 2) ⊕ (i ⊕ 3) ⊕ (i ⊕ 4) ⊕ (i ⊕ 5) ⊕ (i ⊕ 6)
      ⊕ (i ⊕ 7) ⊕ (i ⊕ 8) ⊕ (i ⊕ 9) ⊕ (i ⊕ 10) ⊕ (i ⊕ 11) ⊕ (i ⊕ 12)
      ⊕ (i ⊕ 13) ⊕ (i ⊕ 14) ⊕ (i ⊕ 15).

  (** [while (i < limit) { sum += ...; i += 16 }]; returns [(i, sum)]. *)
Fixpoint unrolledLoop (budget : nat) (limit i sum : Z) : Z * Z :=
    match budget with
    | O => (i, sum)
    | S budget' =>
        if i <? limit
        then unrolledLoop budget' limit (i ⊕ 16) (sum ⊕ unrolled16 i)
        else (i, sum)
    end.

Definition assemblyStyleLoop (n : Z) : Z :=
    let unrollFactor := 16 in
    let limit := floorDiv n unrollFactor ⊗ unrollFactor in
    let '(i, sum) := unrolledLoop (Z.to_nat (n / 16)) limit 0 0 in
    scalarLoop 16 n i sum.

  (** What [typedArrayOptimal] gives: the sum, or the [RangeError] of
      [new Uint32Array(length)] for a negative length. *)
Inductive Summed : Type :=
  | Total (sum : Z)
  | InvalidLength (length : Z).

  (** Inner loop of [typedArrayOptimal]: [value = start + i; sum += value].
      The [Uint32Array] is only written, never read. *)
Fixpoint fillAndSum (budget : nat) (start currentSize i sum : Z) : Z :=
    match budget with
    | O => sum
    | S budget' =>
        if i <? currentSize
        then fillAndSum budget' start currentSize (i ⊕ 1) (sum ⊕ (start ⊕ i))
        else sum
    end.

  (** The array of a batch is allocated before the batch is summed; its
      length is at most [config.batchSize]. *)
Fixpoint batchLoop (budget : nat) (n size batches batch sum : Z) : Summed :=
    match budget with
    | O => Total sum
    | S budget' =>
        if batch <? batches then
          let start := batch ⊗ size in
          let end_ := Z.min (start ⊕ size) n in
          let currentSize := end_ ⊖ start in
          if currentSize <? 0 then InvalidLength currentSize
          else
            batchLoop budget' n size batches (batch ⊕ 1)
              (fillAndSum (Z.to_nat currentSize) start currentSize 0 sum)
        else Total sum
    end.

  (** For [n = 0] the batch size is 0 and [Math.ceil(0 / 0)] is [NaN]:
      [batch < NaN] is false and the loop body never runs. *)
Definition typedArrayOptimal (n : Z) : Summed :=
    let size := Z.min (batchSize config) n in
    if size =? 0 then Total 0
    else
      let batches := ceilDiv n size in
      batchLoop (Z.to_nat batches) n size batches 0 0.

  (** [sum += base * 8 + (0 + 1 + ... + 7); i += 8] *)
Fixpoint vectorLoop (budget : nat) (limit i sum : Z) : Z * Z :=
    match budget with
    | O => (i, sum)
    | S budget' =>
        if i <? limit
        then
          let base := i in
          vectorLoop budget' limit (i ⊕ 8) (sum ⊕ (base ⊗ 8 ⊕ 28))
        else (i, sum)
    end.

Definition simdStyle (n : Z) : Z :=
    let vectorSize := 8 in
    let limit := floorDiv n vectorSize ⊗ vectorSize in
    let '(i, sum) := vectorLoop (Z.to_nat (n / 8)) limit 0 0 in
    scalarLoop 8 n i sum.

Definition cacheLineSize : Z := 64.
Definition intsPerCacheLine : Z := cacheLineSize / 4.
Definition chunkSize : Z := intsPerCacheLine ⊗ 1000.

Fixpoint chunkLoop (budget : nat) (n chunk sum : Z) : Z :=
    match budget with
    | O => sum
    | S budget' =>
        if chunk <? n then
          let chunkEnd := Z.min (chunk ⊕ chunkSize) n in
          chunkLoop budget' n (chunk ⊕ chunkSize)
            (scalarLoop (Z.to_nat (chunkEnd - chunk)) chunkEnd chunk sum)
        else sum
    end.

Definition cacheFriendly (n : Z) : Z :=
    chunkLoop (Z.to_nat (n / chunkSize + 1)) n 0 0.

  (** [tailRecursive(n, sum = 0, current = 0)].  The engine does not
      eliminate the tail call: every level takes a stack frame, and a
      call with no frame left raises [RangeError] ([None]). *)
Fixpoint tailRecursive (frames : nat) (n sum current : Z) : option Z :=
    match frames with
    | O => None
    | S frames' =>
        if n <=? current then Some sum
        else tailRecursive frames' n (sum ⊕ current) (current ⊕ 1)
    end.

End BillionChallenge.

Export BillionChallenge.

(** ** Measurements: times, memory, throughput and ratios *)

Inductive num : Type :=
| Fin (q : Q)
| PosInf
| NegInf
| NaN.

Module Measure.

Definition fin (q : Q) : num := Fin (Qred q).
Definition ofZ (z : Z) : num := Fin (inject_Z z).
Definition zero : num := ofZ 0.

Definition isZero (q : Q) : bool := Qnum q =? 0.
Definition isNeg (q : Q) : bool := Qnum q <? 0.

Definition neg (x : num) : num :=
    match x with
    | Fin q => fin (- q)
    | PosInf => NegInf
    | NegInf => PosInf
    | NaN => NaN
    end.

Definition add (x y : num) : num :=
    match x, y with
    | NaN, _ | _, NaN => NaN
    | Fin a, Fin b => fin (a + b)
    | PosInf, NegInf | NegInf, PosInf => NaN
    | PosInf, _ | _, PosInf => PosInf
    | NegInf, _ | _, NegInf => NegInf
    end.

Definition sub (x y : num) : num := add x (neg y).

  (** Division; a zero divisor counts as [+0]. *)
Definition div (x y : num) : num :=
    match x, y with
    | NaN, _ | _, NaN => NaN
    | Fin a, Fin b =>
        if isZero b then
          if isZero a then NaN else if isNeg a then NegInf else PosInf
        else fin (a / b)
    | Fin _, _ => zero
    | PosInf, Fin b => if isNeg b then NegInf else PosInf
    | NegInf, Fin b => if isNeg b then PosInf else NegInf
    | _, _ => NaN
    end.

  (** [x < y] and [x > 0]; both are false when a [NaN] is involved. *)
Definition ltb (x y : num) : bool :=
    match x, y with
    | NaN, _ | _, NaN => false
    | Fin a, Fin b => isNeg (Qred (a - b))
    | NegInf, NegInf | PosInf, _ => false
    | NegInf, _ | _, PosInf => true
    | Fin _, NegInf => false
    end.

Definition isPositive (x : num) : bool := ltb zero x.

  (** [Math.min(x, y)] *)
Definition min (x y : num) : num :=
    match x, y with
    | NaN, _ | _, NaN => NaN
    | _, _ => if ltb y x then y else x
    end.

  (** [x.toFixed(digits)]: the integer [n] with [n / 10^digits] nearest to
      [x], the larger one on a tie.  Magnitudes of 10^21 and more, which
      JavaScript prints in exponent notation, are printed in full here. *)
Definition padLeft (width : nat) (s : string) : string :=
    String.concat "" (replicate (width - String.length s)%nat "0") +:+ s.

Definition toFixed (digits : nat) (x : num) : string :=
    match x with
    | NaN => "NaN"
    | PosInf => "Infinity"
    | NegInf => "-Infinity"
    | Fin q =>
        let scale := 10 ^ Z.of_nat digits in
        let n := Qfloor (Qabs q * inject_Z scale + (1 # 2))%Q in
        let whole := pretty (n / scale) in
        let body :=
          match digits with
          | O => whole
          | S _ => whole +:+ "." +:+ padLeft digits (pretty (n mod scale))
          end in
        if isNeg q then "-" +:+ body else body
    end.

End Measure.

(** ** Results *)

(** [number | bigint]; every strategy returns an integer. *)
Inductive value : Type :=
| VNum (z : Z)
| VBig (z : Z).

Module NumberToString.

  (** [Number::toString] on an integer-valued double: the decimal with the
      fewest significant digits that still rounds to the same double,
      closest to it if there are several. *)
Definition candidate (p : nat) (a : Z) : option Z :=
    let step := 10 ^ Z.of_nat p in
    let lo := a / step * step in
    let hi := lo + step in
    let okLo := (0 <? lo) && (round53 lo =? a) in
    let okHi := round53 hi =? a in
    match okLo, okHi with
    | true, true =>
        if a - lo <? hi - a then Some lo
        else if hi - a <? a - lo then Some hi
        else if Z.even (lo / step) then Some lo else Some hi
    | true, false => Some lo
    | false, true => Some hi
    | false, false => None
    end.

Fixpoint shortest (p : nat) (a : Z) : Z :=
    match candidate p a with
    | Some c => c
    | None => match p with O => a | S p' => shortest p' a end
    end.

Definition digitCount (c : Z) : nat := String.length (pretty c).

Fixpoint stripZeros (budget : nat) (c : Z) : Z :=
    match budget with
    | O => c
    | S budget' => if c mod 10 =? 0 then stripZeros budget' (c / 10) else c
    end.

Definition exponential (c : Z) : string :=
    let n := digitCount c in
    let s := pretty (stripZeros n c) in
    let mantissa :=
      match s with
      | String d EmptyString => s
      | String d rest => String d ("." +:+ rest)
      | EmptyString => s
      end in
    mantissa +:+ "e+" +:+ pretty (Z.of_nat n - 1).

Definition numberToString (z : Z) : string :=
    if z =? 0 then "0"
    else
      let a := Z.abs z in
      let c := shortest (digitCount a) a in
      let body := if (digitCount c <=? 21)%nat then pretty c else exponential c in
      if z <? 0 then "-" +:+ body else body.

End NumberToString.

Export NumberToString.

(** [r.result.toString()] *)
Definition toString (v : value) : string :=
  match v with
  | VNum z => numberToString z
  | VBig z => pretty z
  end.

Record BenchmarkResult := {
  name : string;
  time : num;
  result : value;
  memoryUsed : num;
  opsPerSecond : num;
  error : option string
}.

(** ** Doubles

    Times, memory figures, throughputs and ratios are fractions, and the
    program computes them in doubles: every operation rounds its exact
    result to the nearest binary64 value, ties to even, with gradual
    underflow below 2^-1022 and overflow to [Infinity] from 2^1024.  A
    [num] that the program holds is the exact value of a double; the sign
    of zero is not modelled. *)

Module Double.

(** [floor (log2 q)] for a positive [q]. *)
Definition ilog2 (q : Q) : Z :=
  let k := Z.log2 (Qnum q) - Z.log2 (Z.pos (Qden q)) in
  if Qle_bool (2 ^ k) q then k else k - 1.

(** The exponent of the unit in the last place. *)
Definition ulpExp (q : Q) : Z := Z.max (ilog2 q - 52) (-1074).

Definition nearestEven (m : Q) : Z :=
  let f := Qfloor m in
  match (m - inject_Z f ?= 1 # 2)%Q with
  | Lt => f
  | Gt => f + 1
  | Eq => if Z.even f then f else f + 1
  end.

(** The nearest double of a positive rational, overflow apart. *)
Definition roundQ (q : Q) : Q :=
  let e := ulpExp q in
  (inject_Z (nearestEven (q / 2 ^ e)) * 2 ^ e)%Q.

Definition round (x : num) : num :=
  match x with
  | Fin q =>
      match (q ?= 0)%Q with
      | Eq => Measure.zero
      | Gt =>
          let v := roundQ q in
          if Qle_bool (2 ^ 1024) v then PosInf else Measure.fin v
      | Lt =>
          let v := roundQ (- q) in
          if Qle_bool (2 ^ 1024) v then NegInf else Measure.fin (- v)
      end
  | _ => x
  end.

Definition mulExact (x y : num) : num :=
  match x, y with
  | NaN, _ | _, NaN => NaN
  | Fin a, Fin b => Measure.fin (a * b)
  | Fin a, inf | inf, Fin a =>
      if Measure.isZero a then NaN
      else if Measure.isNeg a then Measure.neg inf else inf
  | PosInf, PosInf | NegInf, NegInf => PosInf
  | PosInf, NegInf | NegInf, PosInf => NegInf
  end.

Definition add (x y : num) : num := round (Measure.add x y).
Definition sub (x y : num) : num := round (Measure.sub x y).
Definition mul (x y : num) : num := round (mulExact x y).
Definition div (x y : num) : num := round (Measure.div x y).

(** [Math.floor] *)
Definition floor (x : num) : num :=
  match x with
  | Fin q => Measure.ofZ (Qfloor q)
  | _ => x
  end.

(** [x.toFixed(digits)], which from 10^21 on is [String(x)]; a double of
    that size is an integer. *)
Definition toFixed (digits : nat) (x : num) : string :=
  match x with
  | Fin q =>
      if Qle_bool (inject_Z (10 ^ 21)) (Qabs q)
      then numberToString (Qfloor q)
      else Measure.toFixed digits x
  | _ => Measure.toFixed digits x
  end.

End Double.

(** ** Effects

    A computation either returns, throws (the payload is the message the
    runner's [catch] extracts from the thrown value), awaits a promise
    that never settles, or leaves the modelled domain (a strategy called
    on something that is not an integer size between 0 and 2^53). *)

Inductive Outcome (A : Type) : Type :=
| Returned (a : A)
| Thrown (message : string)
| Pending
| Unmodelled.

Arguments Returned {A} a.
Arguments Thrown {A} message.
Arguments Pending {A}.
Arguments Unmodelled {A}.

Definition Eff (S A : Type) : Type := S -> Outcome A * S.

Definition ret {S A : Type} (a : A) : Eff S A := fun s => (Returned a, s).

Definition throw {S A : Type} (message : string) : Eff S A :=
  fun s => (Thrown message, s).

Definition bind {S A B : Type} (m : Eff S A) (k : A -> Eff S B) : Eff S B :=
  fun s =>
    match m s with
    | (Returned a, s') => k a s'
    | (Thrown message, s') => (Thrown message, s')
    | (Pending, s') => (Pending, s')
    | (Unmodelled, s') => (Unmodelled, s')
    end.

(** [try { m } catch (err) { handler (message of err) }] *)
Definition tryCatch {S A : Type} (m : Eff S A) (handler : string -> Eff S A)
  : Eff S A :=
  fun s =>
    match m s with
    | (Thrown message, s') => handler message s'
    | other => other
    end.

Notation "x <- m ;; k" := (bind m (fun x => k))
  (at level 100, m at next level, right associativity).
Notation "m ;;; k" := (bind m (fun _ => k))
  (at level 100, right associativity).

(** ** Worker partitioner (lines 244-293 and 369-381) *)

Module Workers.

  (** What the main thread can observe of one worker, in arrival order. *)
Inductive WorkerEvent : Type :=
  | Message
  | ErrorEvent (message : string)
  | ExitEvent (code : Z)
  | TimerFired.

Inductive Promise : Type :=
  | Unsettled
  | Resolved (partial : Z)
  | Rejected (reason : string).

Record WorkerState := {
    range : Z * Z;
    promise : Promise;
    timerArmed : bool
  }.

  (** The worker thread: [for (let i = start; i < end; i++) sum += i],
      then [postMessage(sum)]. *)
Definition workerMain (start end_ : Z) : Z :=
    scalarLoop (Z.to_nat (end_ - start)) end_ start 0.

  (** Settling a promise twice has no effect. *)
Definition resolve (partial : Z) (p : Promise) : Promise :=
    match p with Unsettled => Resolved partial | _ => p end.

Definition reject (reason : string) (p : Promise) : Promise :=
    match p with Unsettled => Rejected reason | _ => p end.

Definition createWorker (start end_ : Z) : WorkerState :=
    {| range := (start, end_); promise := Unsettled; timerArmed := true |}.

  (** The four callbacks of [createWorker]. *)
Definition handle (w : WorkerState) (e : WorkerEvent) : WorkerState :=
    match e with
    | TimerFired =>
        if timerArmed w
        then {| range := range w;
                promise := reject "Worker timeout" (promise w);
                timerArmed := false |}
        else w
    | Message =>
        {| range := range w;
           promise := resolve (workerMain (fst (range w)) (snd (range w)))
                        (promise w);
           timerArmed := false |}
    | ErrorEvent message =>
        {| range := range w;
           promise := reject message (promise w);
           timerArmed := false |}
    | ExitEvent code =>
        {| range := range w;
           promise :=
             if code =? 0 then promise w
             else reject ("Worker stopped with exit code " +:+ pretty code)
                    (promise w);
           timerArmed := false |}
    end.

  (** The dispatch loop of [parallelWorkers]. *)
Fixpoint dispatch (budget : nat) (numWorkers chunk n i : Z)
    : list (Z * Z) :=
    match budget with
    | O => []
    | S budget' =>
        if i <? numWorkers then
          let start := i ⊗ chunk in
          let end_ := Z.min (start ⊕ chunk) n in
          if n <=? start then []
          else (start, end_) :: dispatch budget' numWorkers chunk n (i ⊕ 1)
        else []
    end.

Definition workRanges (numWorkers n : Z) : list (Z * Z) :=
    let chunk := ceilDiv n numWorkers in
    dispatch (Z.to_nat numWorkers) numWorkers chunk n 0.

Definition partialOf (w : WorkerState) : option Z :=
    match promise w with Resolved partial => Some partial | _ => None end.

  (** [Promise.all]: rejects with the first rejection, resolves once every
      promise is resolved, and otherwise stays pending. *)
Fixpoint promiseAll (ws : list WorkerState)
      (events : list (nat * WorkerEvent)) : Outcome (list Z) :=
    match events with
    | [] =>
        match mapM partialOf ws with
        | Some partials => Returned partials
        | None => Pending
        end
    | (i, e) :: rest =>
        match ws !! i with
        | None => promiseAll ws rest
        | Some w =>
            let w' := handle w e in
            match promise w, promise w' with
            | Unsettled, Rejected reason => Thrown reason
            | _, _ => promiseAll (<[i := w']> ws) rest
            end
        end
    end.

  (** [parallelWorkers] for [numWorkers] processing units, given the
      events of this invocation. *)
Definition parallelSum (numWorkers n : Z)
      (events : list (nat * WorkerEvent)) : Outcome Z :=
    let promises :=
      map (fun r => createWorker (fst r) (snd r)) (workRanges numWorkers n) in
    match promiseAll promises events with
    | Returned results => Returned (fold_left fadd results 0)
    | Thrown reason => Thrown reason
    | Pending => Pending
    | Unmodelled => Unmodelled
    end.

End Workers.

Export Workers.

(** ** Platform

    Everything the program reads from its environment: the clock
    ([performance.now()], milliseconds), the heap gauge
    ([process.memoryUsage().heapUsed], in MB), whether [global.gc] is
    exposed, the number of processing units, the events each invocation
    of [parallelWorkers] will observe, and the depth of the call stack.
    The clock and the gauge are sequences of rationals; what the program
    reads of them is a double, the nearest one. *)

Record Platform := {
  clock : nat -> Q;
  clockReads : nat;
  heapUsed : nat -> Q;
  heapReads : nat;
  gcExposed : bool;
  cpuCount : positive;
  workerEvents : nat -> list (nat * WorkerEvent);
  parallelRuns : nat;
  stackFrames : nat
}.

Definition performanceNow : Eff Platform num :=
  fun p =>
    (Returned (Double.round (Fin (clock p (clockReads p)))),
     {| clock := clock p; clockReads := S (clockReads p);
        heapUsed := heapUsed p; heapReads := heapReads p;
        gcExposed := gcExposed p; cpuCount := cpuCount p;
        workerEvents := workerEvents p; parallelRuns := parallelRuns p;
        stackFrames := stackFrames p |}).

Definition getMemoryUsage : Eff Platform num :=
  fun p =>
    (Returned (Double.round (Fin (heapUsed p (heapReads p)))),
     {| clock := clock p; clockReads := clockReads p;
        heapUsed := heapUsed p; heapReads := S (heapReads p);
        gcExposed := gcExposed p; cpuCount := cpuCount p;
        workerEvents := workerEvents p; parallelRuns := parallelRuns p;
        stackFrames := stackFrames p |}).

(** ** Benchmark entries *)

Definition Strategy : Type := num -> Eff Platform value.

Definition asSize (x : num) : option Z :=
  match x with
  | Fin q =>
      if (Qden q =? 1)%positive && (0 <=? Qnum q) && (Qnum q <=? two53)
      then Some (Qnum q) else None
  | _ => None
  end.

Definition onSize (f : Z -> Eff Platform value) : Strategy :=
  fun x =>
    match asSize x with
    | Some n => f n
    | None => fun p => (Unmodelled, p)
    end.

Definition numberStrategy (f : Z -> Z) : Strategy :=
  onSize (fun n => ret (VNum (f n))).

Definition bigintStrategy (f : Z -> Z) : Strategy :=
  onSize (fun n => ret (VBig (f n))).

Definition parallelWorkers : Strategy :=
  onSize (fun n p =>
    let outcome :=
      parallelSum (Z.pos (cpuCount p)) n (workerEvents p (parallelRuns p)) in
    let p' :=
      {| clock := clock p; clockReads := clockReads p;
         heapUsed := heapUsed p; heapReads := heapReads p;
         gcExposed := gcExposed p; cpuCount := cpuCount p;
         workerEvents := workerEvents p; parallelRuns := S (parallelRuns p);
         stackFrames := stackFrames p |} in
    match outcome with
    | Returned total => (Returned (VNum total), p')
    | Thrown reason => (Thrown reason, p')
    | Pending => (Pending, p')
    | Unmodelled => (Unmodelled, p')
    end).

(** [(n) => BillionChallenge.typedArrayOptimal(n)] *)
Definition typedArrayEntry : Strategy :=
  onSize (fun n p =>
    match typedArrayOptimal n with
    | Total total => (Returned (VNum total), p)
    | InvalidLength length =>
        (Thrown ("Invalid typed array length: " +:+ numberToString length), p)
    end).

(** [(n) => BillionChallenge.tailRecursive(n)] *)
Definition tailRecursiveEntry : Strategy :=
  onSize (fun n p =>
    match tailRecursive (stackFrames p) n 0 0 with
    | Some total => (Returned (VNum total), p)
    | None => (Thrown "Maximum call stack size exceeded", p)
    end).

(** The "Realistic Stress Test" entry (lines 328-366 and 564-571): it
    reads the heap gauge and the clock around array work on
    [Math.min(n, 10_000_000)] random numbers, prints, and returns 0. *)
Definition realisticStressTest (size : Z) : Eff Platform unit :=
  _ <- getMemoryUsage ;;
  _ <- performanceNow ;;
  _ <- performanceNow ;;
  _ <- getMemoryUsage ;;
  ret tt.

Definition stressEntry : Strategy :=
  onSize (fun n =>
    _ <- realisticStressTest (Z.min n 10000000) ;;
    ret (VNum 0)).

(** ** Benchmark runner (lines 384-452)

    The runner keeps a journal next to the platform: every call of the
    strategy with the size passed and the outcome, the elapsed times it
    pushed onto [times], and the garbage collections it forced.  A
    strategy only sees the platform. *)

Inductive Event : Type :=
| Called (size : num) (outcome : Outcome value)
| Timed (elapsed : num)
| GcForced.

Record RunState := {
  platform : Platform;
  journal : list Event
}.

Definition liftP {A : Type} (m : Eff Platform A) : Eff RunState A :=
  fun s =>
    let '(outcome, p') := m (platform s) in
    (outcome, {| platform := p'; journal := journal s |}).

Definition note (e : Event) : Eff RunState unit :=
  fun s =>
    (Returned tt, {| platform := platform s; journal := journal s ++ [e] |}).

(** [await fn(size)] *)
Definition invoke (fn : Strategy) (size : num) : Eff RunState value :=
  fun s =>
    let '(outcome, p') := fn size (platform s) in
    (outcome,
     {| platform := p'; journal := journal s ++ [Called size outcome] |}).

Fixpoint repeatNote (count : nat) (e : Event) : Eff RunState unit :=
  match count with
  | O => ret tt
  | S count' => note e ;;; repeatNote count' e
  end.

(** [if (global.gc && !isDevelopment) { global.gc(); ... }] *)
Definition forceGc (flags : Flags) (count : nat) : Eff RunState unit :=
  fun s =>
    if gcExposed (platform s) && negb (isDevelopment flags)
    then repeatNote count GcForced s
    else (Returned tt, s).

Fixpoint warmup (runs : nat) (fn : Strategy) (size : num)
  : Eff RunState unit :=
  match runs with
  | O => ret tt
  | S runs' => _ <- invoke fn size ;; warmup runs' fn size
  end.

Fixpoint measure (runs : nat) (flags : Flags) (fn : Strategy) (n : num)
    (times : list num) (finalResult : value)
  : Eff RunState (list num * value) :=
  match runs with
  | O => ret (times, finalResult)
  | S runs' =>
      forceGc flags 2 ;;;
      start <- liftP performanceNow ;;
      finalResult' <- invoke fn n ;;
      end_ <- liftP performanceNow ;;
      let time := Double.sub end_ start in
      note (Timed time) ;;;
      measure runs' flags fn n (times ++ [time]) finalResult'
  end.

(** [times.reduce((a, b) => a + b)], which throws on an empty array. *)
Definition reduceSum (times : list num) : Eff RunState num :=
  match times with
  | [] => throw "Reduce of empty array with no initial value"
  | first :: rest => ret (fold_left Double.add rest first)
  end.

Definition failure (name : string) (message : string) : BenchmarkResult :=
  {| name := name; time := PosInf; result := VNum 0;
     memoryUsed := Measure.zero; opsPerSecond := Measure.zero;
     error := Some message |}.

Definition warmupSize (n : num) : num :=
  Measure.min (Double.div n (Measure.ofZ 100)) (Measure.ofZ 1000000).

(** The [try] block of [runBenchmark]. *)
Definition measuredRun (flags : Flags) (name : string) (fn : Strategy)
    (n : num) : Eff RunState BenchmarkResult :=
  (if negb (isDevelopment flags)
   then warmup (warmupRuns config) fn (warmupSize n)
   else ret tt) ;;;
  memoryBefore <- liftP getMemoryUsage ;;
  measured <- measure (testRuns config) flags fn n [] (VNum 0) ;;
  memoryAfter <- liftP getMemoryUsage ;;
  total <- reduceSum (fst measured) ;;
  let avgTime :=
    Double.div total (Measure.ofZ (Z.of_nat (length (fst measured)))) in
  ret {| name := name;
         time := avgTime;
         result := snd measured;
         memoryUsed := Double.sub memoryAfter memoryBefore;
         opsPerSecond :=
           Double.div n (Double.div avgTime (Measure.ofZ 1000));
         error := None |}.

Definition runBenchmark (flags : Flags) (name : string) (fn : Strategy)
    (n : num) : Eff RunState BenchmarkResult :=
  tryCatch (measuredRun flags name fn n)
    (fun message => ret (failure name message)).

(** ** Ranking and verification (lines 455-524)

    The console output is abstracted to the data it prints. *)

(** Truthiness of [r.error]: a missing or an empty message is falsy. *)
Definition hasError (r : BenchmarkResult) : bool :=
  match error r with
  | Some message => negb (String.eqb message "")
  | None => false
  end.

Definition validOf (results : list BenchmarkResult) : list BenchmarkResult :=
  List.filter (fun r => negb (hasError r)) results.

Definition failedOf (results : list BenchmarkResult) : list BenchmarkResult :=
  List.filter hasError results.

(** The comparator [(a, b) => a.time - b.time].  The sort only looks at
    its sign, and the difference of two doubles has the sign of their
    exact difference (it is zero only when they are equal, see
    [byTime_sign]), so the difference is left unrounded. *)
Definition byTime (a b : BenchmarkResult) : num :=
  Measure.sub (time a) (time b).

(** [Array.prototype.sort] is stable and puts [a] after [b] exactly when
    the comparator is positive on [(a, b)]; insertion sort does the same
    for every comparator that orders its inputs consistently. *)
Fixpoint insertBy (cmp : BenchmarkResult -> BenchmarkResult -> num)
    (x : BenchmarkResult) (sorted : list BenchmarkResult)
  : list BenchmarkResult :=
  match sorted with
  | [] => [x]
  | y :: rest =>
      if Measure.isPositive (cmp x y) then y :: insertBy cmp x rest
      else x :: y :: rest
  end.

Definition sortBy (cmp : BenchmarkResult -> BenchmarkResult -> num)
    (l : list BenchmarkResult) : list BenchmarkResult :=
  fold_right (insertBy cmp) [] l.

Record RankingRow := {
  rank : nat;
  entry : BenchmarkResult;
  speedup : num;
  speedupStr : string
}.

(** [s.padStart(width)]. *)
Definition padStart (width : nat) (s : string) : string :=
  String.concat "" (replicate (width - String.length s)%nat " ") +:+ s.

Definition rankingRow (fastest : BenchmarkResult) (index : nat)
    (r : BenchmarkResult) : RankingRow :=
  let speedup := Double.div (time fastest) (time r) in
  {| rank := index + 1;
     entry := r;
     speedup := speedup;
     speedupStr := padStart 7 (Double.toFixed 2 speedup +:+ "x") |}.

Definition uniqueResults (validResults : list BenchmarkResult) : gset string :=
  list_to_set (map (fun r => toString (result r)) validResults).

Inductive Report : Type :=
| NoSuccessfulBenchmarks
| NoValidResults
| Ranked (rows : list RankingRow) (failed : list BenchmarkResult)
    (winner : BenchmarkResult) (verified : bool).

Definition formatResults (results : list BenchmarkResult) : Report :=
  let validResults := validOf results in
  let failedResults := failedOf results in
  match validResults with
  | [] => NoSuccessfulBenchmarks
  | _ :: _ =>
      let sortedResults := sortBy byTime validResults in
      match sortedResults with
      | [] => NoValidResults
      | fastest :: _ =>
          Ranked (imap (rankingRow fastest) sortedResults) failedResults
            fastest (bool_decide (size (uniqueResults validResults) = 1%nat))
      end
  end.

(** What the verification line says, if it is printed at all. *)
Definition verification (report : Report) : option bool :=
  match report with
  | Ranked _ _ _ verified => Some verified
  | _ => None
  end.

(** ** The suite (lines 527-626) *)

Definition benchmarks (testSize : Z) : list (string * Strategy) :=
  [ ("Mathematical Formula", numberStrategy mathFormula);
    ("BigInt Math Formula", bigintStrategy mathFormulaBigInt);
    ("Assembly Style Loop", numberStrategy assemblyStyleLoop);
    ("SIMD Style Processing", numberStrategy simdStyle);
    ("Optimized Loop", numberStrategy optimizedLoop);
    ("Cache Friendly", numberStrategy cacheFriendly);
    ("Typed Array Optimal", typedArrayEntry);
    ("Parallel Workers", parallelWorkers);
    ("Realistic Stress Test", stressEntry) ]
  ++ (if testSize <=? 10000
      then [("Tail Recursive", tailRecursiveEntry)] else []).

Fixpoint runAll (flags : Flags) (entries : list (string * Strategy))
    (testSize : Z) (results : list BenchmarkResult)
  : Eff RunState (list BenchmarkResult) :=
  match entries with
  | [] => ret results
  | (name, fn) :: rest =>
      results' <-
        tryCatch
          (result <- runBenchmark flags name fn (Measure.ofZ testSize) ;;
           forceGc flags 1 ;;;
           ret (results ++ [result]))
          (fun _ => ret results) ;;
      runAll flags rest testSize results'
  end.

Definition suite (flags : Flags) (testSize : Z) : Eff RunState Report :=
  _ <- liftP performanceNow ;;
  results <- runAll flags (benchmarks testSize) testSize [] ;;
  _ <- liftP performanceNow ;;
  ret (formatResults results).

Definition main (flags : Flags) : Eff RunState Report :=
  suite flags (if isFullTest flags then maxNumber config else 100000000).

(** ** Progress and time formatting (class PerformanceUtils, lines 69-98) *)

(** [glyph.repeat(count)] for a one-unit glyph and an integral count:
    the length of the result, or the [RangeError] of a negative or
    infinite count.  Lengths beyond 2^28 - 16, which some versions of the
    engine refuse, and fractional counts are left out. *)
Definition repeatLength (count : num) : Outcome Z :=
  match count with
  | NaN => Returned 0
  | PosInf => Thrown "Invalid count value: Infinity"
  | NegInf => Thrown "Invalid count value: -Infinity"
  | Fin q =>
      if negb (Qden q =? 1)%positive then Unmodelled
      else if Qnum q <? 0
      then Thrown ("Invalid count value: " +:+ numberToString (Qnum q))
      else if Qnum q <=? 2 ^ 28 - 16 then Returned (Qnum q)
      else Unmodelled
  end.

(** What [reportProgress] writes to the standard output: the method, the
    numbers of full and of light cells of the bar, and the percentage. *)
Record ProgressLine := {
  method : string;
  fullCells : Z;
  lightCells : Z;
  percentage : string
}.

Definition barLength : Z := 40.

(** [Math.floor((current / total) * barLength)] *)
Definition filledCells (current total : num) : num :=
  Double.floor (Double.mul (Double.div current total) (Measure.ofZ barLength)).

Definition reportProgress (flags : Flags) (current total : num)
    (label : string) : Outcome (option ProgressLine) :=
  if negb (enableProgressReporting config) || negb (isVerbose flags)
  then Returned None
  else
    let percentage :=
      Double.toFixed 1
        (Double.mul (Double.div current total) (Measure.ofZ 100)) in
    let filled := filledCells current total in
    match repeatLength filled with
    | Returned full =>
        match repeatLength (Double.sub (Measure.ofZ barLength) filled) with
        | Returned light =>
            Returned (Some {| method := label; fullCells := full;
                              lightCells := light;
                              percentage := percentage |})
        | Thrown message => Thrown message
        | Pending => Pending
        | Unmodelled => Unmodelled
        end
    | Thrown message => Thrown message
    | Pending => Pending
    | Unmodelled => Unmodelled
    end.

Definition formatTime (ms : num) : string :=
  if Measure.ltb ms (Measure.ofZ 1000)
  then Double.toFixed 2 ms +:+ "ms"
  else if Measure.ltb ms (Measure.ofZ 60000)
  then Double.toFixed 2 (Double.div ms (Measure.ofZ 1000)) +:+ "s"
  else Double.toFixed 2 (Double.div ms (Measure.ofZ 60000)) +:+ "m".

(** * Specification vocabulary *)

(** The sum 0 + 1 + ... + (n - 1). *)
Definition tri (n : Z) : Z := n * (n - 1) / 2.

(** [ranges] tile the interval from [a] to [b]: each range is non-empty
    and starts where the one before it ends. *)
Fixpoint Tiles (a : Z) (ranges : list (Z * Z)) (b : Z) : Prop :=
  match ranges with
  | [] => a = b
  | (start, end_) :: rest => start = a /\ start < end_ /\ Tiles end_ rest b
  end.

Definition contains (r : Z * Z) (x : Z) : bool :=
  (fst r <=? x) && (x <? snd r).

(** In how many of the ranges [x] lies. *)
Definition coverCount (ranges : list (Z * Z)) (x : Z) : nat :=
  length (List.filter (fun r => contains r x) ranges).

(** Every range but the last is exactly [chunk] long; the last one is
    between 1 and [chunk] long. *)
Fixpoint ChunkSized (chunk : Z) (ranges : list (Z * Z)) : Prop :=
  match ranges with
  | [] => True
  | (start, end_) :: rest =>
      match rest with
      | [] => 1 <= end_ - start <= chunk
      | _ :: _ => end_ - start = chunk /\ ChunkSized chunk rest
      end
  end.

(** The length of [r] is within 1 of [n / numWorkers]. *)
Definition nearAverage (numWorkers n : Z) (r : Z * Z) : Prop :=
  (Qabs (inject_Z (snd r - fst r) - inject_Z n / inject_Z numWorkers) <= 1)%Q.

(** The first event the main thread observes of worker [i]. *)
Definition firstEventOf (i : nat) (events : list (nat * WorkerEvent))
  : option WorkerEvent :=
  match List.find (fun ev => Nat.eqb (fst ev) i) events with
  | Some ev => Some (snd ev)
  | None => None
  end.

Definition isFailure (e : WorkerEvent) : bool :=
  match e with
  | Message => false
  | ErrorEvent _ => true
  | ExitEvent code => negb (code =? 0)
  | TimerFired => true
  end.

(** The reason [createWorker] rejects with on a failure event. *)
Definition failureReason (e : WorkerEvent) : string :=
  match e with
  | Message => ""
  | ErrorEvent message => message
  | ExitEvent code => "Worker stopped with exit code " +:+ pretty code
  | TimerFired => "Worker timeout"
  end.

(** Worker [i] posts its sum before anything else is observed of it. *)
Definition workerDelivers (events : list (nat * WorkerEvent)) (i : nat)
  : Prop :=
  firstEventOf i events = Some Message.

(** Worker [i] raises, times out or exits abnormally: the thread posts
    its sum as its last action, so a failed worker is one whose first
    observed event is the failure. *)
Definition workerFails (events : list (nat * WorkerEvent)) (i : nat)
  : Prop :=
  exists e, firstEventOf i events = Some e /\ isFailure e = true.

(** Projections of the runner's journal. *)
Definition callsOf (j : list Event) : list (num * Outcome value) :=
  omap (fun e => match e with Called size o => Some (size, o) | _ => None end)
    j.

Definition sizesOf (j : list Event) : list num := map fst (callsOf j).

Definition answersOf (j : list Event) : list value :=
  omap (fun c => match snd c with Returned v => Some v | _ => None end)
    (callsOf j).

Definition timesOf (j : list Event) : list num :=
  omap (fun e => match e with Timed t => Some t | _ => None end) j.

(** What a run appended to the journal. *)
Definition appended (before after : RunState) : list Event :=
  drop (length (journal before)) (journal after).

(** How a computation ended, whatever it returned. *)
Definition fate {A : Type} (o : Outcome A) : Outcome unit :=
  match o with
  | Returned _ => Returned tt
  | Thrown m => Thrown m
  | Pending => Pending
  | Unmodelled => Unmodelled
  end.

Definition returned (c : num * Outcome value) : Prop :=
  fate (snd c) = Returned tt.

(** The outcome is a return, or a throw where throwing is allowed. *)
Definition Within (canThrow : bool) {A : Type} (o : Outcome A) : Prop :=
  match o with
  | Returned _ => True
  | Thrown _ => canThrow = true
  | _ => False
  end.


(** The calls follow the plan of sizes: all of them returned and the
    plan is exhausted, or they stop at the first call that did not
    return, which decides how the run ended. *)
Definition Follows (plan : list num) (o : Outcome unit)
    (calls : list (num * Outcome value)) : Prop :=
  match o with
  | Returned _ => map fst calls = plan /\ Forall returned calls
  | _ =>
      exists done x c,
        calls = done ++ [(x, c)] /\ fate c = o /\ Forall returned done
        /\ map fst calls = take (S (length done)) plan
        /\ (length done < length plan)%nat
  end.

(** Every call in [X] is a call of [fn] on a platform satisfying the
    invariant of its position, counted from [k]. *)
Definition Traced (fn : Strategy) (Inv : nat -> Platform -> Prop) (k : nat)
    (X : list Event) : Prop :=
  forall j x o, callsOf X !! j = Some (x, o) ->
    exists p, Inv (k + j)%nat p /\ fst (fn x p) = o.

(** What the program reads at the [k]-th reading of a clock or of a
    gauge, and what [performance.now()] gives on platform [p]. *)
Definition reading (source : nat -> Q) (k : nat) : num :=
  Double.round (Fin (source k)).

Definition readingOn (p : Platform) : num := reading (clock p) (clockReads p).

(** The elapsed time [t] was measured around a call of [fn] on [n] that
    returned [v]: the clock was read, [fn] was called and returned [v],
    the clock was read again, and [t] is the second reading minus the
    first. *)
Definition Measured (fn : Strategy) (n : num) (v : value) (t : num) : Prop :=
  exists p p',
    fn n (snd (performanceNow p)) = (Returned v, p')
    /\ t = Double.sub (readingOn p') (readingOn p).

(** The platforms a run that starts on [p0] can be on when [k] calls of
    [fn] have returned: a run reads the clock, reads the heap gauge and
    calls [fn], and nothing else touches the platform. *)
Inductive Reaches (fn : Strategy) (p0 : Platform) : nat -> Platform -> Prop :=
| reaches_start : Reaches fn p0 0 p0
| reaches_now k p :
    Reaches fn p0 k p -> Reaches fn p0 k (snd (performanceNow p))
| reaches_heap k p :
    Reaches fn p0 k p -> Reaches fn p0 k (snd (getMemoryUsage p))
| reaches_call k p x v p' :
    Reaches fn p0 k p -> fn x p = (Returned v, p') -> Reaches fn p0 (S k) p'.

(** No constraint on the platform. *)
Definition anyPlatform : nat -> Platform -> Prop := fun _ _ => True.

(** After [k] calls of the parallel strategy the platform has the
    processing units and the worker events of [p0] and has started [k]
    more parallel runs. *)
Definition Aligned (p0 : Platform) (k : nat) (p : Platform) : Prop :=
  cpuCount p = cpuCount p0
  /\ workerEvents p = workerEvents p0
  /\ parallelRuns p = (parallelRuns p0 + k)%nat.

(** The outcome of the parallel strategy on size [x] when it is the
    [j]-th call after [p0]. *)
Definition parallelCall (p0 : Platform) (j : nat) (x : num) : Outcome value :=
  match asSize x with
  | Some z =>
      match parallelSum (Z.pos (cpuCount p0)) z
              (workerEvents p0 (parallelRuns p0 + j)%nat) with
      | Returned total => Returned (VNum total)
      | Thrown reason => Thrown reason
      | Pending => Pending
      | Unmodelled => Unmodelled
      end
  | None => Unmodelled
  end.

(** A strategy that returns on each of the given sizes. *)
Definition ReturnsOn (fn : Strategy) (sizes : list num) : Prop :=
  forall x p, In x sizes -> Within false (fst (fn x p)).

(** The strategy keeps [J] and returns on the given sizes wherever [J]
    holds. *)
Definition ReturnsUnder (J : Platform -> Prop) (fn : Strategy)
    (sizes : list num) : Prop :=
  (forall x p v p', J p -> fn x p = (Returned v, p') -> J p')
  /\ (forall x p, In x sizes -> J p -> Within false (fst (fn x p))).

(** A sample platform: the clock advances by [k] ms at its [k]-th
    reading, the heap gauge stays at 10 MB, four processing units; on
    the third parallel run of a benchmark worker 1 raises after worker 0
    has delivered, on every other run all four workers deliver. *)
Definition samplePlatform : Platform :=
  {| clock := fun k => inject_Z (Z.of_nat (k * k));
     clockReads := 0;
     heapUsed := fun _ => inject_Z 10;
     heapReads := 0;
     gcExposed := true;
     cpuCount := 4%positive;
     workerEvents := fun k =>
       if (k =? 2)%nat
       then [(0%nat, Message); (1%nat, ErrorEvent "boom"); (1%nat, ExitEvent 1)]
       else [(0%nat, Message); (2%nat, Message); (0%nat, ExitEvent 0);
             (1%nat, Message); (3%nat, Message)];
     parallelRuns := 0;
     stackFrames := 500 |}.

Definition sampleState : RunState :=
  {| platform := samplePlatform; journal := [] |}.

(** Every worker of every parallel run delivers its sum. *)
Definition Quiet (p : Platform) : Prop :=
  forall run i, (i < Pos.to_nat (cpuCount p))%nat ->
                workerDelivers (workerEvents p run) i.

(** The sample platform without the failing worker. *)
Definition quietPlatform : Platform :=
  {| clock := clock samplePlatform;
     clockReads := 0;
     heapUsed := heapUsed samplePlatform;
     heapReads := 0;
     gcExposed := true;
     cpuCount := 4%positive;
     workerEvents := fun _ =>
       [(0%nat, Message); (2%nat, Message); (0%nat, ExitEvent 0);
        (1%nat, Message); (3%nat, Message)];
     parallelRuns := 0;
     stackFrames := 500 |}.

Definition quietState : RunState :=
  {| platform := quietPlatform; journal := [] |}.

Definition productionFlags : Flags :=
  {| isFullTest := false; isVerbose := false; isDevelopment := false |}.

Definition developmentFlags : Flags :=
  {| isFullTest := false; isVerbose := false; isDevelopment := true |}.

(** The sizes a run passes to the strategy, in order. *)
Definition invocationSizes (flags : Flags) (n : num) : list num :=
  (if isDevelopment flags then []
   else replicate (warmupRuns config) (warmupSize n))
  ++ replicate (testRuns config) n.

(** The arithmetic mean of a non-empty list of measurements as doubles
    give it: the sum from left to right, then the division by the
    length, each operation rounded. *)
Definition mean (ts : list num) : option num :=
  match ts with
  | [] => None
  | first :: rest =>
      Some (Double.div (fold_left Double.add rest first)
              (Measure.ofZ (Z.of_nat (length ts))))
  end.

(** [r] is the record of a run that appended [X] to the journal and in
    which every call returned. *)
Definition Protocol (flags : Flags) (n : num) (X : list Event)
    (r : BenchmarkResult) : Prop :=
  length (timesOf X) = testRuns config
  /\ mean (timesOf X) = Some (time r)
  /\ opsPerSecond r = Double.div n (Double.div (time r) (Measure.ofZ 1000))
  /\ last (answersOf X) = Some (result r)
  /\ error r = None.

(** [a] is at least as fast as [b]. *)
Definition timeLe (a b : BenchmarkResult) : Prop :=
  Measure.ltb (time b) (time a) = false.

(** The sum worker [w] posts. *)
Definition sumOf (w : WorkerState) : Z :=
  workerMain (fst (range w)) (snd (range w)).

(** The mean time is a finite number. *)
Definition finiteTime (r : BenchmarkResult) : Prop :=
  exists q, time r = Fin q.

(** A succeeded result carries a positive, finite mean time. *)
Definition positiveTime (r : BenchmarkResult) : Prop :=
  exists q, time r = Fin q /\ (0 < q)%Q.

(** A succeeded record with the given mean time in milliseconds. *)
Definition timed (label : string) (ms : Z) : BenchmarkResult :=
  {| name := label; time := Measure.ofZ ms; result := VNum 4950;
     memoryUsed := Measure.zero;
     opsPerSecond :=
       Double.div (Measure.ofZ 100)
         (Double.div (Measure.ofZ ms) (Measure.ofZ 1000));
     error := None |}.

(** ** Vocabulary of the further properties *)

(** The mean time of [r] is [t]: neither is less than the other. *)
Definition sameTime (t : num) (r : BenchmarkResult) : bool :=
  negb (Measure.ltb (time r) t) && negb (Measure.ltb t (time r)).

(** A strategy that only observes the platform: a call that returns
    leaves the clock, the heap gauge and the exposure of the collector as
    they are and does not rewind their readings. *)
Definition Observer (fn : Strategy) : Prop :=
  forall x p v p', fn x p = (Returned v, p') ->
    clock p' = clock p /\ gcExposed p' = gcExposed p
    /\ (clockReads p <= clockReads p')%nat
    /\ heapUsed p' = heapUsed p /\ (heapReads p <= heapReads p')%nat.

(** How many collections are forced before each measured call. *)
Definition forcedGcsIf (flags : Flags) (exposed : bool) : nat :=
  if exposed && negb (isDevelopment flags) then 2%nat else 0%nat.

Definition forcedGcs (flags : Flags) (p : Platform) : nat :=
  forcedGcsIf flags (gcExposed p).

(** What one measured run that returned writes to the journal. *)
Definition measuredBlock (gcs : nat) (n : num) (answer : value)
    (elapsed : num) : list Event :=
  replicate gcs GcForced ++ [Called n (Returned answer); Timed elapsed].

(** [t] is the difference of a later and an earlier reading of the
    clock, both among the readings from [lo] up to [hi]. *)
Definition Elapsed (clock : nat -> Q) (lo hi : nat) (t : num) : Prop :=
  exists a b, (lo <= a)%nat /\ (a < b)%nat /\ (b < hi)%nat
    /\ t = Double.sub (reading clock b) (reading clock a).

(** [t] is the difference of a later and an earlier reading of the heap
    gauge. *)
Definition HeapDelta (heapUsed : nat -> Q) (t : num) : Prop :=
  exists a b, (a < b)%nat
    /\ t = Double.sub (reading heapUsed b) (reading heapUsed a).

(** A call of the strategy that returns reads the clock at most [m]
    times. *)
Definition ReadsAtMost (m : nat) (fn : Strategy) : Prop :=
  forall x p v p', fn x p = (Returned v, p') ->
    (clockReads p' <= clockReads p + m)%nat.

(** The least step of a ticking clock, 2^-20 ms (about a nanosecond),
    and its horizon, 2^53 ms. *)
Definition tick : Q := 2 ^ (-20).
Definition horizon : Q := 2 ^ 53.

(** Among the readings from [lo] up to [hi] the clock ticks: every
    reading is a time between 0 and the horizon, and a later reading is
    later by a tick at least. *)
Definition Ticking (clock : nat -> Q) (lo hi : nat) : Prop :=
  forall a b, (lo <= a)%nat -> (a < b)%nat -> (b < hi)%nat ->
    exists x y, reading clock a = Fin x /\ reading clock b = Fin y
      /\ (0 <= x)%Q /\ (x + tick <= y)%Q /\ (y <= horizon)%Q.

(** A measurement between two bounds. *)
Definition within (lo hi : Q) (t : num) : Prop :=
  exists q, t = Fin q /\ (lo <= q)%Q /\ (q <= hi)%Q.

(** How many times a run of the benchmark reads the clock at most, when
    a call of the strategy reads it at most [m] times. *)
Definition readsOfRun (m : nat) : nat := (8 * m + 10)%nat.

(** How many times [main] reads the clock at most: twice itself, and in
    the runs of its nine benchmarks, none of which reads the clock more
    than twice in a call. *)
Definition readsOfMain : nat := (2 + 9 * readsOfRun 2)%nat.

(** A positive finite measurement. *)
Definition positiveNum (t : num) : Prop :=
  exists q, t = Fin q /\ (0 < q)%Q.

(** The nearest double of a non-negative rational, overflow apart. *)
Definition roundNonneg (q : Q) : Q :=
  match (q ?= 0)%Q with
  | Eq => 0%Q
  | _ => Double.roundQ q
  end.

(** [q] is a positive double. *)
Definition isDouble (q : Q) : Prop :=
  (0 < q)%Q /\ (Double.roundQ q == q)%Q /\ (q < 2 ^ 1024)%Q.

(** The number of full cells [filledCells] computes for integers
    [0 <= current <= total], [0 < total]. *)
Definition cellsOf (current total : Z) : Z :=
  let ratio := Qred (roundNonneg (Qred (inject_Z current / inject_Z total))) in
  Qfloor (Qred (roundNonneg (Qred (ratio * inject_Z barLength)))).

Definition verboseFlags : Flags :=
  {| isFullTest := false; isVerbose := true; isDevelopment := false |}.

(** * Properties *)

(** ** Rounding *)

Section Round53.

Lemma round53_exact x : Z.abs x <= two53 -> round53 x = x.
  Proof.
    intros Hx. unfold round53.
    destruct (Z.ltb_spec (Z.abs x) two53) as [|Hge]; [reflexivity|].
    assert (Z.abs x = two53) as Habs by lia.
    rewrite Habs.
    destruct (Z.abs_spec x) as [[_ E]|[_ E]]; rewrite E in Habs.
    - subst x. reflexivity.
    - replace x with (- two53) by lia. reflexivity.
  Qed.

Lemma round53_exponent a : two53 <= a -> 1 <= Z.log2 a - 52.
  Proof.
    intros Ha.
    assert (Z.log2 two53 <= Z.log2 a) by (apply Z.log2_le_mono; exact Ha).
    change (Z.log2 two53) with 53 in *. lia.
  Qed.

  (** Between 2^53 and 2^54 the doubles are the even integers. *)
Lemma round53_even_exact x :
    0 <= x <= 2 * two53 -> Z.even x = true -> round53 x = x.
  Proof.
    intros [Hlo Hhi] Heven.
    destruct (Z_le_gt_dec x two53) as [Hs|Hs].
    { apply round53_exact. lia. }
    destruct (Z.eq_dec x (2 * two53)) as [->|Hne]; [reflexivity|].
    unfold round53. rewrite (Z.abs_eq x) by lia.
    destruct (Z.ltb_spec x two53); [lia|].
    assert (Z.log2 x = 53) as ->.
    { apply Z.log2_unique; [lia|]. change (2 ^ 53) with two53.
      change (2 ^ Z.succ 53) with (2 * two53). lia. }
    change (2 ^ (53 - 52)) with 2.
    apply Z.even_spec in Heven. destruct Heven as [k ->].
    replace (2 * k) with (k * 2) by lia.
    rewrite Z.mod_mul, Z.div_mul by lia.
    change (2 * 0 <? 2) with true. cbv iota.
    rewrite Z.sgn_pos by lia. lia.
  Qed.

Lemma round53_preserves_even x : Z.even x = true -> Z.even (round53 x) = true.
  Proof.
    intros Heven. unfold round53.
    destruct (Z.ltb_spec (Z.abs x) two53) as [|Hge]; [exact Heven|].
    pose proof (round53_exponent _ Hge) as He.
    set (e := Z.log2 (Z.abs x) - 52) in *.
    replace (2 ^ e) with (2 * 2 ^ (e - 1)).
    2:{ rewrite <- Z.pow_succ_r by lia. f_equal. lia. }
    rewrite !Z.even_mul. cbn. rewrite Bool.orb_true_r. apply Bool.orb_true_r.
  Qed.

  (** Rounding never takes a value from 2^53 upwards below 2^53. *)
Lemma round53_large x : two53 <= x -> two53 <= round53 x.
  Proof.
    intros Hx. unfold round53. rewrite (Z.abs_eq x) by (unfold two53 in *; lia).
    destruct (Z.ltb_spec x two53); [lia|].
    pose proof (round53_exponent _ Hx) as He.
    set (e := Z.log2 x - 52) in *.
    assert (0 < 2 ^ e) as Hpow by (apply Z.pow_pos_nonneg; lia).
    assert (2 ^ 52 <= x / 2 ^ e) as Hq.
    { apply Z.div_le_lower_bound; [lia|].
      rewrite Z.mul_comm, <- Z.pow_add_r by lia.
      replace (52 + e) with (Z.log2 x) by lia.
      apply Z.log2_spec. unfold two53 in *. lia. }
    rewrite Z.sgn_pos by (unfold two53 in *; lia).
    assert (2 <= 2 ^ e) as Hpow2.
    { change 2 with (2 ^ 1) at 1. apply Z.pow_le_mono_r; lia. }
    set (q := x / 2 ^ e) in *.
    assert (two53 <= q * 2 ^ e) as Hbase by (unfold two53; nia).
    repeat match goal with |- context [if ?b then _ else _] => destruct b end;
      nia.
  Qed.

End Round53.

(** ** Rounding to a double *)

Section DoubleRounding.

Lemma pow2_pos e : (0 < 2 ^ e)%Q.
Proof. apply Qpower_0_lt. reflexivity. Qed.

Lemma pow2_Z n : 0 <= n -> (inject_Z (2 ^ n) == 2 ^ n)%Q.
Proof. intros Hn. rewrite Zpower_Qpower by exact Hn. reflexivity. Qed.

Lemma pow2_add a b : (2 ^ (a + b) == 2 ^ a * 2 ^ b)%Q.
Proof. apply Qpower_plus. discriminate. Qed.

Lemma pow2_le a b : a <= b -> (2 ^ a <= 2 ^ b)%Q.
Proof. intros H. apply Qpower_le_compat_l; [exact H|discriminate]. Qed.

Lemma pow2_lt_inv a b : (2 ^ a < 2 ^ b)%Q -> a < b.
Proof. intros H. apply (Qpower_lt_compat_l_inv 2); [exact H|reflexivity]. Qed.

Lemma ilog2_spec q :
  (0 < q)%Q -> (2 ^ Double.ilog2 q <= q)%Q /\ (q < 2 ^ (Double.ilog2 q + 1))%Q.
Proof.
  intros Hq. destruct q as [a b].
  assert (0 < a) as Ha by (unfold Qlt in Hq; cbn in Hq; lia).
  unfold Double.ilog2. cbn [Qnum Qden].
  set (la := Z.log2 a). set (lb := Z.log2 (Z.pos b)).
  destruct (Z.log2_spec a Ha) as [Ha1 Ha2]. fold la in Ha1, Ha2.
  destruct (Z.log2_spec (Z.pos b) ltac:(lia)) as [Hb1 Hb2]. fold lb in Hb1, Hb2.
  assert (0 <= la) as Hla by apply Z.log2_nonneg.
  assert (0 <= lb) as Hlb by apply Z.log2_nonneg.
  assert (a # b == inject_Z a / inject_Z (Z.pos b))%Q as Hdiv
    by apply Qmake_Qdiv.
  assert (0 < inject_Z (Z.pos b))%Q as Hbpos by reflexivity.
  assert (2 ^ (la - lb - 1) <= a # b)%Q as Hlow.
  { rewrite Hdiv. apply Qle_shift_div_l; [exact Hbpos|].
    apply Qle_trans with (2 ^ (la - lb - 1) * 2 ^ (lb + 1))%Q.
    - apply Qmult_le_l; [apply pow2_pos|].
      rewrite <- pow2_Z by lia. rewrite <- Zle_Qle.
      replace (lb + 1) with (Z.succ lb) by lia. lia.
    - rewrite <- pow2_add. replace (la - lb - 1 + (lb + 1)) with la by lia.
      rewrite <- pow2_Z by lia. rewrite <- Zle_Qle. exact Ha1. }
  assert (a # b < 2 ^ (la - lb + 1))%Q as Hhigh.
  { rewrite Hdiv. apply Qlt_shift_div_r; [exact Hbpos|].
    apply Qlt_le_trans with (2 ^ (la - lb + 1) * 2 ^ lb)%Q.
    - rewrite <- pow2_add. replace (la - lb + 1 + lb) with (Z.succ la) by lia.
      rewrite <- pow2_Z by lia. rewrite <- Zlt_Qlt. exact Ha2.
    - apply Qmult_le_l; [apply pow2_pos|].
      rewrite <- pow2_Z by lia. rewrite <- Zle_Qle. exact Hb1. }
  destruct (Qle_bool (2 ^ (la - lb)) (a # b)) eqn:Hcmp.
  - apply Qle_bool_iff in Hcmp. split; assumption.
  - split; [exact Hlow|].
    replace (la - lb - 1 + 1) with (la - lb) by lia.
    apply Qnot_le_lt. intros Hle. apply Qle_bool_iff in Hle. congruence.
Qed.

Lemma ilog2_mono q1 q2 :
  (0 < q1)%Q -> (q1 <= q2)%Q -> Double.ilog2 q1 <= Double.ilog2 q2.
Proof.
  intros H1 H12.
  destruct (ilog2_spec q1 H1) as [Hl1 _].
  destruct (ilog2_spec q2 (Qlt_le_trans _ _ _ H1 H12)) as [_ Hh2].
  assert (Double.ilog2 q1 < Double.ilog2 q2 + 1); [|lia].
  apply pow2_lt_inv.
  eapply Qle_lt_trans; [exact Hl1|]. eapply Qle_lt_trans; eassumption.
Qed.

Lemma nearestEven_bounds m :
  Qfloor m <= Double.nearestEven m <= Qfloor m + 1.
Proof.
  unfold Double.nearestEven.
  destruct (m - inject_Z (Qfloor m) ?= 1 # 2)%Q; [|lia|lia].
  destruct (Z.even (Qfloor m)); lia.
Qed.

Lemma nearestEven_Z z : Double.nearestEven (inject_Z z) = z.
Proof.
  unfold Double.nearestEven. rewrite Qfloor_Z.
  assert ((inject_Z z - inject_Z z ?= 1 # 2)%Q = Lt) as ->; [|reflexivity].
  apply Qlt_alt. assert (inject_Z z - inject_Z z == 0)%Q as -> by ring.
  reflexivity.
Qed.

Lemma nearestEven_mono m1 m2 :
  (m1 <= m2)%Q -> Double.nearestEven m1 <= Double.nearestEven m2.
Proof.
  intros H12. pose proof (Qfloor_resp_le _ _ H12) as Hf.
  pose proof (nearestEven_bounds m1) as B1.
  pose proof (nearestEven_bounds m2) as B2.
  destruct (Z.eq_dec (Qfloor m1) (Qfloor m2)) as [Heq|Hne]; [|lia].
  unfold Double.nearestEven in *. rewrite Heq in *.
  set (f := Qfloor m2) in *.
  assert (m1 - inject_Z f <= m2 - inject_Z f)%Q as Hr.
  { apply Qplus_le_l. exact H12. }
  destruct (Qcompare_spec (m1 - inject_Z f) (1 # 2)) as [C1|C1|C1];
    destruct (Qcompare_spec (m2 - inject_Z f) (1 # 2)) as [C2|C2|C2];
    try (destruct (Z.even f)); try lia; exfalso;
    first [rewrite C1 in Hr; exact (Qlt_irrefl _ (Qle_lt_trans _ _ _ Hr C2))
          |rewrite C2 in Hr; exact (Qlt_irrefl _ (Qle_lt_trans _ _ _ Hr C1))
          |exact (Qlt_irrefl _
                    (Qlt_trans _ _ _ (Qle_lt_trans _ _ _ Hr C2) C1))].
Qed.

Lemma scaled_bounds q :
  (0 < q)%Q ->
  (q / 2 ^ Double.ulpExp q < inject_Z (2 ^ 53))%Q
  /\ (-1074 < Double.ulpExp q -> (inject_Z (2 ^ 52) <= q / 2 ^ Double.ulpExp q)%Q).
Proof.
  intros Hq. destruct (ilog2_spec q Hq) as [Hlow Hhigh].
  unfold Double.ulpExp. split.
  - apply Qlt_shift_div_r; [apply pow2_pos|].
    rewrite pow2_Z by lia. rewrite <- pow2_add.
    eapply Qlt_le_trans; [exact Hhigh|]. apply pow2_le. lia.
  - intros He. apply Qle_shift_div_l; [apply pow2_pos|].
    rewrite pow2_Z by lia. rewrite <- pow2_add.
    eapply Qle_trans; [|exact Hlow]. apply pow2_le. lia.
Qed.

Lemma roundQ_nonneg q : (0 < q)%Q -> (0 <= Double.roundQ q)%Q.
Proof.
  intros Hq. unfold Double.roundQ. apply Qmult_le_0_compat; [|apply Qlt_le_weak, pow2_pos].
  change 0%Q with (inject_Z 0). rewrite <- Zle_Qle.
  etransitivity; [|apply nearestEven_bounds].
  change 0 with (Qfloor (inject_Z 0)). apply Qfloor_resp_le.
  apply Qlt_le_weak. apply Qlt_shift_div_l; [apply pow2_pos|].
  rewrite Qmult_0_l. exact Hq.
Qed.

Lemma roundQ_mono q1 q2 :
  (0 < q1)%Q -> (q1 <= q2)%Q -> (Double.roundQ q1 <= Double.roundQ q2)%Q.
Proof.
  intros H1 H12. assert (0 < q2)%Q as H2 by (eapply Qlt_le_trans; eassumption).
  assert (Double.ulpExp q1 <= Double.ulpExp q2) as He.
  { unfold Double.ulpExp. pose proof (ilog2_mono q1 q2 H1 H12). lia. }
  unfold Double.roundQ.
  destruct (Z.eq_dec (Double.ulpExp q1) (Double.ulpExp q2)) as [Heq|Hne].
  - rewrite Heq. apply Qmult_le_r; [apply pow2_pos|].
    rewrite <- Zle_Qle. apply nearestEven_mono.
    apply Qmult_le_r; [apply Qinv_lt_0_compat, pow2_pos|exact H12].
  - destruct (scaled_bounds q1 H1) as [Hup _].
    destruct (scaled_bounds q2 H2) as [_ Hdown].
    specialize (Hdown ltac:(unfold Double.ulpExp in *; lia)).
    assert (Double.nearestEven (q1 / 2 ^ Double.ulpExp q1) <= 2 ^ 53) as Hn1.
    { rewrite <- (nearestEven_Z (2 ^ 53)). apply nearestEven_mono.
      apply Qlt_le_weak. exact Hup. }
    assert (2 ^ 52 <= Double.nearestEven (q2 / 2 ^ Double.ulpExp q2)) as Hn2.
    { rewrite <- (nearestEven_Z (2 ^ 52)). apply nearestEven_mono.
      exact Hdown. }
    apply Qle_trans with (inject_Z (2 ^ 53) * 2 ^ Double.ulpExp q1)%Q.
    { apply Qmult_le_r; [apply pow2_pos|]. rewrite <- Zle_Qle. exact Hn1. }
    apply Qle_trans with (inject_Z (2 ^ 52) * 2 ^ Double.ulpExp q2)%Q.
    2:{ apply Qmult_le_r; [apply pow2_pos|]. rewrite <- Zle_Qle. exact Hn2. }
    rewrite !pow2_Z by lia. rewrite <- !pow2_add. apply pow2_le. lia.
Qed.

Lemma ilog2_unique q k :
  (2 ^ k <= q)%Q -> (q < 2 ^ (k + 1))%Q -> Double.ilog2 q = k.
Proof.
  intros Hlow Hhigh.
  assert (0 < q)%Q as Hq by (eapply Qlt_le_trans; [apply (pow2_pos k)|exact Hlow]).
  destruct (ilog2_spec q Hq) as [Hl Hh].
  assert (Double.ilog2 q < k + 1).
  { apply pow2_lt_inv. eapply Qle_lt_trans; eassumption. }
  assert (k < Double.ilog2 q + 1).
  { apply pow2_lt_inv. eapply Qle_lt_trans; eassumption. }
  lia.
Qed.

Lemma nearestEven_comp m1 m2 :
  (m1 == m2)%Q -> Double.nearestEven m1 = Double.nearestEven m2.
Proof.
  intros H. unfold Double.nearestEven. rewrite (Qfloor_comp _ _ H).
  assert ((m1 - inject_Z (Qfloor m2) ?= 1 # 2)%Q
          = (m2 - inject_Z (Qfloor m2) ?= 1 # 2)%Q) as ->; [|reflexivity].
  apply Qcompare_comp; [rewrite H|]; reflexivity.
Qed.

(** An integer below 2^53 is a double. *)
Lemma roundQ_Z z :
  0 < z < 2 ^ 53 -> (Double.roundQ (inject_Z z) == inject_Z z)%Q.
Proof.
  intros Hz.
  assert (0 < inject_Z z)%Q as Hq.
  { change 0%Q with (inject_Z 0). rewrite <- Zlt_Qlt. lia. }
  destruct (ilog2_spec _ Hq) as [Hl Hh].
  set (l := Double.ilog2 (inject_Z z)) in *.
  assert (0 <= l) as Hl0.
  { assert (0 < l + 1); [|lia]. apply pow2_lt_inv.
    eapply Qle_lt_trans; [|exact Hh]. change (2 ^ 0)%Q with (inject_Z 1).
    rewrite <- Zle_Qle. lia. }
  assert (l < 53) as Hl1.
  { apply pow2_lt_inv. eapply Qle_lt_trans; [exact Hl|].
    rewrite <- (pow2_Z 53) by lia. rewrite <- Zlt_Qlt. lia. }
  unfold Double.roundQ, Double.ulpExp. fold l.
  rewrite Z.max_l by lia.
  assert (inject_Z z / 2 ^ (l - 52) == inject_Z (z * 2 ^ (52 - l)))%Q as Hscaled.
  { rewrite inject_Z_mult, (pow2_Z (52 - l)) by lia.
    unfold Qdiv. rewrite <- Qpower_opp.
    replace (- (l - 52)) with (52 - l) by lia. reflexivity. }
  rewrite (nearestEven_comp _ _ Hscaled), nearestEven_Z.
  rewrite inject_Z_mult, (pow2_Z (52 - l)) by lia.
  rewrite <- Qmult_assoc, <- pow2_add.
  replace (52 - l + (l - 52)) with 0 by lia. apply Qmult_1_r.
Qed.

End DoubleRounding.

Section DoubleNum.

Lemma roundNonneg_nonneg q : (0 <= q)%Q -> (0 <= roundNonneg q)%Q.
Proof.
  intros Hq. unfold roundNonneg.
  destruct (Qcompare_spec q 0) as [H|H|H].
  - apply Qle_refl.
  - exfalso. exact (Qlt_irrefl _ (Qle_lt_trans _ _ _ Hq H)).
  - apply roundQ_nonneg. exact H.
Qed.

Lemma roundNonneg_mono q1 q2 :
  (0 <= q1)%Q -> (q1 <= q2)%Q -> (roundNonneg q1 <= roundNonneg q2)%Q.
Proof.
  intros H1 H12. unfold roundNonneg at 1.
  destruct (Qcompare_spec q1 0) as [H|H|H].
  - apply roundNonneg_nonneg. eapply Qle_trans; eassumption.
  - exfalso. exact (Qlt_irrefl _ (Qle_lt_trans _ _ _ H1 H)).
  - unfold roundNonneg. destruct (Qcompare_spec q2 0) as [H'|H'|H'].
    + exfalso. rewrite H' in H12.
      exact (Qlt_irrefl _ (Qlt_le_trans _ _ _ H H12)).
    + exfalso.
      exact (Qlt_irrefl _ (Qlt_trans _ _ _ (Qlt_le_trans _ _ _ H H12) H')).
    + apply roundQ_mono; assumption.
Qed.

Lemma roundNonneg_double B : isDouble B -> (roundNonneg B == B)%Q.
Proof.
  intros (Hpos & Hfix & _). unfold roundNonneg.
  destruct (Qcompare_spec B 0) as [H|H|H]; [| |exact Hfix].
  - rewrite H in Hpos. discriminate Hpos.
  - exfalso. exact (Qlt_irrefl _ (Qlt_trans _ _ _ Hpos H)).
Qed.

(** Rounding keeps a non-negative number below a double below that
    double. *)
Lemma round_nonneg q B :
  (0 <= q)%Q -> (q <= B)%Q -> isDouble B ->
  Double.round (Fin q) = Fin (Qred (roundNonneg q))
  /\ (0 <= roundNonneg q)%Q /\ (roundNonneg q <= B)%Q.
Proof.
  intros Hq HB Hdouble.
  assert (roundNonneg q <= B)%Q as Hle.
  { rewrite <- (roundNonneg_double B Hdouble).
    apply roundNonneg_mono; assumption. }
  split; [|split; [apply roundNonneg_nonneg; exact Hq|exact Hle]].
  unfold Double.round, roundNonneg in *.
  destruct (Qcompare_spec q 0) as [H|H|H].
  - reflexivity.
  - exfalso. exact (Qlt_irrefl _ (Qle_lt_trans _ _ _ Hq H)).
  - assert (Qle_bool (2 ^ 1024) (Double.roundQ q) = false) as ->;
      [|reflexivity].
    apply Bool.not_true_iff_false. intros Hc. apply Qle_bool_iff in Hc.
    destruct Hdouble as (_ & _ & Hmax).
    exact (Qlt_irrefl _
             (Qle_lt_trans _ _ _ (Qle_trans _ _ _ Hc Hle) Hmax)).
Qed.

(** Rounding keeps a number between two positive doubles between
    them. *)
Lemma round_within lo hi q :
  isDouble lo -> isDouble hi -> (lo <= q)%Q -> (q <= hi)%Q ->
  within lo hi (Double.round (Fin q)).
Proof.
  intros Hlo Hhi H1 H2.
  assert (0 <= lo)%Q as Hlo0 by (apply Qlt_le_weak, Hlo).
  assert (0 <= q)%Q as Hq by (eapply Qle_trans; eassumption).
  destruct (round_nonneg q hi Hq H2 Hhi) as (Heq & _ & Hle).
  exists (Qred (roundNonneg q)). split; [exact Heq|].
  rewrite Qred_correct. split; [|exact Hle].
  rewrite <- (roundNonneg_double lo Hlo).
  apply roundNonneg_mono; assumption.
Qed.

Lemma Qred_Z z : Qred (inject_Z z) = inject_Z z.
Proof.
  unfold Qred, inject_Z.
  pose proof (Z.ggcd_gcd z 1) as Hg.
  pose proof (Z.ggcd_correct_divisors z 1) as Hd.
  destruct (Z.ggcd z 1) as [g [aa bb]]. cbn [fst] in Hg.
  rewrite Z.gcd_1_r in Hg. subst g. destruct Hd as [Ha Hb].
  replace aa with z by lia. replace bb with 1 by lia. reflexivity.
Qed.

(** What is read of a whole number of milliseconds or megabytes below
    2^53 is that number. *)
Lemma round_ofZ z :
  0 <= z < 2 ^ 53 -> Double.round (Measure.ofZ z) = Measure.ofZ z.
Proof.
  intros Hz. unfold Measure.ofZ, Double.round.
  destruct (Qcompare_spec (inject_Z z) 0) as [H|H|H].
  - unfold Measure.zero, Measure.ofZ. do 2 f_equal.
    unfold Qeq in H. cbn in H. lia.
  - exfalso. unfold Qlt in H. cbn in H. lia.
  - assert (0 < z < 2 ^ 53) as Hz' by (unfold Qlt in H; cbn in H; lia).
    pose proof (roundQ_Z z Hz') as Hr.
    assert (Qle_bool (2 ^ 1024) (Double.roundQ (inject_Z z)) = false) as ->.
    { apply Bool.not_true_iff_false. intros Hc. apply Qle_bool_iff in Hc.
      rewrite Hr in Hc.
      assert (inject_Z z < 2 ^ 1024)%Q as Hlt.
      { apply Qlt_le_trans with (2 ^ 53)%Q; [|apply pow2_le; lia].
        rewrite <- (pow2_Z 53) by lia. rewrite <- Zlt_Qlt. lia. }
      exact (Qlt_irrefl _ (Qle_lt_trans _ _ _ Hc Hlt)). }
    unfold Measure.fin. f_equal.
    rewrite (Qred_complete _ _ Hr). apply Qred_Z.
Qed.

Lemma within_wider lo hi lo' hi' t :
  (lo' <= lo)%Q -> (hi <= hi')%Q -> within lo hi t -> within lo' hi' t.
Proof.
  intros Hlo Hhi (q & -> & H1 & H2). exists q.
  split; [reflexivity|]. split; eapply Qle_trans; eassumption.
Qed.

Lemma Qfloor_eq x k :
  (inject_Z k <= x)%Q -> (x < inject_Z (k + 1))%Q -> Qfloor x = k.
Proof.
  intros Hlow Hhigh.
  pose proof (Qfloor_le x) as H1. pose proof (Qlt_floor x) as H2.
  assert (Qfloor x < k + 1).
  { rewrite Zlt_Qlt. eapply Qle_lt_trans; eassumption. }
  assert (k < Qfloor x + 1).
  { rewrite Zlt_Qlt. eapply Qle_lt_trans; eassumption. }
  lia.
Qed.

End DoubleNum.

(** ** The closed form and the loops *)

Section Triangular.

Lemma tri_double n : 2 * tri n = n * (n - 1).
  Proof.
    unfold tri.
    assert (Z.even (n * (n - 1)) = true) as Heven.
    { rewrite Z.even_mul, Z.even_sub. destruct (Z.even n); reflexivity. }
    apply Z.even_spec in Heven. destruct Heven as [k ->].
    replace (2 * k) with (k * 2) by lia. rewrite Z.div_mul by lia. lia.
  Qed.

Lemma tri_add i k : tri (i + k) = tri i + k * i + tri k.
  Proof.
    pose proof (tri_double (i + k)). pose proof (tri_double i).
    pose proof (tri_double k). nia.
  Qed.

Lemma tri_succ i : tri (i + 1) = tri i + i.
  Proof. rewrite tri_add. change (tri 1) with 0. lia. Qed.

Lemma tri_nonneg i : 0 <= i -> 0 <= tri i.
  Proof. intros Hi. pose proof (tri_double i). nia. Qed.

Lemma tri_mono i j : 0 <= i <= j -> tri i <= tri j.
  Proof.
    intros Hij. pose proof (tri_double i). pose proof (tri_double j).
    destruct (Z.eq_dec i j) as [->|Hne]; [lia|].
    assert (0 <= (j - i) * (i + j - 1)) by (apply Z.mul_nonneg_nonneg; lia).
    lia.
  Qed.

  (** Sizes whose sum fits in 53 bits: at most 2^27 + 1. *)
Lemma tri_bound n : 0 <= n -> tri n <= two53 -> n <= 134217729.
  Proof.
    intros Hn Hfit.
    destruct (Z_le_gt_dec n 134217729) as [|Hbig]; [assumption|].
    pose proof (tri_mono 134217730 n ltac:(lia)) as Hmono.
    change (tri 134217730) with 9007199456067585 in Hmono.
    unfold two53 in Hfit. lia.
  Qed.

End Triangular.

Lemma fadd_exact x y : Z.abs (x + y) <= two53 -> x ⊕ y = x + y.
Proof. apply round53_exact. Qed.

Lemma fsub_exact x y : Z.abs (x - y) <= two53 -> x ⊖ y = x - y.
Proof. apply round53_exact. Qed.

Lemma fmul_exact x y : Z.abs (x * y) <= two53 -> x ⊗ y = x * y.
Proof. apply round53_exact. Qed.

(** Replaces every rounded operation whose exact result is visibly within
    53 bits by the exact operation. *)
Ltac exact_arith :=
  repeat match goal with
  | |- context [?x ⊕ ?y] =>
      rewrite (fadd_exact x y) by (unfold two53 in *; lia)
  | |- context [?x ⊖ ?y] =>
      rewrite (fsub_exact x y) by (unfold two53 in *; lia)
  | |- context [?x ⊗ ?y] =>
      rewrite (fmul_exact x y) by (unfold two53 in *; nia)
  end.

Section Loops.

  (** The scalar loop adds [i + (i+1) + ... + (limit-1)] as long as the
      running sum stays within 53 bits; a budget of [limit - i] iterations
      is enough, and a larger one changes nothing. *)
Lemma scalarLoop_exact budget limit i sum :
    0 <= i <= limit -> limit <= two53 -> 0 <= sum ->
    sum + (tri limit - tri i) <= two53 ->
    limit - i <= Z.of_nat budget ->
    scalarLoop budget limit i sum = sum + (tri limit - tri i).
  Proof.
    revert i sum. induction budget as [|budget IH]; intros i sum Hi Hl Hs Hfit Hb.
    - cbn. replace i with limit by lia. lia.
    - cbn [scalarLoop]. destruct (Z.ltb_spec i limit) as [Hlt|Hge].
      + pose proof (tri_succ i) as Hsucc.
        pose proof (tri_mono (i + 1) limit ltac:(lia)) as Hmono.
        exact_arith. rewrite IH by lia. lia.
      + replace i with limit by lia. lia.
  Qed.

Lemma scalarLoop_budget budget extra limit i sum :
    0 <= i <= limit -> limit <= two53 ->
    limit - i <= Z.of_nat budget ->
    scalarLoop (budget + extra) limit i sum = scalarLoop budget limit i sum.
  Proof.
    revert i sum. induction budget as [|budget IH]; intros i sum Hi Hl Hb.
    - replace i with limit by lia. destruct extra; cbn; [reflexivity|].
      rewrite Z.ltb_irrefl. reflexivity.
    - cbn [scalarLoop Nat.add]. destruct (Z.ltb_spec i limit) as [Hlt|Hge];
        [|reflexivity].
      exact_arith. apply IH; lia.
  Qed.

Lemma optimizedLoop_exact n :
    0 <= n -> tri n <= two53 -> optimizedLoop n = tri n.
  Proof.
    intros Hn Hfit. pose proof (tri_bound n Hn Hfit).
    unfold optimizedLoop. rewrite scalarLoop_exact;
      change (tri 0) with 0; unfold two53 in *; lia.
  Qed.

Lemma mathFormula_exact n :
    0 <= n -> tri n <= two53 -> mathFormula n = tri n.
  Proof.
    intros Hn Hfit. pose proof (tri_bound n Hn Hfit).
    pose proof (tri_double n) as Hd. pose proof (tri_nonneg n Hn).
    unfold mathFormula, fhalf. exact_arith. unfold fmul.
    rewrite round53_even_exact; [reflexivity|lia|].
    rewrite <- Hd, Z.even_mul. reflexivity.
  Qed.

  (** The division by two in [mathFormula] is exact for every size: the
      rounded product is even. *)
Lemma mathFormula_numerator_even n : Z.even (n ⊗ (n ⊖ 1)) = true.
  Proof.
    unfold fmul, fsub. apply round53_preserves_even.
    rewrite Z.even_mul. destruct (Z.even n) eqn:En; [reflexivity|].
    apply round53_preserves_even. rewrite Z.even_sub, En. reflexivity.
  Qed.

Lemma mathFormulaBigInt_exact n : 0 <= n -> mathFormulaBigInt n = tri n.
  Proof.
    intros Hn. unfold mathFormulaBigInt, tri.
    apply Z.quot_div_nonneg; [nia|lia].
  Qed.

Lemma unrolled16_exact i :
    0 <= i -> 16 * i + 120 <= two53 -> unrolled16 i = 16 * i + 120.
  Proof. intros Hi Hfit. unfold unrolled16. exact_arith. lia. Qed.

Lemma unrolledLoop_exact budget limit i sum k :
    0 <= i -> 0 <= k -> limit = i + 16 * k -> limit <= two53 - 120 ->
    0 <= sum -> sum + (tri limit - tri i) <= two53 ->
    k <= Z.of_nat budget ->
    unrolledLoop budget limit i sum = (limit, sum + (tri limit - tri i)).
  Proof.
    revert i sum k.
    induction budget as [|budget IH]; intros i sum k Hi Hk Hl Hlim Hs Hfit Hb.
    - cbn. replace i with limit by lia. f_equal. lia.
    - cbn [unrolledLoop]. destruct (Z.ltb_spec i limit) as [Hlt|Hge].
      + pose proof (tri_add i 16) as Hadd. change (tri 16) with 120 in Hadd.
        pose proof (tri_mono (i + 16) limit ltac:(lia)) as Hmono.
        rewrite unrolled16_exact by (unfold two53 in *; lia).
        exact_arith. rewrite (IH _ _ (k - 1)) by lia. f_equal. lia.
      + replace i with limit by lia. f_equal. lia.
  Qed.

Lemma assemblyStyleLoop_exact n :
    0 <= n -> tri n <= two53 -> assemblyStyleLoop n = tri n.
  Proof.
    intros Hn Hfit. pose proof (tri_bound n Hn Hfit) as Hb.
    pose proof (Z.div_mod n 16 ltac:(lia)) as Hdm.
    pose proof (Z.mod_pos_bound n 16 ltac:(lia)) as Hmod.
    assert (0 <= n / 16) by (apply Z.div_pos; lia).
    pose proof (tri_mono (n / 16 * 16) n ltac:(lia)) as Hmono.
    pose proof (tri_nonneg (n / 16 * 16) ltac:(lia)).
    unfold assemblyStyleLoop, floorDiv. exact_arith.
    rewrite (unrolledLoop_exact _ _ _ _ (n / 16));
      change (tri 0) with 0; try (unfold two53 in *; lia).
    rewrite scalarLoop_exact; unfold two53 in *; lia.
  Qed.

Lemma vectorLoop_exact budget limit i sum k :
    0 <= i -> 0 <= k -> limit = i + 8 * k -> limit <= two53 - 28 ->
    0 <= sum -> sum + (tri limit - tri i) <= two53 ->
    k <= Z.of_nat budget ->
    vectorLoop budget limit i sum = (limit, sum + (tri limit - tri i)).
  Proof.
    revert i sum k.
    induction budget as [|budget IH]; intros i sum k Hi Hk Hl Hlim Hs Hfit Hb.
    - cbn. replace i with limit by lia. f_equal. lia.
    - cbn [vectorLoop]. destruct (Z.ltb_spec i limit) as [Hlt|Hge].
      + pose proof (tri_add i 8) as Hadd. change (tri 8) with 28 in Hadd.
        pose proof (tri_mono (i + 8) limit ltac:(lia)) as Hmono.
        cbv zeta. exact_arith. rewrite (IH _ _ (k - 1)) by lia. f_equal. lia.
      + replace i with limit by lia. f_equal. lia.
  Qed.

Lemma simdStyle_exact n :
    0 <= n -> tri n <= two53 -> simdStyle n = tri n.
  Proof.
    intros Hn Hfit. pose proof (tri_bound n Hn Hfit) as Hb.
    pose proof (Z.div_mod n 8 ltac:(lia)) as Hdm.
    pose proof (Z.mod_pos_bound n 8 ltac:(lia)) as Hmod.
    assert (0 <= n / 8) by (apply Z.div_pos; lia).
    pose proof (tri_mono (n / 8 * 8) n ltac:(lia)) as Hmono.
    pose proof (tri_nonneg (n / 8 * 8) ltac:(lia)).
    unfold simdStyle, floorDiv. exact_arith.
    rewrite (vectorLoop_exact _ _ _ _ (n / 8));
      change (tri 0) with 0; try (unfold two53 in *; lia).
    rewrite scalarLoop_exact; unfold two53 in *; lia.
  Qed.

Lemma chunkSize_value : chunkSize = 16000.
  Proof. reflexivity. Qed.

Lemma chunkLoop_exact budget n chunk sum :
    0 <= n -> tri n <= two53 -> 0 <= chunk ->
    sum = tri (Z.min chunk n) ->
    n - chunk <= 16000 * Z.of_nat budget ->
    chunkLoop budget n chunk sum = tri n.
  Proof.
    intros Hn Hfit. pose proof (tri_bound n Hn Hfit) as Hbound.
    revert chunk sum.
    induction budget as [|budget IH]; intros chunk sum Hc Hsum Hb.
    - cbn. rewrite Hsum, Z.min_r by lia. reflexivity.
    - cbn [chunkLoop]. rewrite chunkSize_value.
      destruct (Z.ltb_spec chunk n) as [Hlt|Hge].
      + rewrite Z.min_l in Hsum by lia. subst sum.
        exact_arith. cbv zeta.
        set (chunkEnd := Z.min (chunk + 16000) n).
        pose proof (tri_mono chunk chunkEnd ltac:(lia)).
        pose proof (tri_mono chunkEnd n ltac:(lia)).
        pose proof (tri_nonneg chunk Hc).
        rewrite scalarLoop_exact by (unfold two53 in *; lia).
        apply IH; [lia| |lia]. subst chunkEnd. lia.
      + rewrite Hsum, Z.min_r by lia. reflexivity.
  Qed.

Lemma cacheFriendly_exact n :
    0 <= n -> tri n <= two53 -> cacheFriendly n = tri n.
  Proof.
    intros Hn Hfit. unfold cacheFriendly. rewrite chunkSize_value.
    apply chunkLoop_exact; try assumption; try lia.
    - rewrite Z.min_l by lia. reflexivity.
    - pose proof (Z.div_mod n 16000 ltac:(lia)).
      pose proof (Z.mod_pos_bound n 16000 ltac:(lia)).
      assert (0 <= n / 16000) by (apply Z.div_pos; lia). lia.
  Qed.

Lemma ceilDiv_lt n d b : 0 < d -> b < ceilDiv n d <-> b * d < n.
  Proof.
    intros Hd. unfold ceilDiv.
    pose proof (Z.div_mod (- n) d ltac:(lia)).
    pose proof (Z.mod_pos_bound (- n) d Hd). nia.
  Qed.

Lemma fillAndSum_exact budget start currentSize i sum :
    0 <= start -> 0 <= i <= currentSize -> start + currentSize <= two53 ->
    0 <= sum ->
    sum + (tri (start + currentSize) - tri (start + i)) <= two53 ->
    currentSize - i <= Z.of_nat budget ->
    fillAndSum budget start currentSize i sum
    = sum + (tri (start + currentSize) - tri (start + i)).
  Proof.
    revert i sum.
    induction budget as [|budget IH]; intros i sum Hs Hi Hl Hsum Hfit Hb.
    - cbn. replace i with currentSize by lia. lia.
    - cbn [fillAndSum]. destruct (Z.ltb_spec i currentSize) as [Hlt|Hge].
      + assert (tri (start + (i + 1)) = tri (start + i) + (start + i)) as Hsucc.
        { rewrite Z.add_assoc. apply tri_succ. }
        pose proof (tri_mono (start + (i + 1)) (start + currentSize)
                      ltac:(lia)).
        exact_arith. rewrite IH by lia. lia.
      + replace i with currentSize by lia. lia.
  Qed.

Lemma batchLoop_exact budget n size batch sum :
    0 < size <= n -> tri n <= two53 -> 0 <= batch ->
    sum = tri (Z.min (batch * size) n) ->
    ceilDiv n size - batch <= Z.of_nat budget ->
    batchLoop budget n size (ceilDiv n size) batch sum = Total (tri n).
  Proof.
    intros Hsize Hfit. pose proof (tri_bound n ltac:(lia) Hfit) as Hbound.
    revert batch sum.
    induction budget as [|budget IH]; intros batch sum Hb Hsum Hbud.
    - cbn. assert (~ batch < ceilDiv n size) as Hdone by lia.
      rewrite ceilDiv_lt in Hdone by lia.
      rewrite Hsum, Z.min_r by lia. reflexivity.
    - cbn [batchLoop]. destruct (Z.ltb_spec batch (ceilDiv n size)) as [Hlt|Hge].
      + pose proof Hlt as Hstart. rewrite ceilDiv_lt in Hstart by lia.
        rewrite Z.min_l in Hsum by lia. subst sum.
        assert (0 <= batch * size) by nia.
        exact_arith. cbv zeta.
        set (start := batch * size) in *.
        set (end_ := Z.min (start + size) n).
        pose proof (tri_mono start end_ ltac:(lia)).
        pose proof (tri_mono end_ n ltac:(lia)).
        pose proof (tri_nonneg start ltac:(lia)).
        exact_arith.
        destruct (Z.ltb_spec (end_ - start) 0) as [Hneg|_]; [lia|].
        rewrite fillAndSum_exact;
          rewrite ?Z.add_0_r; replace (start + (end_ - start)) with end_ by lia;
          try (unfold two53 in *; lia).
        apply IH; [lia| |lia].
        replace (Z.min ((batch + 1) * size) n) with end_
          by (unfold end_, start; f_equal; lia).
        lia.
      + assert (~ batch < ceilDiv n size) as Hdone by lia.
        rewrite ceilDiv_lt in Hdone by lia.
        rewrite Hsum, Z.min_r by lia. reflexivity.
  Qed.

Lemma typedArrayOptimal_exact n :
    0 <= n -> tri n <= two53 -> typedArrayOptimal n = Total (tri n).
  Proof.
    intros Hn Hfit. unfold typedArrayOptimal.
    change (batchSize config) with 10000000.
    destruct (Z.eqb_spec (Z.min 10000000 n) 0) as [Hz|Hnz].
    - replace n with 0 by lia. reflexivity.
    - apply batchLoop_exact; try assumption; try lia.
      rewrite Z.mul_0_l, Z.min_l by lia. reflexivity.
  Qed.

  (** No batch of a size between 0 and 2^53 has a negative length. *)
Lemma batchLoop_returns budget n size :
    0 < size <= n -> n <= two53 ->
    forall batch sum, 0 <= batch ->
      exists total,
        batchLoop budget n size (ceilDiv n size) batch sum = Total total.
  Proof.
    intros Hsize Hn.
    induction budget as [|budget IH]; intros batch sum Hb; [eexists; reflexivity|].
    cbn [batchLoop].
    destruct (Z.ltb_spec batch (ceilDiv n size)) as [Hlt|Hge];
      [|eexists; reflexivity].
    rewrite ceilDiv_lt in Hlt by lia.
    assert (0 <= batch * size) by nia.
    rewrite (fmul_exact batch size) by (unfold two53 in *; lia).
    rewrite (fadd_exact batch 1) by (unfold two53 in *; nia).
    set (start := batch * size) in *.
    assert (start <= Z.min (start ⊕ size) n <= n) as Hend.
    { split; [|apply Z.le_min_r]. apply Z.min_glb; [|lia].
      destruct (Z_le_gt_dec (start + size) two53) as [Hfit|Hbig].
      - rewrite fadd_exact by lia. lia.
      - pose proof (round53_large (start + size) ltac:(lia)).
        unfold fadd. lia. }
    set (end_ := Z.min (start ⊕ size) n) in *.
    rewrite (fsub_exact end_ start) by (unfold two53 in *; lia).
    destruct (Z.ltb_spec (end_ - start) 0) as [Hneg|_]; [lia|].
    apply IH. lia.
  Qed.

Lemma typedArrayOptimal_returns n :
    0 <= n <= two53 -> exists total, typedArrayOptimal n = Total total.
  Proof.
    intros Hn. unfold typedArrayOptimal.
    change (batchSize config) with 10000000.
    destruct (Z.eqb_spec (Z.min 10000000 n) 0) as [Hz|Hnz];
      [eexists; reflexivity|].
    apply batchLoop_returns; lia.
  Qed.

  (** A negative size makes the first allocation fail. *)
Lemma typedArrayOptimal_negative n :
    - two53 <= n < 0 -> typedArrayOptimal n = InvalidLength n.
  Proof.
    intros Hn. unfold typedArrayOptimal.
    change (batchSize config) with 10000000.
    rewrite Z.min_r by lia.
    destruct (Z.eqb_spec n 0) as [Hz|_]; [lia|].
    assert (ceilDiv n n = 1) as ->.
    { unfold ceilDiv. rewrite Z.div_opp_l_z by (try lia; apply Z.mod_same; lia).
      rewrite Z.div_same by lia. reflexivity. }
    change (Z.to_nat 1) with 1%nat. cbn [batchLoop].
    change (0 <? 1) with true. cbv iota.
    assert (0 ⊗ n = 0) as -> by reflexivity.
    rewrite (fadd_exact 0 n) by (unfold two53 in *; lia).
    rewrite Z.add_0_l, Z.min_id.
    rewrite (fsub_exact n 0) by (unfold two53 in *; lia).
    rewrite Z.sub_0_r.
    destruct (Z.ltb_spec n 0) as [_|Hge]; [reflexivity|lia].
  Qed.

  (** With more stack frames than the size, the recursion returns. *)
Lemma tailRecursive_exact frames n sum current :
    0 <= current <= n -> n <= two53 -> 0 <= sum ->
    sum + (tri n - tri current) <= two53 ->
    n - current < Z.of_nat frames ->
    tailRecursive frames n sum current = Some (sum + (tri n - tri current)).
  Proof.
    revert sum current.
    induction frames as [|frames IH]; intros sum current Hc Hn Hs Hfit Hf.
    - lia.
    - cbn [tailRecursive]. destruct (Z.leb_spec n current) as [Hle|Hgt].
      + replace current with n by lia. f_equal. lia.
      + pose proof (tri_succ current) as Hsucc.
        pose proof (tri_mono (current + 1) n ltac:(lia)).
        exact_arith. rewrite IH by lia. f_equal. lia.
  Qed.

  (** With too few frames it raises instead of returning a wrong sum. *)
Lemma tailRecursive_overflow frames n sum current :
    0 <= current -> n <= two53 ->
    Z.of_nat frames <= n - current ->
    tailRecursive frames n sum current = None.
  Proof.
    revert sum current.
    induction frames as [|frames IH]; intros sum current Hc Hn Hf.
    - reflexivity.
    - cbn [tailRecursive]. destruct (Z.leb_spec n current) as [Hle|Hgt]; [lia|].
      exact_arith. apply IH; lia.
  Qed.

End Loops.

(** ** The partition *)

Section Partition.

Lemma Tiles_le a ranges b : Tiles a ranges b -> a <= b.
Proof.
  revert a. induction ranges as [|[start end_] rest IH]; intros a H.
  - cbn in H. lia.
  - destruct H as (-> & Hlt & Hrest). apply IH in Hrest. lia.
Qed.

(** A tiling covers every point of its interval once and no other point. *)
Lemma Tiles_cover a ranges b x :
  Tiles a ranges b ->
  coverCount ranges x = if (a <=? x) && (x <? b) then 1%nat else 0%nat.
Proof.
  revert a. induction ranges as [|[start end_] rest IH]; intros a H.
  - cbn in H. subst b. unfold coverCount. cbn.
    destruct (Z.leb_spec a x), (Z.ltb_spec x a); cbn; try reflexivity; lia.
  - destruct H as (-> & Hlt & Hrest).
    pose proof (Tiles_le _ _ _ Hrest) as Hle.
    specialize (IH _ Hrest). unfold coverCount in *. cbn [List.filter].
    unfold contains at 1. cbn [fst snd].
    destruct (Z.leb_spec a x), (Z.ltb_spec x end_), (Z.leb_spec end_ x),
      (Z.ltb_spec x b); cbn in *; rewrite ?IH; try reflexivity; lia.
Qed.

Lemma dispatch_tiles budget numWorkers chunk n i :
  1 <= chunk -> 0 <= i -> n <= two53 -> n <= numWorkers * chunk ->
  numWorkers - i <= Z.of_nat budget ->
  let ranges := dispatch budget numWorkers chunk n i in
  Tiles (Z.min (i * chunk) n) ranges n /\ ChunkSized chunk ranges.
Proof.
  intros Hchunk. revert i.
  induction budget as [|budget IH]; intros i Hi Hn Hcover Hbudget.
  - cbn. split; [|exact I]. apply Z.min_r. nia.
  - cbn [dispatch]. destruct (Z.ltb_spec i numWorkers) as [Hlt|Hge].
    2:{ cbn. split; [|exact I]. apply Z.min_r. nia. }
    destruct (Z_lt_le_dec (i * chunk) n) as [Hin|Hout].
    + assert (i < n) by nia.
      assert (Z.min (i * chunk ⊕ chunk) n = Z.min ((i + 1) * chunk) n) as Hend.
      { destruct (Z_le_gt_dec (i * chunk + chunk) two53).
        - exact_arith. f_equal. lia.
        - pose proof (round53_large (i * chunk + chunk) ltac:(lia)).
          unfold fadd. lia. }
      exact_arith. cbv zeta.
      destruct (Z.leb_spec n (i * chunk)); [lia|].
      rewrite Hend.
      destruct (IH (i + 1)) as [Htiles Hsized]; try lia.
      cbn [Tiles]. split.
      * split; [lia|]. split; [lia|]. exact Htiles.
      * cbn [ChunkSized].
        destruct (dispatch budget numWorkers chunk n (i + 1))
          as [|[start' end'] rest'] eqn:Hrest.
        -- lia.
        -- split; [|exact Hsized].
           destruct Htiles as (Hs & Hlt' & Hrest').
           pose proof (Tiles_le _ _ _ Hrest'). lia.
    + assert (n <= i ⊗ chunk) as Hstop.
      { destruct (Z_le_gt_dec (i * chunk) two53).
        - exact_arith. lia.
        - pose proof (round53_large (i * chunk) ltac:(lia)).
          unfold fmul. lia. }
      cbv zeta. destruct (Z.leb_spec n (i ⊗ chunk)); [|lia].
      cbn. split; [|exact I]. lia.
Qed.

Lemma ceilDiv_pos n d : 0 < d -> 0 < n -> 1 <= ceilDiv n d.
Proof.
  intros Hd Hn. assert (0 < ceilDiv n d); [|lia].
  apply ceilDiv_lt; lia.
Qed.

Lemma ceilDiv_covers n d : 0 < d -> n <= d * ceilDiv n d.
Proof.
  intros Hd. assert (~ ceilDiv n d < ceilDiv n d) as H by lia.
  rewrite ceilDiv_lt in H by lia. lia.
Qed.

Lemma workRanges_zero numWorkers : workRanges numWorkers 0 = [].
Proof.
  unfold workRanges.
  replace (ceilDiv 0 numWorkers) with 0
    by (unfold ceilDiv; cbn; rewrite Zdiv_0_l; reflexivity).
  destruct (Z.to_nat numWorkers); [reflexivity|].
  cbn [dispatch]. destruct (0 <? numWorkers); reflexivity.
Qed.

Lemma workRanges_tiles numWorkers n :
  0 <= n <= two53 -> 1 <= numWorkers ->
  Tiles 0 (workRanges numWorkers n) n /\
  ChunkSized (ceilDiv n numWorkers) (workRanges numWorkers n).
Proof.
  intros Hn Hp. destruct (Z.eq_dec n 0) as [->|Hnz].
  - rewrite workRanges_zero. cbn. auto.
  - pose proof (ceilDiv_pos n numWorkers ltac:(lia) ltac:(lia)) as Hpos.
    pose proof (ceilDiv_covers n numWorkers ltac:(lia)) as Hcov.
    pose proof (dispatch_tiles (Z.to_nat numWorkers) numWorkers
                  (ceilDiv n numWorkers) n 0) as Hdispatch.
    rewrite Z.mul_0_l, Z.min_l in Hdispatch by lia.
    apply Hdispatch; lia.
Qed.

End Partition.

(** ** Promises *)

Section Promises.

Lemma handle_range w e : range (handle w e) = range w.
Proof. destruct e; cbn; try reflexivity. destruct (timerArmed w); reflexivity. Qed.

Lemma handle_resolved w e partial :
  promise w = Resolved partial -> promise (handle w e) = Resolved partial.
Proof.
  intros H. destruct e; cbn; rewrite ?H; try reflexivity.
  - destruct (code =? 0); rewrite ?H; reflexivity.
  - destruct (timerArmed w); cbn; rewrite ?H; reflexivity.
Qed.

Lemma handle_rejects w e reason :
  promise w = Unsettled -> promise (handle w e) = Rejected reason ->
  isFailure e = true /\ reason = failureReason e.
Proof.
  intros Hw. destruct e; cbn; rewrite ?Hw; cbn.
  - discriminate.
  - intros [= <-]. auto.
  - destruct (code =? 0); cbn; [discriminate|].
    intros [= <-]. auto.
  - destruct (timerArmed w); cbn; rewrite ?Hw; [|discriminate].
    intros [= <-]. auto.
Qed.

Lemma handle_failure w e :
  promise w = Unsettled -> timerArmed w = true -> isFailure e = true ->
  promise (handle w e) = Rejected (failureReason e).
Proof.
  intros Hw Ht. destruct e; cbn; rewrite ?Hw, ?Ht; cbn; try discriminate;
    try reflexivity.
  intros Hc. destruct (code =? 0); [discriminate|]. reflexivity.
Qed.

Lemma firstEventOf_other i j e events :
  i <> j -> firstEventOf j ((i, e) :: events) = firstEventOf j events.
Proof.
  intros Hne. unfold firstEventOf. cbn [List.find fst].
  destruct (Nat.eqb_spec i j); [contradiction|reflexivity].
Qed.

Lemma firstEventOf_here i e events :
  firstEventOf i ((i, e) :: events) = Some e.
Proof. unfold firstEventOf. cbn. rewrite Nat.eqb_refl. reflexivity. Qed.

Lemma mapM_resolved (ws : list WorkerState) :
  Forall (fun w => promise w = Resolved (sumOf w)) ws ->
  mapM partialOf ws = Some (map sumOf ws).
Proof.
  intros H. apply mapM_Some. induction H as [|w ws Hw _ IH]; cbn.
  - constructor.
  - constructor; [|exact IH]. unfold partialOf. rewrite Hw. reflexivity.
Qed.

(** If every worker has either resolved with its own sum or will deliver
    before anything else, [Promise.all] resolves with all the sums. *)
Lemma promiseAll_delivered events : forall ws : list WorkerState,
  (forall i w, ws !! i = Some w ->
     promise w = Resolved (sumOf w)
     \/ (promise w = Unsettled /\ workerDelivers events i)) ->
  promiseAll ws events = Returned (map sumOf ws).
Proof.
  induction events as [|[i e] rest IH]; intros ws Hinv.
  - cbn. rewrite mapM_resolved; [reflexivity|].
    apply Forall_lookup_2. intros i w Hw.
    destruct (Hinv i w Hw) as [H|[_ H]]; [exact H|discriminate H].
  - cbn [promiseAll]. destruct (ws !! i) as [w|] eqn:Hw.
    + assert (promise (handle w e) = Resolved (sumOf w)) as Hres.
      { destruct (Hinv i w Hw) as [H|[H Hd]].
        - apply handle_resolved. exact H.
        - unfold workerDelivers in Hd. rewrite firstEventOf_here in Hd.
          injection Hd as ->. cbn. rewrite H. reflexivity. }
      rewrite Hres. replace (map sumOf ws) with (map sumOf (<[i:=handle w e]> ws)).
      2:{ change map with (@fmap list _) at 1 2. rewrite list_fmap_insert.
          apply list_insert_id. rewrite list_lookup_fmap, Hw. cbn.
          unfold sumOf. rewrite handle_range. reflexivity. }
      assert (forall j w', <[i:=handle w e]> ws !! j = Some w' ->
                promise w' = Resolved (sumOf w')
                \/ (promise w' = Unsettled /\ workerDelivers rest j)) as Hinv'.
      { intros j w' Hj. destruct (Nat.eq_dec i j) as [<-|Hne].
        - rewrite list_lookup_insert_eq in Hj by (eapply lookup_lt_Some; eauto).
          injection Hj as <-. left. rewrite Hres. unfold sumOf.
          rewrite handle_range. reflexivity.
        - rewrite list_lookup_insert_ne in Hj by exact Hne.
          destruct (Hinv j w' Hj) as [H|[H Hd]]; [left; exact H|right].
          split; [exact H|]. unfold workerDelivers in *.
          rewrite firstEventOf_other in Hd by exact Hne. exact Hd. }
      destruct (promise w); apply IH; exact Hinv'.
    + apply IH. intros j w' Hj.
      assert (i <> j) as Hne by (intros ->; congruence).
      destruct (Hinv j w' Hj) as [H|[H Hd]]; [left; exact H|right].
      split; [exact H|]. unfold workerDelivers in *.
      rewrite firstEventOf_other in Hd by exact Hne. exact Hd.
Qed.

(** If a worker that is still unsettled fails before anything else is
    observed of it, [Promise.all] rejects, with the reason of a failure
    among the events. *)
Lemma promiseAll_failure events : forall (ws : list WorkerState) i w,
  ws !! i = Some w -> promise w = Unsettled -> timerArmed w = true ->
  workerFails events i ->
  exists j e, In (j, e) events /\ isFailure e = true
              /\ promiseAll ws events = Thrown (failureReason e).
Proof.
  induction events as [|[j e] rest IH]; intros ws i w Hw Hp Ht [e0 [Hfirst Hfail]].
  - discriminate Hfirst.
  - cbn [promiseAll]. destruct (Nat.eq_dec j i) as [->|Hne].
    + rewrite firstEventOf_here in Hfirst. injection Hfirst as ->.
      rewrite Hw, Hp, (handle_failure w e0 Hp Ht Hfail).
      exists i, e0. split; [left; reflexivity|]. auto.
    + rewrite firstEventOf_other in Hfirst by exact Hne.
      destruct (ws !! j) as [wj|] eqn:Hwj.
      * assert (exists j' e', In (j', e') rest /\ isFailure e' = true
                  /\ promiseAll (<[j:=handle wj e]> ws) rest
                     = Thrown (failureReason e'))
          as (j' & e' & Hin & Hf & Hall).
        { apply (IH _ i w);
            [rewrite list_lookup_insert_ne by exact Hne; exact Hw
            |exact Hp|exact Ht|exists e0; auto]. }
        destruct (promise wj) eqn:Hpj.
        2,3: exists j', e'; (split; [right; exact Hin|]);
             (split; [exact Hf|]); exact Hall.
        destruct (promise (handle wj e)) eqn:Hpj'.
        1,2: exists j', e'; (split; [right; exact Hin|]);
             (split; [exact Hf|]); exact Hall.
        destruct (handle_rejects wj e reason Hpj Hpj') as [Hf' ->].
        exists j, e. split; [left; reflexivity|]. auto.
      * destruct (IH ws i w Hw Hp Ht) as (j' & e' & Hin & Hf & Hall);
          [exists e0; auto|].
        exists j', e'. split; [right; exact Hin|]. auto.
Qed.

Lemma promiseAll_modelled events : forall ws : list WorkerState,
  promiseAll ws events <> Unmodelled.
Proof.
  induction events as [|[i e] rest IH]; intros ws; cbn.
  - destruct (mapM partialOf ws); discriminate.
  - destruct (ws !! i) as [w|]; [|apply IH].
    destruct (promise w); try apply IH.
    destruct (promise (handle w e)); try apply IH. discriminate.
Qed.

End Promises.

(** ** The parallel sum *)

Section ParallelSum.

Lemma workerMain_exact start end_ :
  0 <= start <= end_ -> end_ <= two53 -> tri end_ - tri start <= two53 ->
  workerMain start end_ = tri end_ - tri start.
Proof.
  intros Hs He Hfit. unfold workerMain.
  rewrite scalarLoop_exact; lia.
Qed.

Lemma fold_tiles b ranges : forall a sum,
  Tiles a ranges b -> 0 <= a -> b <= two53 -> 0 <= sum ->
  sum + (tri b - tri a) <= two53 ->
  fold_left fadd (map (fun r => workerMain (fst r) (snd r)) ranges) sum
  = sum + (tri b - tri a).
Proof.
  induction ranges as [|[start end_] rest IH]; intros a sum Ht Ha Hb Hs Hfit.
  - cbn in *. subst b. lia.
  - destruct Ht as (-> & Hlt & Hrest).
    pose proof (Tiles_le _ _ _ Hrest) as Hle.
    pose proof (tri_mono a end_ ltac:(lia)).
    pose proof (tri_mono end_ b ltac:(lia)).
    cbn [map fold_left fst snd].
    rewrite workerMain_exact by lia. exact_arith.
    rewrite (IH end_) by (assumption || lia). lia.
Qed.

(** When every dispatched worker delivers, the parallel strategy returns
    the sum. *)
Lemma parallelSum_exact numWorkers n events :
  0 <= n -> tri n <= two53 -> 1 <= numWorkers ->
  (forall i, (i < length (workRanges numWorkers n))%nat ->
             workerDelivers events i) ->
  parallelSum numWorkers n events = Returned (tri n).
Proof.
  intros Hn Hfit Hp Hdeliver.
  pose proof (tri_bound n Hn Hfit) as Hbound.
  destruct (workRanges_tiles numWorkers n) as [Htiles _];
    [unfold two53; lia|lia|].
  unfold parallelSum. rewrite promiseAll_delivered.
  - rewrite map_map. cbn [sumOf createWorker range fst snd].
    rewrite (fold_tiles n _ 0); change (tri 0) with 0;
      try assumption; try (unfold two53 in *; lia).
    f_equal. lia.
  - intros i w Hw. right. apply list_lookup_fmap_Some in Hw.
    destruct Hw as (r & -> & Hr). split; [reflexivity|].
    apply Hdeliver. eapply lookup_lt_Some. exact Hr.
Qed.

(** When a dispatched worker fails, the parallel strategy throws, with
    the reason of a failure among the events. *)
Lemma parallelSum_failure numWorkers n events i :
  (i < length (workRanges numWorkers n))%nat ->
  workerFails events i ->
  exists j e, In (j, e) events /\ isFailure e = true
              /\ parallelSum numWorkers n events = Thrown (failureReason e).
Proof.
  intros Hi Hfail. unfold parallelSum.
  destruct (lookup_lt_is_Some_2 (workRanges numWorkers n) i Hi) as [r Hr].
  destruct (promiseAll_failure events
              (map (fun r => createWorker (fst r) (snd r))
                 (workRanges numWorkers n)) i (createWorker (fst r) (snd r)))
    as (j & e & Hin & Hf & Hall); try reflexivity; try assumption.
  - change map with (@fmap list _). rewrite list_lookup_fmap, Hr. reflexivity.
  - exists j, e. rewrite Hall. auto.
Qed.

Lemma parallelSum_modelled numWorkers n events :
  parallelSum numWorkers n events <> Unmodelled.
Proof.
  unfold parallelSum.
  pose proof (promiseAll_modelled events
                (map (fun r => createWorker (fst r) (snd r))
                   (workRanges numWorkers n))).
  destruct (promiseAll _ events); congruence.
Qed.

End ParallelSum.

(** ** Where the running sum leaves 53 bits *)

Section PrecisionLoss.

Lemma scalarLoop_prefix done rest limit i sum :
  0 <= i -> i + Z.of_nat done <= limit -> limit <= two53 -> 0 <= sum ->
  sum + (tri (i + Z.of_nat done) - tri i) <= two53 ->
  scalarLoop (done + rest) limit i sum
  = scalarLoop rest limit (i + Z.of_nat done)
      (sum + (tri (i + Z.of_nat done) - tri i)).
Proof.
  revert i sum. induction done as [|done IH]; intros i sum Hi Hl Hlim Hs Hfit.
  - cbn [Nat.add]. rewrite Z.add_0_r. f_equal. lia.
  - cbn [Nat.add scalarLoop]. destruct (Z.ltb_spec i limit); [|lia].
    pose proof (tri_succ i) as Hsucc.
    replace (i + Z.of_nat (S done)) with (i + 1 + Z.of_nat done) in * by lia.
    pose proof (tri_mono (i + 1) (i + 1 + Z.of_nat done) ltac:(lia)).
    exact_arith. rewrite IH by lia. f_equal. lia.
Qed.

(** The first size at which [optimizedLoop] rounds, 2^27 + 2: the sum of
    the first 2^27 terms is 2^53 - 2^26, the next sum is even and still
    exact, and the one after that is odd and beyond 2^53. *)
Lemma optimizedLoop_first_rounding :
  optimizedLoop 134217730 = 9007199456067584.
Proof.
  unfold optimizedLoop.
  replace (Z.to_nat 134217730) with (Z.to_nat 134217728 + 2)%nat by lia.
  rewrite scalarLoop_prefix; rewrite ?Z2Nat.id by lia;
    [vm_compute; reflexivity| | | | |];
    first [lia | unfold two53; lia | vm_compute; intros Hc; discriminate Hc].
Qed.

End PrecisionLoss.

(** ** Summation strategies: results *)

(** C1, as stated, does not hold: at N = 134217730 = 2^27 + 2 the running
    sum of [optimizedLoop] has left the 53 bits of a double, and the
    strategy returns 9007199456067584, one less than N*(N-1)/2. *)
Lemma optimizedLoop_loses_precision :
  optimizedLoop 134217730 = 9007199456067584
  /\ optimizedLoop 134217730 <> 134217730 * (134217730 - 1) / 2.
Proof.
  rewrite optimizedLoop_first_rounding. split; [reflexivity|].
  vm_compute. discriminate.
Qed.

(** C1, amended: for every size N >= 0 whose sum N*(N-1)/2 fits in the
    53 bits of a double (N up to 2^27), every strategy returns the sum of
    0..N-1, that is N*(N-1)/2: the closed forms, the loops, the recursive
    strategy whenever the call stack has more than N frames, and the
    parallel strategy for any number of workers whenever every dispatched
    worker delivers its partial sum.  The bigint closed form does so for
    every N >= 0. *)
Theorem strategies_sum_within_53_bits n :
  0 <= n -> n * (n - 1) / 2 <= two53 ->
  mathFormula n = n * (n - 1) / 2
  /\ mathFormulaBigInt n = n * (n - 1) / 2
  /\ optimizedLoop n = n * (n - 1) / 2
  /\ assemblyStyleLoop n = n * (n - 1) / 2
  /\ typedArrayOptimal n = Total (n * (n - 1) / 2)
  /\ simdStyle n = n * (n - 1) / 2
  /\ cacheFriendly n = n * (n - 1) / 2
  /\ (forall frames, n < Z.of_nat frames ->
        tailRecursive frames n 0 0 = Some (n * (n - 1) / 2))
  /\ (forall numWorkers events, 1 <= numWorkers ->
        (forall i, (i < length (workRanges numWorkers n))%nat ->
                   workerDelivers events i) ->
        parallelSum numWorkers n events = Returned (n * (n - 1) / 2))
  /\ (forall m, 0 <= m -> mathFormulaBigInt m = m * (m - 1) / 2).
Proof.
  intros Hn Hfit. fold (tri n) in *.
  pose proof (tri_bound n Hn Hfit) as Hbound.
  repeat split.
  - apply mathFormula_exact; assumption.
  - apply mathFormulaBigInt_exact; assumption.
  - apply optimizedLoop_exact; assumption.
  - apply assemblyStyleLoop_exact; assumption.
  - apply typedArrayOptimal_exact; assumption.
  - apply simdStyle_exact; assumption.
  - apply cacheFriendly_exact; assumption.
  - intros frames Hframes.
    rewrite tailRecursive_exact; change (tri 0) with 0;
      try (unfold two53 in *; lia).
    f_equal. lia.
  - intros numWorkers events Hp Hdeliver.
    apply parallelSum_exact; assumption.
  - intros m Hm. apply mathFormulaBigInt_exact. exact Hm.
Qed.

Lemma strategies_sum_within_53_bits_witness :
  0 <= 1000 /\ 1000 * (1000 - 1) / 2 <= two53
  /\ assemblyStyleLoop 1000 = 1000 * (1000 - 1) / 2.
Proof.
  assert (0 <= 1000) as H0 by lia.
  assert (1000 * (1000 - 1) / 2 <= two53) as H1
    by (vm_compute; intros Hc; discriminate Hc).
  split; [exact H0|]. split; [exact H1|].
  exact (proj1 (proj2 (proj2 (proj2
           (strategies_sum_within_53_bits 1000 H0 H1))))).
Defined.

(** C9: at N = 10^9 the closed form loses nothing.  The product
    10^9 * (10^9 - 1) exceeds 2^53 but is an odd multiple of 2^9 with a
    51-bit odd part, hence a double; halving it is exact, and the result
    is the exact integer 499999999500000000, the value and the decimal
    string of the bigint reference. *)
Theorem mathFormula_exact_at_one_billion :
  1000000000 ⊗ (1000000000 ⊖ 1) = 1000000000 * (1000000000 - 1)
  /\ mathFormula 1000000000 = 499999999500000000
  /\ mathFormulaBigInt 1000000000 = 499999999500000000
  /\ mathFormula (maxNumber config) = mathFormulaBigInt (maxNumber config)
  /\ toString (VNum (mathFormula 1000000000))
     = toString (VBig (mathFormulaBigInt 1000000000)).
Proof. repeat split; vm_compute; reflexivity. Qed.

(** ** Work ranges: results *)

(** C2, as stated, does not hold: 10 items on 4 workers are cut into
    [0,3), [3,6), [6,9), [9,10), and the last range, of length 1, is 1.5
    away from 10/4. *)
Lemma workRanges_last_range_short :
  workRanges 4 10 = [(0, 3); (3, 6); (6, 9); (9, 10)]
  /\ ~ Forall (nearAverage 4 10) (workRanges 4 10).
Proof.
  split; [reflexivity|].
  change (workRanges 4 10) with [(0, 3); (3, 6); (6, 9); (9, 10)].
  intros H. do 3 (apply Forall_cons_1 in H; destruct H as [_ H]).
  apply Forall_cons_1 in H. destruct H as [H _].
  vm_compute in H. apply H. reflexivity.
Qed.

(** C2, amended: for every size N between 0 and 2^53 and every worker
    count P >= 1 the dispatched ranges are contiguous and non-overlapping
    and cover [0, N) exactly, each point once; every range but the last
    is exactly ceil(N/P) long, which exceeds N/P by less than 1, and the
    last range is between 1 and ceil(N/P) long. *)
Theorem workRanges_partition numWorkers n :
  0 <= n <= two53 -> 1 <= numWorkers ->
  Tiles 0 (workRanges numWorkers n) n
  /\ (forall x, coverCount (workRanges numWorkers n) x
                = if (0 <=? x) && (x <? n) then 1%nat else 0%nat)
  /\ ChunkSized (ceilDiv n numWorkers) (workRanges numWorkers n)
  /\ n <= numWorkers * ceilDiv n numWorkers < n + numWorkers.
Proof.
  intros Hn Hp.
  destruct (workRanges_tiles numWorkers n Hn Hp) as [Htiles Hsized].
  split; [exact Htiles|]. split; [|split; [exact Hsized|]].
  - intros x. apply Tiles_cover. exact Htiles.
  - split; [apply ceilDiv_covers; lia|].
    assert (ceilDiv n numWorkers - 1 < ceilDiv n numWorkers) as Hlt by lia.
    rewrite ceilDiv_lt in Hlt by lia. lia.
Qed.

Lemma workRanges_partition_witness :
  0 <= 10 <= two53 /\ 1 <= 4
  /\ ChunkSized (ceilDiv 10 4) (workRanges 4 10).
Proof.
  assert (0 <= 10 <= two53) as H0 by (unfold two53; lia).
  assert (1 <= 4) as H1 by lia.
  split; [exact H0|]. split; [exact H1|].
  exact (proj1 (proj2 (proj2 (workRanges_partition 4 10 H0 H1)))).
Defined.

(** The scenario of the specification: a million items on four workers. *)
Example workRanges_million :
  workRanges 4 1000000
  = [(0, 250000); (250000, 500000); (500000, 750000); (750000, 1000000)].
Proof. reflexivity. Qed.

(** ** The runner's journal *)

Section Journal.

Lemma callsOf_app X Y : callsOf (X ++ Y) = callsOf X ++ callsOf Y.
Proof. apply omap_app. Qed.

Lemma timesOf_app X Y : timesOf (X ++ Y) = timesOf X ++ timesOf Y.
Proof. apply omap_app. Qed.

Lemma sizesOf_app X Y : sizesOf (X ++ Y) = sizesOf X ++ sizesOf Y.
Proof. unfold sizesOf. rewrite callsOf_app. apply map_app. Qed.

Lemma answersOf_app X Y : answersOf (X ++ Y) = answersOf X ++ answersOf Y.
Proof. unfold answersOf. rewrite callsOf_app. apply omap_app. Qed.

Lemma callsOf_called size o X :
  callsOf (Called size o :: X) = (size, o) :: callsOf X.
Proof. reflexivity. Qed.

Lemma callsOf_gc count : callsOf (replicate count GcForced) = [].
Proof. induction count; [reflexivity|exact IHcount]. Qed.

Lemma timesOf_gc count : timesOf (replicate count GcForced) = [].
Proof. induction count; [reflexivity|exact IHcount]. Qed.

Lemma appended_app s s' X :
  journal s' = journal s ++ X -> appended s s' = X.
Proof. intros H. unfold appended. rewrite H. apply drop_app_length. Qed.

Lemma returned_inv c : returned c -> exists v, snd c = Returned v.
Proof.
  unfold returned. destruct (snd c) as [v| | |]; try discriminate. eauto.
Qed.

Lemma answersOf_returned X :
  Forall returned (callsOf X) -> length (answersOf X) = length (callsOf X).
Proof.
  unfold answersOf. induction 1 as [|c calls Hc _ IH]; [reflexivity|].
  destruct (returned_inv c Hc) as [v Hv]. cbn. rewrite Hv. cbn.
  rewrite IH. reflexivity.
Qed.

Lemma Follows_cons plan o calls x v :
  Follows plan o calls ->
  Follows (x :: plan) o ((x, Returned v) :: calls).
Proof.
  assert (returned (x, Returned v)) as Hr by reflexivity.
  destruct o as [[]|m| |]; cbn.
  - intros [Hs Hall]. split; [rewrite Hs; reflexivity|].
    constructor; assumption.
  - intros (done & y & c & -> & Hc & Hd & Hs & Hl).
    exists ((x, Returned v) :: done), y, c. cbn. rewrite Hs.
    repeat split; try assumption; [constructor; assumption|lia].
  - intros (done & y & c & -> & Hc & Hd & Hs & Hl).
    exists ((x, Returned v) :: done), y, c. cbn. rewrite Hs.
    repeat split; try assumption; [constructor; assumption|lia].
  - intros (done & y & c & -> & Hc & Hd & Hs & Hl).
    exists ((x, Returned v) :: done), y, c. cbn. rewrite Hs.
    repeat split; try assumption; [constructor; assumption|lia].
Qed.

Lemma Follows_stop plan x c :
  fate c <> Returned tt ->
  Follows (x :: plan) (fate c) [(x, c)].
Proof.
  intros Hc.
  assert (exists done y c', [(x, c)] = done ++ [(y, c')] /\ fate c' = fate c
            /\ Forall returned done
            /\ map fst [(x, c)] = take (S (length done)) (x :: plan)
            /\ (length done < length (x :: plan))%nat) as H.
  { exists [], x, c. cbn. rewrite take_0. repeat split; [constructor|lia]. }
  destruct c as [v|m| |]; cbn in *; [congruence|exact H..].
Qed.

Lemma Follows_app plan1 plan2 o calls1 calls2 :
  Follows plan1 (Returned tt) calls1 -> Follows plan2 o calls2 ->
  Follows (plan1 ++ plan2) o (calls1 ++ calls2).
Proof.
  intros [Hs Hall]. subst plan1. induction Hall as [|[x c] calls1 Hc _ IH].
  - intros H. exact H.
  - intros H. destruct (returned_inv _ Hc) as [v Hv]. cbn in Hv. subst c.
    cbn. apply Follows_cons. apply IH. exact H.
Qed.

Lemma Follows_more plan1 plan2 o calls :
  o <> Returned tt -> Follows plan1 o calls ->
  Follows (plan1 ++ plan2) o calls.
Proof.
  intros Ho H.
  assert (exists done x c,
            calls = done ++ [(x, c)] /\ fate c = o /\ Forall returned done
            /\ map fst calls = take (S (length done)) (plan1 ++ plan2)
            /\ (length done < length (plan1 ++ plan2))%nat) as H'.
  { destruct o as [[]|m| |]; [congruence|..];
      destruct H as (done & x & c & Hcalls & Hc & Hd & Hs & Hl);
      exists done, x, c; (repeat split; try assumption);
      try (rewrite take_app_le by lia; exact Hs);
      rewrite length_app; lia. }
  destruct o as [[]|m| |]; [congruence|exact H'..].
Qed.

End Journal.

(** Normalises the projections of a journal built from appends. *)
Ltac journal :=
  rewrite ?callsOf_app, ?sizesOf_app, ?answersOf_app, ?timesOf_app,
    ?callsOf_gc, ?timesOf_gc;
  cbn [callsOf timesOf omap list_omap app];
  rewrite ?app_nil_r, ?app_nil_l.

(** ** The runner *)

Section Runner.

Variable flags : Flags.
Variable fn : Strategy.

(** An invariant of the platform, indexed by the number of calls made so
    far: reading the clock or the heap gauge keeps it, a call of the
    strategy that returns moves it to the next index. *)
Variable Inv : nat -> Platform -> Prop.
Hypothesis Inv_now : forall k p, Inv k p -> Inv k (snd (performanceNow p)).
Hypothesis Inv_heap : forall k p, Inv k p -> Inv k (snd (getMemoryUsage p)).
Hypothesis Inv_call : forall k p x v p',
  Inv k p -> fn x p = (Returned v, p') -> Inv (S k) p'.

Lemma invoke_traced k size s o s' :
  Inv k (platform s) -> invoke fn size s = (o, s') ->
  journal s' = journal s ++ [Called size o]
  /\ (forall v, o = Returned v -> Inv (S k) (platform s'))
  /\ fst (fn size (platform s)) = o.
Proof.
  intros Hinv. unfold invoke.
  pose proof (Inv_call k (platform s) size) as Hnext.
  destruct (fn size (platform s)) as [o1 p']. intros [= <- <-].
  split; [reflexivity|]. split; [|reflexivity].
  intros v ->. apply (Hnext v p' Hinv eq_refl).
Qed.

Lemma Traced_nil k : Traced fn Inv k [].
Proof. intros j x o H. discriminate H. Qed.

Lemma Traced_call k size o p X :
  Inv k p -> fst (fn size p) = o -> Traced fn Inv (S k) X ->
  Traced fn Inv k (Called size o :: X).
Proof.
  intros Hp Ho HX [|j] x c; cbn.
  - intros [= <- <-]. exists p. rewrite Nat.add_0_r. auto.
  - intros Hj. destruct (HX j x c Hj) as (q & Hq & Hc). exists q.
    replace (k + S j)%nat with (S k + j)%nat by lia. auto.
Qed.

Lemma Traced_last k size o p :
  Inv k p -> fst (fn size p) = o -> Traced fn Inv k [Called size o].
Proof.
  intros Hp Ho [|j] x c; cbn; [|discriminate].
  intros [= <- <-]. exists p. rewrite Nat.add_0_r. auto.
Qed.

Lemma Traced_app k X Y :
  Traced fn Inv k X -> Traced fn Inv (k + length (callsOf X)) Y ->
  Traced fn Inv k (X ++ Y).
Proof.
  intros HX HY j x o. rewrite callsOf_app. intros Hj.
  apply lookup_app_Some in Hj. destruct Hj as [Hj|[Hlen Hj]].
  - apply HX. exact Hj.
  - destruct (HY _ x o Hj) as (q & Hq & Hc). exists q.
    replace (k + j)%nat
      with (k + length (callsOf X) + (j - length (callsOf X)))%nat by lia.
    auto.
Qed.

Lemma Traced_silent k X : callsOf X = [] -> Traced fn Inv k X.
Proof. intros H j x o. rewrite H. intros Hj. discriminate Hj. Qed.

Lemma forceGc_journal count s :
  exists c, forceGc flags count s
            = (Returned tt,
               {| platform := platform s;
                  journal := journal s ++ replicate c GcForced |}).
Proof.
  assert (forall count s, repeatNote count GcForced s
            = (Returned tt,
               {| platform := platform s;
                  journal := journal s ++ replicate count GcForced |}))
    as Hrepeat.
  { clear. induction count as [|count IH]; intros s.
    - cbn. rewrite app_nil_r. destruct s; reflexivity.
    - cbn [repeatNote]. unfold bind, note. rewrite IH. cbn.
      rewrite <- app_assoc. reflexivity. }
  unfold forceGc. destruct (gcExposed (platform s) && negb (isDevelopment flags)).
  - exists count. apply Hrepeat.
  - exists 0%nat. cbn. rewrite app_nil_r. destruct s; reflexivity.
Qed.

Lemma liftP_now s :
  exists t, liftP performanceNow s
            = (Returned t,
               {| platform := snd (performanceNow (platform s));
                  journal := journal s |}).
Proof. eexists. reflexivity. Qed.

Lemma liftP_heap s :
  exists t, liftP getMemoryUsage s
            = (Returned t,
               {| platform := snd (getMemoryUsage (platform s));
                  journal := journal s |}).
Proof. eexists. reflexivity. Qed.

(** A call that did not return ends the loop it is in. *)
Lemma stopped_call (plan : list num) k size (c : Outcome value) p G :
  Inv k p -> fst (fn size p) = c -> fate c <> Returned tt ->
  callsOf G = [] ->
  Traced fn Inv k (G ++ [Called size c])
  /\ Follows (size :: plan) (fate c) (callsOf (G ++ [Called size c])).
Proof.
  intros Hinv Hc Hfate HG. split.
  - apply Traced_app; [apply Traced_silent, HG|].
    rewrite HG, Nat.add_0_r. eapply Traced_last; eassumption.
  - rewrite callsOf_app, HG, callsOf_called. cbn [app].
    change (callsOf []) with (@nil (num * Outcome value)).
    apply Follows_stop. exact Hfate.
Qed.

Lemma warmup_traced size runs : forall k s o s',
  Inv k (platform s) -> warmup runs fn size s = (o, s') ->
  exists X, journal s' = journal s ++ X /\ Traced fn Inv k X
    /\ (forall u, o = Returned u ->
          Inv (k + length (callsOf X)) (platform s'))
    /\ timesOf X = []
    /\ Follows (replicate runs size) (fate o) (callsOf X).
Proof.
  induction runs as [|runs IH]; intros k s o s' Hinv Hrun.
  - injection Hrun as <- <-. exists []. rewrite app_nil_r, Nat.add_0_r.
    split; [reflexivity|]. split; [apply Traced_nil|].
    split; [intros; assumption|]. split; [reflexivity|].
    split; [reflexivity|constructor].
  - cbn [warmup] in Hrun. unfold bind in Hrun.
    destruct (invoke fn size s) as [o1 s1] eqn:Hcall.
    destruct (invoke_traced _ _ _ _ _ Hinv Hcall) as (Hj1 & Hinv1 & Ho1).
    destruct o1 as [v|m| |].
    + specialize (Hinv1 v eq_refl).
      destruct (IH _ _ _ _ Hinv1 Hrun) as (X2 & Hj2 & Htr2 & Hinv2 & Ht2 & Hf2).
      exists (Called size (Returned v) :: X2).
      rewrite Hj2, Hj1, <- app_assoc. split; [reflexivity|].
      split; [eapply Traced_call; eassumption|].
      rewrite callsOf_called. cbn [length].
      split; [intros u Hu;
              replace (k + S (length (callsOf X2)))%nat
                with (S k + length (callsOf X2))%nat by lia;
              exact (Hinv2 u Hu)|].
      split; [exact Ht2|]. apply Follows_cons. exact Hf2.
    + injection Hrun as <- <-. exists ([] ++ [Called size (Thrown m)]).
      split; [exact Hj1|].
      assert (fate (Thrown m : Outcome value) <> Returned tt) as Hne
        by (cbn; discriminate).
      destruct (stopped_call (replicate runs size) k size _ _ []
                  Hinv Ho1 Hne eq_refl) as [Ht Hf].
      split; [exact Ht|]. split; [intros u Hu; discriminate Hu|].
      split; [reflexivity|exact Hf].
    + injection Hrun as <- <-. exists ([] ++ [Called size Pending]).
      split; [exact Hj1|].
      assert (fate (Pending : Outcome value) <> Returned tt) as Hne
        by (cbn; discriminate).
      destruct (stopped_call (replicate runs size) k size _ _ []
                  Hinv Ho1 Hne eq_refl) as [Ht Hf].
      split; [exact Ht|]. split; [intros u Hu; discriminate Hu|].
      split; [reflexivity|exact Hf].
    + injection Hrun as <- <-. exists ([] ++ [Called size Unmodelled]).
      split; [exact Hj1|].
      assert (fate (Unmodelled : Outcome value) <> Returned tt) as Hne
        by (cbn; discriminate).
      destruct (stopped_call (replicate runs size) k size _ _ []
                  Hinv Ho1 Hne eq_refl) as [Ht Hf].
      split; [exact Ht|]. split; [intros u Hu; discriminate Hu|].
      split; [reflexivity|exact Hf].
Qed.

Lemma measure_traced n runs : forall times final k s o s',
  Inv k (platform s) ->
  measure runs flags fn n times final s = (o, s') ->
  exists X, journal s' = journal s ++ X /\ Traced fn Inv k X
    /\ Follows (replicate runs n) (fate o) (callsOf X)
    /\ (forall r, o = Returned r ->
          Inv (k + length (callsOf X)) (platform s')
          /\ fst r = times ++ timesOf X
          /\ length (timesOf X) = runs
          /\ snd r = default final (last (answersOf X))).
Proof.
  induction runs as [|runs IH]; intros times final k s o s' Hinv Hrun.
  - injection Hrun as <- <-. exists []. rewrite !app_nil_r, Nat.add_0_r. cbn.
    split; [reflexivity|]. split; [apply Traced_nil|].
    split; [split; [reflexivity|constructor]|].
    intros r [= <-]. cbn. rewrite ?app_nil_r. repeat split. exact Hinv.
  - cbn [measure] in Hrun. unfold bind at 1 in Hrun.
    destruct (forceGc_journal 2 s) as [c Hgc]. rewrite Hgc in Hrun.
    unfold bind at 1 in Hrun.
    match type of Hrun with
    | context [liftP performanceNow ?s0] =>
        destruct (liftP_now s0) as [start Hnow]; rewrite Hnow in Hrun
    end.
    cbn [platform journal] in Hrun. unfold bind at 1 in Hrun.
    match type of Hrun with
    | context [invoke fn n ?s1] =>
        destruct (invoke fn n s1) as [o1 s2] eqn:Hcall;
        destruct (invoke_traced k n s1 _ _ (Inv_now k (platform s) Hinv) Hcall)
          as (Hj1 & Hinv1 & Ho1)
    end.
    cbn [platform journal] in Hj1, Ho1. rewrite <- app_assoc in Hj1.
    pose proof (Inv_now k (platform s) Hinv) as Hinv0.
    destruct o1 as [v|m| |].
    + specialize (Hinv1 v eq_refl). unfold bind at 1 in Hrun.
      destruct (liftP_now s2) as [end_ Hend]. rewrite Hend in Hrun.
      unfold bind at 1, note at 1 in Hrun. cbn [platform journal] in Hrun.
      apply IH with (k := S k) in Hrun; [|exact (Inv_now _ _ Hinv1)].
      destruct Hrun as (X2 & Hj2 & Htr2 & Hf2 & Hok2).
      cbn [platform journal] in Hj2.
      exists (replicate c GcForced ++ Called n (Returned v)
                :: Timed (Double.sub end_ start) :: X2).
      split.
      { rewrite Hj2, Hj1, <- !app_assoc. reflexivity. }
      split.
      { apply Traced_app; [apply Traced_silent, callsOf_gc|].
        rewrite callsOf_gc, Nat.add_0_r.
        eapply Traced_call; [exact Hinv0|exact Ho1|].
        intros j x o0 Hj. apply Htr2. exact Hj. }
      rewrite callsOf_app, callsOf_gc, callsOf_called. cbn [app length].
      change (callsOf (Timed (Double.sub end_ start) :: X2))
        with (callsOf X2).
      split; [apply Follows_cons; exact Hf2|].
      intros r Hr. destruct (Hok2 r Hr) as (Hinv2 & Ht & Hlt & Hlast).
      split.
      { replace (k + S (length (callsOf X2)))%nat
          with (S k + length (callsOf X2))%nat by lia. exact Hinv2. }
      rewrite timesOf_app, timesOf_gc. cbn [app].
      change (timesOf (Called n (Returned v)
                         :: Timed (Double.sub end_ start) :: X2))
        with (Double.sub end_ start :: timesOf X2).
      rewrite Ht, <- app_assoc. cbn [length app]. rewrite Hlt.
      repeat split. rewrite Hlast.
      unfold answersOf. rewrite callsOf_app, callsOf_gc, callsOf_called.
      cbn [app omap list_omap snd].
      change (callsOf (Timed (Double.sub end_ start) :: X2))
        with (callsOf X2).
      fold (answersOf X2). rewrite last_cons.
      destruct (last (answersOf X2)); reflexivity.
    + injection Hrun as <- <-.
      exists (replicate c GcForced ++ [Called n (Thrown m)]).
      split; [exact Hj1|].
      assert (fate (Thrown m : Outcome value) <> Returned tt) as Hne
        by (cbn; discriminate).
      destruct (stopped_call (replicate runs n) k n _ _
                  (replicate c GcForced) Hinv0 Ho1 Hne (callsOf_gc c))
        as [Ht Hf].
      split; [exact Ht|]. split; [exact Hf|]. intros r Hr. discriminate Hr.
    + injection Hrun as <- <-.
      exists (replicate c GcForced ++ [Called n Pending]).
      split; [exact Hj1|].
      assert (fate (Pending : Outcome value) <> Returned tt) as Hne
        by (cbn; discriminate).
      destruct (stopped_call (replicate runs n) k n _ _
                  (replicate c GcForced) Hinv0 Ho1 Hne (callsOf_gc c))
        as [Ht Hf].
      split; [exact Ht|]. split; [exact Hf|]. intros r Hr. discriminate Hr.
    + injection Hrun as <- <-.
      exists (replicate c GcForced ++ [Called n Unmodelled]).
      split; [exact Hj1|].
      assert (fate (Unmodelled : Outcome value) <> Returned tt) as Hne
        by (cbn; discriminate).
      destruct (stopped_call (replicate runs n) k n _ _
                  (replicate c GcForced) Hinv0 Ho1 Hne (callsOf_gc c))
        as [Ht Hf].
      split; [exact Ht|]. split; [exact Hf|]. intros r Hr. discriminate Hr.
Qed.

Lemma measuredRun_traced label n k s o s' :
  Inv k (platform s) ->
  measuredRun flags label fn n s = (o, s') ->
  exists X, journal s' = journal s ++ X /\ Traced fn Inv k X
    /\ Follows (invocationSizes flags n) (fate o) (callsOf X)
    /\ (forall r, o = Returned r ->
          Protocol flags n X r /\ name r = label
          /\ Inv (k + length (callsOf X)) (platform s')).
Proof.
  intros Hinv Hrun. unfold measuredRun in Hrun. unfold bind at 1 in Hrun.
  match type of Hrun with
  | context [match ?warm s with _ => _ end] =>
      destruct (warm s) as [o1 s1] eqn:H1
  end.
  assert (exists X, journal s1 = journal s ++ X /\ Traced fn Inv k X
            /\ (forall u, o1 = Returned u ->
                  Inv (k + length (callsOf X)) (platform s1))
            /\ timesOf X = []
            /\ Follows (if isDevelopment flags then []
                        else replicate (warmupRuns config) (warmupSize n))
                 (fate o1) (callsOf X))
    as (X1 & Hj1 & Htr1 & Hinv1 & Ht1 & Hf1).
  { destruct (isDevelopment flags); cbn [negb] in H1.
    - injection H1 as <- <-. exists []. rewrite app_nil_r, Nat.add_0_r.
      split; [reflexivity|]. split; [apply Traced_nil|].
      split; [intros; assumption|]. split; [reflexivity|].
      split; [reflexivity|constructor].
    - apply (warmup_traced _ _ _ _ _ _ Hinv H1). }
  clear H1. unfold invocationSizes.
  destruct o1 as [[]|m| |];
    try (injection Hrun as <- <-; exists X1;
         split; [exact Hj1|]; split; [exact Htr1|];
         split; [apply Follows_more; [discriminate|exact Hf1]|];
         intros r Hr; discriminate Hr).
  specialize (Hinv1 tt eq_refl).
  unfold bind at 1 in Hrun.
  destruct (liftP_heap s1) as [memoryBefore Hbefore]. rewrite Hbefore in Hrun.
  unfold bind at 1 in Hrun.
  match type of Hrun with
  | context [measure ?runs flags fn n ?ts ?v ?s2] =>
      destruct (measure runs flags fn n ts v s2) as [o2 s3] eqn:H2;
      destruct (measure_traced n runs ts v (k + length (callsOf X1)) s2 o2 s3
                  (Inv_heap _ _ Hinv1) H2)
        as (X2 & Hj2 & Htr2 & Hf2 & Hok2)
  end.
  cbn [journal] in Hj2.
  assert (journal s3 = journal s ++ X1 ++ X2) as Hj
    by (rewrite Hj2, Hj1, <- app_assoc; reflexivity).
  assert (Traced fn Inv k (X1 ++ X2)) as Htr
    by (apply Traced_app; assumption).
  assert (Follows ((if isDevelopment flags then []
                    else replicate (warmupRuns config) (warmupSize n))
                   ++ replicate (testRuns config) n)
            (fate o2) (callsOf (X1 ++ X2))) as Hf
    by (rewrite callsOf_app; apply Follows_app; assumption).
  destruct o2 as [measured|m| |];
    try (injection Hrun as <- <-; exists (X1 ++ X2);
         split; [exact Hj|]; split; [exact Htr|];
         split; [exact Hf|]; intros r Hr; discriminate Hr).
  destruct (Hok2 measured eq_refl) as (Hinv2 & Ht & Hlt & Hlast).
  cbn [app] in Ht.
  unfold bind at 1 in Hrun.
  destruct (liftP_heap s3) as [memoryAfter Hafter]. rewrite Hafter in Hrun.
  unfold bind at 1 in Hrun.
  destruct (fst measured) as [|first rest] eqn:Htimes.
  { rewrite <- Ht in Hlt. discriminate Hlt. }
  cbn [reduceSum ret] in Hrun. injection Hrun as <- <-.
  exists (X1 ++ X2). cbn [journal platform].
  split; [exact Hj|]. split; [exact Htr|]. split; [exact Hf|].
  intros r [= <-]. split; [|split; [reflexivity|]].
  2:{ rewrite callsOf_app, length_app, Nat.add_assoc.
      exact (Inv_heap _ _ Hinv2). }
  unfold Protocol. cbn [time opsPerSecond result error].
  rewrite timesOf_app, Ht1, answersOf_app. cbn [app].
  repeat split.
  - exact Hlt.
  - rewrite <- Ht. reflexivity.
  - rewrite last_app, Hlast.
    destruct Hf2 as [Hs2 Hall2].
    pose proof (answersOf_returned _ Hall2) as Hlen.
    apply (f_equal length) in Hs2.
    rewrite length_map, length_replicate in Hs2. rewrite Hs2 in Hlen.
    destruct (answersOf X2) as [|a l]; [discriminate Hlen|].
    destruct (last (a :: l)) eqn:Hl; [reflexivity|].
    apply last_None in Hl. discriminate Hl.
Qed.

(** The runner never throws.  Its record is that of a complete run when
    every call returned, and the failure record with the strategy's
    message when a call threw. *)
Lemma runBenchmark_traced label n k s o s' :
  Inv k (platform s) ->
  runBenchmark flags label fn n s = (o, s') ->
  exists X, journal s' = journal s ++ X /\ Traced fn Inv k X
    /\ match o with
       | Returned r =>
           (Follows (invocationSizes flags n) (Returned tt) (callsOf X)
            /\ Protocol flags n X r /\ name r = label
            /\ Inv (k + length (callsOf X)) (platform s'))
           \/ (exists m,
                 Follows (invocationSizes flags n) (Thrown m) (callsOf X)
                 /\ r = failure label m)
       | Thrown _ => False
       | Pending => Follows (invocationSizes flags n) Pending (callsOf X)
       | Unmodelled =>
           Follows (invocationSizes flags n) Unmodelled (callsOf X)
       end.
Proof.
  intros Hinv Hrun. unfold runBenchmark, tryCatch in Hrun.
  destruct (measuredRun flags label fn n s) as [ob sb] eqn:Hbody.
  destruct (measuredRun_traced _ _ _ _ _ _ Hinv Hbody)
    as (X & Hj & Htr & Hf & Hok).
  exists X. destruct ob as [r|m| |]; injection Hrun as <- <-;
    (split; [exact Hj|]); (split; [exact Htr|]); try exact Hf.
  - left. split; [exact Hf|]. apply Hok. reflexivity.
  - right. exists m. split; [exact Hf|reflexivity].
Qed.

End Runner.

(** ** What the elapsed times measure *)

Section Timing.

Variable flags : Flags.
Variable fn : Strategy.

Lemma measure_measured n runs : forall times final s r s',
  measure runs flags fn n times final s = (Returned r, s') ->
  exists X, journal s' = journal s ++ X
    /\ Forall2 (Measured fn n) (answersOf X) (timesOf X).
Proof.
  induction runs as [|runs IH]; intros times final s r s' Hrun.
  - injection Hrun as _ <-. exists []. rewrite app_nil_r.
    split; [reflexivity|constructor].
  - cbn [measure] in Hrun. unfold bind at 1 in Hrun.
    destruct (forceGc_journal flags 2 s) as [c Hgc]. rewrite Hgc in Hrun.
    unfold bind at 1, liftP at 1, performanceNow at 1 in Hrun.
    cbn [platform journal] in Hrun.
    unfold bind at 1, invoke at 1 in Hrun. cbn [platform journal] in Hrun.
    destruct (fn n (snd (performanceNow (platform s)))) as [o p2] eqn:Hcall.
    unfold performanceNow at 1 in Hcall. cbn [snd] in Hcall.
    rewrite Hcall in Hrun.
    destruct o as [v|m| |]; try discriminate Hrun.
    unfold bind at 1, liftP at 1, performanceNow at 1 in Hrun.
    cbn [platform journal] in Hrun.
    unfold bind at 1, note at 1 in Hrun. cbn [platform journal] in Hrun.
    apply IH in Hrun. destruct Hrun as (X & Hj & Hall).
    cbn [journal] in Hj.
    match type of Hj with
    | context [Timed ?t] =>
        exists (replicate c GcForced
                  ++ Called n (Returned v) :: Timed t :: X)
    end.
    split; [rewrite Hj, <- !app_assoc; reflexivity|].
    rewrite answersOf_app, timesOf_app, timesOf_gc.
    unfold answersOf at 1. rewrite callsOf_gc. cbn [omap list_omap app].
    constructor; [|exact Hall].
    exists (platform s), p2. split; [exact Hcall|reflexivity].
Qed.

Lemma warmup_answers size runs s s' :
  warmup runs fn size s = (Returned tt, s') ->
  exists X, journal s' = journal s ++ X
    /\ timesOf X = [] /\ length (answersOf X) = runs.
Proof.
  intros Hrun.
  destruct (warmup_traced fn anyPlatform (fun _ _ _ _ _ _ _ => I)
              size runs 0%nat s _ s' I Hrun)
    as (X & Hj & _ & _ & Ht & [Hsizes Hall]).
  exists X. split; [exact Hj|]. split; [exact Ht|].
  rewrite (answersOf_returned X Hall).
  apply (f_equal length) in Hsizes.
  rewrite length_map, length_replicate in Hsizes. exact Hsizes.
Qed.

(** A run that returned a record without error measured each of its
    elapsed times around one of the calls after the warm-up. *)
Lemma runBenchmark_measured label n s r s' :
  runBenchmark flags label fn n s = (Returned r, s') -> error r = None ->
  exists X warm answers,
    journal s' = journal s ++ X
    /\ answersOf X = warm ++ answers
    /\ length warm = (if isDevelopment flags then 0%nat else 3%nat)
    /\ Forall2 (Measured fn n) answers (timesOf X).
Proof.
  intros Hrun Herr. unfold runBenchmark, tryCatch in Hrun.
  destruct (measuredRun flags label fn n s) as [[r0|m| |] s0] eqn:Hbody;
    try discriminate Hrun.
  2:{ injection Hrun as <- _. discriminate Herr. }
  injection Hrun as -> ->. clear Herr.
  unfold measuredRun in Hbody. unfold bind at 1 in Hbody.
  match type of Hbody with
  | context [match ?warm s with _ => _ end] =>
      destruct (warm s) as [[[]|m| |] s1] eqn:Hwarm; try discriminate Hbody
  end.
  assert (exists X1, journal s1 = journal s ++ X1 /\ timesOf X1 = []
            /\ length (answersOf X1)
               = (if isDevelopment flags then 0%nat else 3%nat))
    as (X1 & Hj1 & Ht1 & Hl1).
  { destruct (isDevelopment flags); cbn [negb] in Hwarm.
    - injection Hwarm as <-. exists []. rewrite app_nil_r. auto.
    - apply warmup_answers in Hwarm. exact Hwarm. }
  unfold bind at 1, liftP at 1, getMemoryUsage at 1 in Hbody.
  cbn [platform journal] in Hbody. unfold bind at 1 in Hbody.
  match type of Hbody with
  | context [measure ?k flags fn n ?ts ?v ?st] =>
      destruct (measure k flags fn n ts v st) as [[measured|m| |] s2] eqn:Hm;
        try discriminate Hbody
  end.
  apply measure_measured in Hm. destruct Hm as (X2 & Hj2 & Hall).
  cbn [journal] in Hj2.
  unfold bind at 1, liftP at 1, getMemoryUsage at 1 in Hbody.
  cbn [platform journal] in Hbody. unfold bind at 1 in Hbody.
  destruct (fst measured) as [|first rest]; [discriminate Hbody|].
  cbn [reduceSum ret] in Hbody. injection Hbody as _ <-. cbn [journal].
  exists (X1 ++ X2), (answersOf X1), (answersOf X2).
  split; [rewrite Hj2, Hj1, <- app_assoc; reflexivity|].
  split; [apply answersOf_app|]. split; [exact Hl1|].
  rewrite timesOf_app, Ht1. exact Hall.
Qed.

End Timing.

(** ** What the calls decide *)

Section Calls.

Lemma Follows_sizes plan o calls j x c :
  Follows plan o calls -> calls !! j = Some (x, c) -> plan !! j = Some x.
Proof.
  intros Hf Hj.
  assert (map fst calls !! j = Some x) as Hx.
  { change map with (@fmap list _). rewrite list_lookup_fmap, Hj. reflexivity. }
  destruct o as [[]|m| |]; cbn in Hf;
    [destruct Hf as [<- _]; exact Hx|..];
    destruct Hf as (done & y & c' & _ & _ & _ & Hs & _);
    rewrite Hs in Hx; apply lookup_take_Some in Hx; apply Hx.
Qed.

Lemma Follows_returned plan o calls :
  Follows plan o calls -> Forall returned calls -> o = Returned tt.
Proof.
  intros Hf Hall. destruct o as [[]|m| |]; [reflexivity|..];
    destruct Hf as (done & y & c & -> & Hc & _);
    apply Forall_app in Hall; destruct Hall as [_ Hlast];
    apply Forall_cons_1 in Hlast; destruct Hlast as [Hlast _];
    unfold returned in Hlast; cbn in Hlast; congruence.
Qed.

(** The run ends as its first call that does not return. *)
Lemma Follows_first (par : nat -> num -> Outcome value) plan o calls k xk :
  Follows plan o calls ->
  (forall j x c, calls !! j = Some (x, c) -> c = par j x) ->
  plan !! k = Some xk -> fate (par k xk) <> Returned tt ->
  (forall j x, (j < k)%nat -> plan !! j = Some x ->
               fate (par j x) = Returned tt) ->
  o = fate (par k xk).
Proof.
  intros Hf Hpar Hk Hbad Hgood.
  assert (forall j x c, calls !! j = Some (x, c) -> returned (x, c) ->
            j <> k) as Hnot.
  { intros j x c Hj Hr ->. pose proof (Follows_sizes _ _ _ _ _ _ Hf Hj) as Hx.
    rewrite Hk in Hx. injection Hx as <-. apply Hpar in Hj. subst c.
    apply Hbad. exact Hr. }
  assert (o = Returned tt
          \/ exists done y c,
               calls = done ++ [(y, c)] /\ fate c = o /\ Forall returned done
               /\ o <> Returned tt)
    as [->|(done & y & c & Hcalls & Hc & Hdone & Hne)].
  { destruct o as [[]|m| |]; [left; reflexivity|right..];
      destruct Hf as (done & y & c & H1 & H2 & H3 & _);
      exists done, y, c; repeat split; try assumption; discriminate. }
  - destruct Hf as [Hs Hall]. exfalso.
    assert (is_Some (calls !! k)) as [[x c] Hc].
    { apply lookup_lt_is_Some. rewrite <- (length_map fst), Hs.
      eapply lookup_lt_Some. exact Hk. }
    apply (Hnot k x c Hc); [|reflexivity].
    eapply Forall_lookup_1; eassumption.
  - assert (calls !! length done = Some (y, c)) as Hlast.
    { rewrite Hcalls. apply list_lookup_middle. reflexivity. }
    pose proof (Follows_sizes _ _ _ _ _ _ Hf Hlast) as Hy.
    pose proof (Hpar _ _ _ Hlast) as Hcy.
    destruct (lt_eq_lt_dec (length done) k) as [[Hlt|Heq]|Hgt].
    + rewrite Hcy, (Hgood _ _ Hlt Hy) in Hc. congruence.
    + rewrite Heq, Hk in Hy. injection Hy as <-. rewrite <- Hc, Hcy, Heq.
      reflexivity.
    + exfalso. destruct (lookup_lt_is_Some_2 done k Hgt) as [[x c'] Hc'].
      apply (Hnot k x c'); [|eapply Forall_lookup_1; eassumption|reflexivity].
      rewrite Hcalls. apply lookup_app_l_Some. exact Hc'.
Qed.

(** A run that did not complete stopped at a call that ended as the run. *)
Lemma Follows_blame plan o calls :
  Follows plan o calls -> o <> Returned tt ->
  exists j x c, calls !! j = Some (x, c) /\ fate c = o
                /\ length calls = S j
                /\ forall i y d, (i < j)%nat -> calls !! i = Some (y, d) ->
                                 returned (y, d).
Proof.
  intros Hf Ho.
  assert (exists done x c, calls = done ++ [(x, c)] /\ fate c = o
                           /\ Forall returned done)
    as (done & x & c & -> & Hc & Hdone).
  { destruct o as [[]|m| |]; [congruence|..];
      destruct Hf as (done & x & c & H1 & H2 & H3 & _);
      exists done, x, c; repeat split; assumption. }
  exists (length done), x, c. split; [apply list_lookup_middle; reflexivity|].
  split; [exact Hc|]. split; [rewrite length_app; cbn; lia|].
  intros i y d Hi Hy.
  rewrite lookup_app_l in Hy by exact Hi.
  eapply Forall_lookup_1; eassumption.
Qed.

(** Without an invariant: every recorded call is a call of the strategy
    on some platform. *)
Lemma runBenchmark_calls flags fn label n s o s' :
  runBenchmark flags label fn n s = (o, s') ->
  (forall j x c, callsOf (appended s s') !! j = Some (x, c) ->
                 exists p, fst (fn x p) = c)
  /\ match o with
     | Returned r =>
         (Follows (invocationSizes flags n) (Returned tt)
            (callsOf (appended s s'))
          /\ Protocol flags n (appended s s') r /\ name r = label)
         \/ (exists m,
               Follows (invocationSizes flags n) (Thrown m)
                 (callsOf (appended s s'))
               /\ r = failure label m)
     | Thrown _ => False
     | Pending =>
         Follows (invocationSizes flags n) Pending (callsOf (appended s s'))
     | Unmodelled =>
         Follows (invocationSizes flags n) Unmodelled
           (callsOf (appended s s'))
     end.
Proof.
  intros Hrun.
  destruct (runBenchmark_traced flags fn anyPlatform
              (fun _ _ _ => I) (fun _ _ _ => I) (fun _ _ _ _ _ _ _ => I)
              label n 0%nat s o s' I Hrun) as (X & Hj & Htr & Ho).
  rewrite (appended_app _ _ _ Hj). split.
  - intros j x c Hc. destruct (Htr j x c Hc) as (p & _ & Hp). eauto.
  - destruct o as [r|m| |]; try exact Ho.
    destruct Ho as [(Hf & Hp & Hn & _)|Hfail]; [left|right]; auto.
Qed.


(** A strategy that returns on every size of the plan gets the record of
    a complete run. *)
Lemma runBenchmark_complete flags fn label n s :
  (forall x p, In x (invocationSizes flags n) -> Within false (fst (fn x p))) ->
  exists r s', runBenchmark flags label fn n s = (Returned r, s')
    /\ Follows (invocationSizes flags n) (Returned tt)
         (callsOf (appended s s'))
    /\ Protocol flags n (appended s s') r /\ name r = label
    /\ (forall j x c, callsOf (appended s s') !! j = Some (x, c) ->
                      exists p, fst (fn x p) = c).
Proof.
  intros Hreturns.
  destruct (runBenchmark flags label fn n s) as [o s'] eqn:Hrun.
  destruct (runBenchmark_calls _ _ _ _ _ _ _ Hrun) as [Hcalls Ho].
  assert (forall o', o' <> Returned tt ->
            Follows (invocationSizes flags n) o' (callsOf (appended s s')) ->
            False) as Hblame.
  { intros o' Hne Hf.
    destruct (Follows_blame _ _ _ Hf Hne) as (j & x & c & Hc & Hfate & _).
    destruct (Hcalls _ _ _ Hc) as (p & Hp).
    pose proof (Follows_sizes _ _ _ _ _ _ Hf Hc) as Hx.
    apply list_elem_of_lookup_2, list_elem_of_In in Hx.
    specialize (Hreturns x p Hx). rewrite Hp in Hreturns. subst o'.
    destruct c as [v|m| |]; cbn in *; try contradiction; try discriminate;
      congruence. }
  destruct o as [r|m| |].
  - destruct Ho as [(Hf & Hp & Hn)|(m & Hf & _)].
    + exists r, s'. auto.
    + exfalso. eapply Hblame; [|exact Hf]. discriminate.
  - contradiction.
  - exfalso. eapply Hblame; [|exact Ho]. discriminate.
  - exfalso. eapply Hblame; [|exact Ho]. discriminate.
Qed.

End Calls.

(** ** The benchmark loop of the suite *)

Section Suite.

Variable flags : Flags.
Variable testSize : Z.

(** One turn of the loop of [main]: the record of the entry is pushed,
    unless its strategy never settles or leaves the modelled domain. *)
Lemma runAll_step label fn rest results s :
  runAll flags ((label, fn) :: rest) testSize results s
  = match runBenchmark flags label fn (Measure.ofZ testSize) s with
    | (Returned r, s1) =>
        runAll flags rest testSize (results ++ [r])
          (snd (forceGc flags 1 s1))
    | (Thrown _, s1) => runAll flags rest testSize results s1
    | (Pending, s1) => (Pending, s1)
    | (Unmodelled, s1) => (Unmodelled, s1)
    end.
Proof.
  cbn [runAll]. unfold bind at 1, tryCatch, bind at 1.
  destruct (runBenchmark flags label fn (Measure.ofZ testSize) s)
    as [[r|m| |] s1]; try reflexivity.
  unfold bind at 1. destruct (forceGc_journal flags 1 s1) as [c ->].
  reflexivity.
Qed.

Lemma runAll_results entries : forall results s o s',
  runAll flags entries testSize results s = (o, s') ->
  match o with
  | Returned rs =>
      exists news, rs = results ++ news
        /\ Forall2 (fun entry r =>
                      exists s1 s2,
                        runBenchmark flags (fst entry) (snd entry)
                          (Measure.ofZ testSize) s1 = (Returned r, s2))
             entries news
  | Thrown _ => False
  | _ => True
  end.
Proof.
  induction entries as [|[label fn] rest IH]; intros results s o s' Hrun.
  - injection Hrun as <- <-. exists []. rewrite app_nil_r.
    split; [reflexivity|constructor].
  - rewrite runAll_step in Hrun.
    destruct (runBenchmark flags label fn (Measure.ofZ testSize) s)
      as [[r|m| |] s1] eqn:Hbench.
    + specialize (IH _ _ _ _ Hrun). destruct o as [rs|m| |]; try exact IH.
      destruct IH as (news & -> & Hall). exists (r :: news).
      rewrite <- app_assoc. split; [reflexivity|].
      constructor; [|exact Hall]. exists s, s1. exact Hbench.
    + destruct (runBenchmark_calls _ _ _ _ _ _ _ Hbench) as [_ []].
    + injection Hrun as <- <-. exact I.
    + injection Hrun as <- <-. exact I.
Qed.


End Suite.

(** ** Runner: results *)






(** ** The parallel strategy under the runner *)

Section ParallelRuns.

Variable p0 : Platform.

Lemma Aligned_now k p : Aligned p0 k p -> Aligned p0 k (snd (performanceNow p)).
Proof. intros H. exact H. Qed.

Lemma Aligned_heap k p : Aligned p0 k p -> Aligned p0 k (snd (getMemoryUsage p)).
Proof. intros H. exact H. Qed.

Lemma parallelWorkers_call k p x :
  Aligned p0 k p -> fst (parallelWorkers x p) = parallelCall p0 k x.
Proof.
  intros (Hcpu & Hev & Hruns). unfold parallelWorkers, parallelCall, onSize.
  destruct (asSize x) as [z|]; [|reflexivity].
  rewrite Hcpu, Hev, Hruns.
  destruct (parallelSum _ z _); reflexivity.
Qed.

Lemma Aligned_call k p x v p' :
  Aligned p0 k p -> parallelWorkers x p = (Returned v, p') ->
  Aligned p0 (S k) p'.
Proof.
  intros (Hcpu & Hev & Hruns). unfold parallelWorkers, onSize.
  destruct (asSize x) as [z|]; [|discriminate].
  destruct (parallelSum _ z _); intros [= <- <-].
  repeat split; cbn; try assumption. lia.
Qed.

(** Under the runner, the [j]-th call of the parallel strategy ends as
    [parallelCall] says. *)
Lemma runBenchmark_parallel flags label n s o s' :
  platform s = p0 ->
  runBenchmark flags label parallelWorkers n s = (o, s') ->
  (forall j x c, callsOf (appended s s') !! j = Some (x, c) ->
                 c = parallelCall p0 j x)
  /\ match o with
     | Returned r =>
         Follows (invocationSizes flags n) (Returned tt)
           (callsOf (appended s s'))
         \/ (exists m,
               Follows (invocationSizes flags n) (Thrown m)
                 (callsOf (appended s s'))
               /\ r = failure label m)
     | Thrown _ => False
     | Pending =>
         Follows (invocationSizes flags n) Pending (callsOf (appended s s'))
     | Unmodelled =>
         Follows (invocationSizes flags n) Unmodelled
           (callsOf (appended s s'))
     end.
Proof.
  intros Hs Hrun.
  assert (Aligned p0 0 (platform s)) as Hinv
    by (rewrite Hs; repeat split; lia).
  destruct (runBenchmark_traced flags parallelWorkers (Aligned p0)
              Aligned_now Aligned_heap Aligned_call
              label n 0%nat s o s' Hinv Hrun) as (X & Hj & Htr & Ho).
  rewrite (appended_app _ _ _ Hj). split.
  - intros j x c Hc. destruct (Htr j x c Hc) as (p & Hp & <-).
    apply parallelWorkers_call. exact Hp.
  - destruct o as [r|m| |]; try exact Ho.
    destruct Ho as [(Hf & _)|Hfail]; [left|right]; auto.
Qed.

End ParallelRuns.

(** C4: let the [k]-th call that [runBenchmark] makes to the parallel
    strategy be one in which a dispatched worker raises an error, runs
    into the 5-minute timeout or exits with a non-zero code, every worker
    of the calls before it having delivered.  Then that call of
    [parallelWorkers] throws, with the reason of a failed worker of that
    call, and [runBenchmark] returns the failure record: its error field
    is that reason, its time is [Infinity] and its result is the constant
    0, not a sum of the partial results that did arrive; unless the reason
    is the empty string, the report counts the record as failed. *)
Theorem worker_failure_fails_parallel_strategy
    flags label n s (k : nat) size z (i : nat) :
  let p0 := platform s in
  let units := Z.pos (cpuCount p0) in
  let events := fun j => workerEvents p0 (parallelRuns p0 + j)%nat in
  invocationSizes flags n !! k = Some size ->
  asSize size = Some z ->
  (i < length (workRanges units z))%nat ->
  workerFails (events k) i ->
  (forall j x, (j < k)%nat -> invocationSizes flags n !! j = Some x ->
     exists zj, asSize x = Some zj
       /\ forall w, (w < length (workRanges units zj))%nat ->
                    workerDelivers (events j) w) ->
  exists w e r s',
    In (w, e) (events k) /\ isFailure e = true
    /\ parallelSum units z (events k) = Thrown (failureReason e)
    /\ runBenchmark flags label parallelWorkers n s = (Returned r, s')
    /\ error r = Some (failureReason e)
    /\ time r = PosInf
    /\ result r = VNum 0
    /\ (failureReason e <> EmptyString -> hasError r = true).
Proof.
  intros p0 units events Hk Hsize Hi Hfail Hbefore.
  destruct (parallelSum_failure units z (events k) i Hi Hfail)
    as (w & e & Hin & Hf & Hthrown).
  assert (parallelCall p0 k size = Thrown (failureReason e)) as Hcall.
  { unfold parallelCall. rewrite Hsize. fold units. fold (events k).
    rewrite Hthrown. reflexivity. }
  assert (forall j x, (j < k)%nat -> invocationSizes flags n !! j = Some x ->
            fate (parallelCall p0 j x) = Returned tt) as Hgood.
  { intros j x Hj Hx. destruct (Hbefore j x Hj Hx) as (zj & Hzj & Hdeliver).
    unfold parallelCall. rewrite Hzj. fold units. fold (events j).
    unfold parallelSum. rewrite promiseAll_delivered; [reflexivity|].
    intros a wa Hwa. right. apply list_lookup_fmap_Some in Hwa.
    destruct Hwa as (r & -> & Hr). split; [reflexivity|].
    apply Hdeliver. eapply lookup_lt_Some. exact Hr. }
  destruct (runBenchmark flags label parallelWorkers n s) as [o s'] eqn:Hrun.
  destruct (runBenchmark_parallel p0 flags label n s o s' eq_refl Hrun)
    as [Hcalls Ho].
  assert (forall o',
            Follows (invocationSizes flags n) o' (callsOf (appended s s')) ->
            o' = Thrown (failureReason e)) as Hfate.
  { intros o' Hfollows.
    rewrite (Follows_first (parallelCall p0) _ _ _ k size Hfollows Hcalls Hk);
      rewrite ?Hcall; try reflexivity; [discriminate|exact Hgood]. }
  exists w, e.
  destruct o as [r|m| |].
  - exists r, s'. destruct Ho as [Hcomplete|(m & Hfollows & ->)].
    + apply Hfate in Hcomplete. discriminate Hcomplete.
    + apply Hfate in Hfollows. injection Hfollows as ->.
      repeat split; auto.
      intros Hne. unfold hasError. cbn [error failure].
      apply Bool.negb_true_iff, String.eqb_neq. exact Hne.
  - contradiction.
  - apply Hfate in Ho. discriminate Ho.
  - apply Hfate in Ho. discriminate Ho.
Qed.

Lemma worker_failure_fails_parallel_strategy_witness :
  exists r s',
    runBenchmark developmentFlags "Parallel Workers" parallelWorkers
      (Measure.ofZ 10) sampleState = (Returned r, s')
    /\ error r = Some "boom" /\ time r = PosInf /\ result r = VNum 0.
Proof.
  destruct (worker_failure_fails_parallel_strategy developmentFlags
              "Parallel Workers" (Measure.ofZ 10) sampleState 2
              (Measure.ofZ 10) 10 1)
    as (w & e & r & s' & Hin & Hf & Hsum & Hrun & Herr & Htime & Hres & _).
  - reflexivity.
  - reflexivity.
  - vm_compute. lia.
  - exists (ErrorEvent "boom"). split; reflexivity.
  - intros j x Hj Hx. exists 10.
    destruct j as [|[|j]]; [| |lia]; cbn in Hx; injection Hx as <-;
      (split; [reflexivity|]); intros a Ha; vm_compute in Ha;
      destruct a as [|[|[|[|a]]]]; try lia; reflexivity.
  - exists r, s'. split; [exact Hrun|]. split; [|auto].
    rewrite Herr. f_equal.
    cbn in Hin. destruct Hin as [[= <- <-]|[[= <- <-]|[[= <- <-]|[]]]];
      try discriminate Hf; try reflexivity.
    vm_compute in Hsum. discriminate Hsum.
Defined.

(** ** Measurements: order and ratios *)

Section MeasureFacts.

Lemma isNeg_lt q : Measure.isNeg q = true <-> (q < 0)%Q.
Proof.
  unfold Measure.isNeg, Qlt. cbn. rewrite Z.ltb_lt. lia.
Qed.

Lemma isZero_eq q : Measure.isZero q = true <-> (q == 0)%Q.
Proof.
  unfold Measure.isZero, Qeq. cbn. rewrite Z.eqb_eq. lia.
Qed.

Lemma ltb_fin a b : Measure.ltb (Fin a) (Fin b) = true <-> (a < b)%Q.
Proof.
  cbn. rewrite isNeg_lt, Qred_correct.
  split; intros H.
  - apply (Qplus_lt_l _ _ b) in H. ring_simplify in H. exact H.
  - apply (Qplus_lt_l _ _ b). ring_simplify. exact H.
Qed.

Lemma sub_fin a b : exists q, Measure.sub (Fin a) (Fin b) = Fin q /\ (q == a - b)%Q.
Proof.
  eexists. split; [reflexivity|]. rewrite !Qred_correct. reflexivity.
Qed.

(** The comparator is positive exactly when its first argument is the
    slower one. *)
Lemma isPositive_sub a b :
  Measure.isPositive (Measure.sub (Fin a) (Fin b)) = true <-> (b < a)%Q.
Proof.
  destruct (sub_fin a b) as (q & -> & Hq).
  unfold Measure.isPositive, Measure.zero, Measure.ofZ. rewrite ltb_fin, Hq.
  split; intros H.
  - apply (Qplus_lt_l _ _ b) in H. ring_simplify in H. exact H.
  - apply (Qplus_lt_l _ _ b). ring_simplify. exact H.
Qed.

Lemma div_self q : ~ (q == 0)%Q -> Measure.div (Fin q) (Fin q) = Fin 1.
Proof.
  intros Hq. cbn. destruct (Measure.isZero q) eqn:Hz.
  - apply isZero_eq in Hz. contradiction.
  - unfold Measure.fin. f_equal. change 1%Q with (Qred 1).
    apply Qred_complete. field. exact Hq.
Qed.

End MeasureFacts.

(** ** The sign of a difference of doubles *)

Section DifferenceSign.

(** A positive double is a whole multiple of the least one, 2^-1074. *)
Lemma double_grid q :
  (0 < q)%Q -> (Double.roundQ q == q)%Q ->
  exists k, (q == inject_Z k * 2 ^ (-1074))%Q.
Proof.
  intros Hq Hfix. unfold Double.roundQ in Hfix.
  set (e := Double.ulpExp q) in *.
  assert (-1074 <= e) as He by (unfold e, Double.ulpExp; lia).
  exists (Double.nearestEven (q / 2 ^ e) * 2 ^ (e + 1074)).
  rewrite <- Hfix at 1. rewrite inject_Z_mult, (pow2_Z (e + 1074)) by lia.
  rewrite <- Qmult_assoc, <- pow2_add.
  replace (e + 1074 + -1074) with e by lia. reflexivity.
Qed.

(** Two different positive doubles are apart by the least double at
    least. *)
Lemma doubles_apart a b :
  isDouble a -> isDouble b -> (b < a)%Q -> (2 ^ (-1074) <= a - b)%Q.
Proof.
  intros (Ha & Hfa & _) (Hb & Hfb & _) Hlt.
  destruct (double_grid a Ha Hfa) as [ka Hka].
  destruct (double_grid b Hb Hfb) as [kb Hkb].
  assert (a - b == inject_Z (ka - kb) * 2 ^ (-1074))%Q as Hdiff.
  { rewrite Hka, Hkb. unfold Z.sub. rewrite inject_Z_plus, inject_Z_opp. ring. }
  rewrite Hdiff.
  assert (0 < inject_Z (ka - kb) * 2 ^ (-1074))%Q as Hpos.
  { rewrite <- Hdiff. apply (Qplus_lt_l _ _ b). ring_simplify. exact Hlt. }
  assert (0 < ka - kb) as Hk.
  { destruct (Z_lt_le_dec 0 (ka - kb)) as [H|H]; [exact H|]. exfalso.
    apply (Qlt_irrefl 0). eapply Qlt_le_trans; [exact Hpos|].
    rewrite <- (Qmult_0_l (2 ^ (-1074))).
    apply Qmult_le_r; [apply pow2_pos|].
    change 0%Q with (inject_Z 0). rewrite <- Zle_Qle. exact H. }
  rewrite <- (Qmult_1_l (2 ^ (-1074))) at 1.
  apply Qmult_le_r; [apply pow2_pos|].
  change 1%Q with (inject_Z 1). rewrite <- Zle_Qle. lia.
Qed.

(** No positive double is below the least one. *)
Lemma double_least a : isDouble a -> (2 ^ (-1074) <= a)%Q.
Proof.
  intros (Ha & Hfa & _). destruct (double_grid a Ha Hfa) as [k Hk].
  rewrite Hk in Ha |- *.
  assert (0 < k) as Hpos.
  { destruct (Z_lt_le_dec 0 k) as [H|H]; [exact H|]. exfalso.
    apply (Qlt_irrefl 0). eapply Qlt_le_trans; [exact Ha|].
    rewrite <- (Qmult_0_l (2 ^ (-1074))).
    apply Qmult_le_r; [apply pow2_pos|].
    change 0%Q with (inject_Z 0). rewrite <- Zle_Qle. exact H. }
  rewrite <- (Qmult_1_l (2 ^ (-1074))) at 1.
  apply Qmult_le_r; [apply pow2_pos|].
  change 1%Q with (inject_Z 1). rewrite <- Zle_Qle. lia.
Qed.

(** The difference of two doubles that are not negative, rounded, has
    the sign of their exact difference: it is positive exactly when the
    first is the larger one. *)
Lemma sub_sign a b :
  (a == 0)%Q \/ isDouble a -> (b == 0)%Q \/ isDouble b ->
  Measure.isPositive (Double.sub (Fin a) (Fin b))
  = Measure.isPositive (Measure.sub (Fin a) (Fin b)).
Proof.
  intros Ha Hb.
  assert (0 <= b)%Q as Hb0.
  { destruct Hb as [Hb|Hb]; [rewrite Hb; apply Qle_refl|].
    apply Qlt_le_weak, Hb. }
  destruct (Measure.isPositive (Measure.sub (Fin a) (Fin b))) eqn:Hexact.
  - apply isPositive_sub in Hexact.
    assert (isDouble a) as Hda.
    { destruct Ha as [Ha|Ha]; [|exact Ha]. exfalso. rewrite Ha in Hexact.
      exact (Qlt_irrefl _ (Qle_lt_trans _ _ _ Hb0 Hexact)). }
    assert (2 ^ (-1074) <= a - b)%Q as Hapart.
    { destruct Hb as [Hb|Hb]; [|apply doubles_apart; assumption].
      rewrite Hb. unfold Qminus. rewrite Qplus_0_r. apply double_least, Hda. }
    assert (within (2 ^ (-1074)) a (Double.sub (Fin a) (Fin b)))
      as (q & -> & Hq & _).
    { unfold Double.sub. destruct (sub_fin a b) as (d & -> & Hd).
      apply round_within; [repeat split; vm_compute; reflexivity|exact Hda| |];
        rewrite Hd; [exact Hapart|].
      apply (Qplus_le_l _ _ b). ring_simplify.
      rewrite <- (Qplus_0_r a) at 1. apply Qplus_le_r. exact Hb0. }
    unfold Measure.isPositive, Measure.zero, Measure.ofZ. apply ltb_fin.
    eapply Qlt_le_trans; [|exact Hq]. apply pow2_pos.
  - apply Bool.not_true_iff_false. intros Hround.
    apply Bool.not_true_iff_false in Hexact. apply Hexact. clear Hexact.
    apply isPositive_sub. apply Qnot_le_lt. intros Hle.
    unfold Double.sub in Hround. destruct (sub_fin a b) as (d & Hsub & Hd).
    rewrite Hsub in Hround. unfold Double.round in Hround.
    assert (d <= 0)%Q as Hd0.
    { rewrite Hd. apply (Qplus_le_l _ _ b). ring_simplify. exact Hle. }
    destruct (Qcompare_spec d 0) as [H|H|H].
    + discriminate Hround.
    + destruct (Qle_bool (2 ^ 1024) (Double.roundQ (- d)));
        [discriminate Hround|].
      unfold Measure.isPositive, Measure.zero, Measure.ofZ, Measure.fin
        in Hround.
      apply ltb_fin in Hround. rewrite Qred_correct in Hround.
      assert (0 <= Double.roundQ (- d))%Q as Hnonneg.
      { apply roundQ_nonneg. apply (Qplus_lt_l _ _ d). ring_simplify. exact H. }
      apply (Qlt_irrefl 0). eapply Qlt_le_trans; [exact Hround|].
      apply (Qplus_le_l _ _ (Double.roundQ (- d))). ring_simplify.
      exact Hnonneg.
    + exact (Qlt_irrefl _ (Qlt_le_trans _ _ _ H Hd0)).
Qed.

(** On records whose times are doubles that are not negative the
    comparator has the sign of the difference the program computes. *)
Lemma byTime_sign x y a b :
  time x = Fin a -> time y = Fin b ->
  (a == 0)%Q \/ isDouble a -> (b == 0)%Q \/ isDouble b ->
  Measure.isPositive (Double.sub (time x) (time y))
  = Measure.isPositive (byTime x y).
Proof.
  intros Hx Hy Ha Hb. unfold byTime. rewrite Hx, Hy.
  apply sub_sign; assumption.
Qed.

End DifferenceSign.

(** ** Sorting by time *)

Section Sorting.

Lemma insertBy_perm cmp x l : Permutation (insertBy cmp x l) (x :: l).
Proof.
  induction l as [|y l IH]; cbn [insertBy]; [reflexivity|].
  destruct (Measure.isPositive (cmp x y)); [|reflexivity].
  rewrite IH. apply perm_swap.
Qed.

Lemma sortBy_perm cmp l : Permutation (sortBy cmp l) l.
Proof.
  unfold sortBy. induction l as [|x l IH]; cbn [fold_right]; [reflexivity|].
  rewrite insertBy_perm, IH. reflexivity.
Qed.

Lemma timeLe_fin a b qa qb :
  time a = Fin qa -> time b = Fin qb -> timeLe a b <-> (qa <= qb)%Q.
Proof.
  intros Ha Hb. unfold timeLe. rewrite Ha, Hb.
  rewrite <- Bool.not_true_iff_false, ltb_fin. split.
  - apply Qnot_lt_le.
  - apply Qle_not_lt.
Qed.

Lemma byTime_positive a b qa qb :
  time a = Fin qa -> time b = Fin qb ->
  Measure.isPositive (byTime a b) = true <-> (qb < qa)%Q.
Proof. intros Ha Hb. unfold byTime. rewrite Ha, Hb. apply isPositive_sub. Qed.

Lemma insertBy_sorted x l :
  finiteTime x -> Forall finiteTime l ->
  StronglySorted timeLe l -> StronglySorted timeLe (insertBy byTime x l).
Proof.
  intros [qx Hx] Hfin Hsorted.
  induction Hsorted as [|y l Hl IH Hy]; cbn [insertBy].
  - repeat constructor.
  - apply Forall_cons_1 in Hfin. destruct Hfin as [[qy Hqy] Hfin].
    destruct (Measure.isPositive (byTime x y)) eqn:Hcmp.
    + apply (byTime_positive x y qx qy Hx Hqy) in Hcmp.
      constructor; [apply IH; exact Hfin|].
      rewrite insertBy_perm. constructor; [|exact Hy].
      apply (timeLe_fin y x qy qx Hqy Hx). apply Qlt_le_weak. exact Hcmp.
    + assert (qx <= qy)%Q as Hle.
      { apply Qnot_lt_le. intros Hlt.
        apply (byTime_positive x y qx qy Hx Hqy) in Hlt. congruence. }
      constructor; [constructor; assumption|].
      constructor; [apply (timeLe_fin x y qx qy Hx Hqy); exact Hle|].
      rewrite Forall_forall in Hy, Hfin. apply Forall_forall.
      intros z Hz. destruct (Hfin z Hz) as [qz Hqz].
      apply (timeLe_fin x z qx qz Hx Hqz).
      apply Qle_trans with qy; [exact Hle|].
      apply (timeLe_fin y z qy qz Hqy Hqz). apply Hy. exact Hz.
Qed.

Lemma sortBy_sorted l :
  Forall finiteTime l -> StronglySorted timeLe (sortBy byTime l).
Proof.
  unfold sortBy. induction 1 as [|x l Hx Hl IH]; cbn [fold_right];
    [constructor|].
  apply insertBy_sorted; [exact Hx| |exact IH].
  fold (sortBy byTime l). rewrite sortBy_perm. exact Hl.
Qed.

Lemma entry_imap (f : nat -> BenchmarkResult -> RankingRow) l :
  (forall i r, entry (f i r) = r) -> map entry (imap f l) = l.
Proof.
  revert f. induction l as [|x l IH]; intros f Hf; cbn; [reflexivity|].
  rewrite Hf. f_equal. apply IH. intros i r. apply Hf.
Qed.

Lemma Forall_imap (P : RankingRow -> Prop)
    (f : nat -> BenchmarkResult -> RankingRow) l :
  (forall i r, P (f i r)) -> Forall P (imap f l).
Proof.
  revert f. induction l as [|x l IH]; intros f Hf; cbn; constructor.
  - apply Hf.
  - apply IH. intros i r. apply Hf.
Qed.

Lemma positiveTime_finite r : positiveTime r -> finiteTime r.
Proof. intros (q & Hq & _). exists q. exact Hq. Qed.

End Sorting.

(** ** The report *)

Section ReportFacts.

Lemma formatResults_none results :
  validOf results = [] -> formatResults results = NoSuccessfulBenchmarks.
Proof. intros H. unfold formatResults. rewrite H. reflexivity. Qed.

Lemma formatResults_ranked results :
  validOf results <> [] ->
  exists fastest rest,
    sortBy byTime (validOf results) = fastest :: rest
    /\ formatResults results
       = Ranked (imap (rankingRow fastest) (fastest :: rest))
           (failedOf results) fastest
           (bool_decide (size (uniqueResults (validOf results)) = 1%nat)).
Proof.
  intros Hne. unfold formatResults.
  destruct (validOf results) as [|v vs] eqn:Hvalid; [contradiction|].
  destruct (sortBy byTime (v :: vs)) as [|fastest rest] eqn:Hsort.
  - pose proof (sortBy_perm byTime (v :: vs)) as Hperm. rewrite Hsort in Hperm.
    apply Permutation_nil in Hperm. discriminate Hperm.
  - exists fastest, rest. split; reflexivity.
Qed.

Lemma validOf_idempotent results : validOf (validOf results) = validOf results.
Proof.
  unfold validOf. induction results as [|r results IH]; cbn; [reflexivity|].
  destruct (hasError r) eqn:Hr; cbn; [exact IH|]. rewrite Hr. cbn.
  rewrite IH. reflexivity.
Qed.

Lemma validOf_app results more :
  validOf (results ++ more) = validOf results ++ validOf more.
Proof. apply List.filter_app. Qed.

Lemma validOf_failed failed :
  Forall (fun r => hasError r = true) failed -> validOf failed = [].
Proof.
  unfold validOf. induction 1 as [|r failed Hr _ IH]; cbn; [reflexivity|].
  rewrite Hr. exact IH.
Qed.

Lemma verification_valid results :
  verification (formatResults results)
  = match validOf results with
    | [] => None
    | _ :: _ =>
        Some (bool_decide (size (uniqueResults (validOf results)) = 1%nat))
    end.
Proof.
  destruct (validOf results) as [|v vs] eqn:Hvalid.
  - rewrite formatResults_none by exact Hvalid. reflexivity.
  - destruct (formatResults_ranked results) as (fastest & rest & _ & ->);
      [rewrite Hvalid; discriminate|].
    rewrite Hvalid. reflexivity.
Qed.

Lemma uniqueResults_elem x l :
  x ∈ uniqueResults l <-> exists r, In r l /\ x = toString (result r).
Proof.
  unfold uniqueResults. rewrite elem_of_list_to_set, list_elem_of_In, in_map_iff.
  split; intros (r & H1 & H2); exists r; auto.
Qed.

End ReportFacts.

(** ** Ranking and verification: results *)

(** C6: for every list of records, the verification collects the strings
    of the results of the succeeded records, those whose error is not
    truthy, into a set, and reports a pass exactly when that set has one
    element, that is when there is a succeeded record and all succeeded
    records agree; with more than one element it reports a failure; with
    no succeeded record nothing is reported.  Failed records do not take
    part: adding or removing them leaves the verdict unchanged. *)
Theorem verification_by_unique_results (results : list BenchmarkResult) :
  let strings := uniqueResults (validOf results) in
  (forall x, x ∈ strings <->
     exists r, In r results /\ hasError r = false /\ x = toString (result r))
  /\ (verification (formatResults results) = Some true <-> size strings = 1%nat)
  /\ ((1 < size strings)%nat ->
      verification (formatResults results) = Some false)
  /\ (verification (formatResults results) = Some true <->
      validOf results <> []
      /\ forall a b, In a (validOf results) -> In b (validOf results) ->
                     toString (result a) = toString (result b))
  /\ (forall failed, Forall (fun r => hasError r = true) failed ->
        verification (formatResults (results ++ failed))
        = verification (formatResults results))
  /\ verification (formatResults (validOf results))
     = verification (formatResults results).
Proof.
  intros strings.
  assert (validOf results = [] -> size strings = 0%nat) as Hempty.
  { intros H. unfold strings. rewrite H. reflexivity. }
  assert (verification (formatResults results) = Some true
          <-> size strings = 1%nat) as Hpass.
  { rewrite verification_valid. fold strings.
    destruct (validOf results) as [|v vs] eqn:Hvalid.
    - rewrite Hempty by reflexivity. split; discriminate.
    - split.
      + intros [= H]. apply bool_decide_eq_true in H. exact H.
      + intros H. f_equal. apply bool_decide_eq_true. exact H. }
  split; [|split; [exact Hpass|split; [|split; [|split]]]].
  - intros x. unfold strings. rewrite uniqueResults_elem. unfold validOf.
    split.
    + intros (r & Hr & ->). apply filter_In in Hr. destruct Hr as [Hin Hok].
      exists r. rewrite Bool.negb_true_iff in Hok. auto.
    + intros (r & Hin & Hok & ->). exists r. split; [|reflexivity].
      apply filter_In. rewrite Hok. auto.
  - intros Hmany. rewrite verification_valid. fold strings.
    destruct (validOf results) as [|v vs] eqn:Hvalid.
    + rewrite Hempty in Hmany by reflexivity. lia.
    + f_equal. apply bool_decide_eq_false. lia.
  - rewrite Hpass. split.
    + intros Hone. split.
      * intros Hnil. rewrite (Hempty Hnil) in Hone. discriminate Hone.
      * intros a b Ha Hb.
        apply (size_singleton_inv strings); [exact Hone|..];
          apply uniqueResults_elem; eauto.
    + intros [Hne Hagree].
      assert (exists v, In v (validOf results)) as [v Hv].
      { destruct (validOf results) as [|v vs]; [contradiction|].
        exists v. left. reflexivity. }
      assert (strings ≡ {[ toString (result v) ]}) as Hsingle.
      { intros x. unfold strings. rewrite uniqueResults_elem.
        rewrite elem_of_singleton. split.
        - intros (r & Hr & ->). apply Hagree; assumption.
        - intros ->. exists v. split; [exact Hv|reflexivity]. }
      rewrite Hsingle. apply size_singleton.
  - intros failed Hfailed. rewrite !verification_valid, validOf_app.
    rewrite (validOf_failed failed Hfailed), app_nil_r. reflexivity.
  - rewrite !verification_valid, validOf_idempotent. reflexivity.
Qed.

Lemma verification_by_unique_results_witness :
  verification
    (formatResults [timed "A" 50; failure "D" "boom"; timed "B" 10])
  = Some true
  /\ verification
       (formatResults
          [timed "A" 50; failure "D" "boom";
           {| name := "E"; time := Measure.ofZ 7; result := VNum 0;
              memoryUsed := Measure.zero; opsPerSecond := Measure.zero;
              error := None |}])
     = Some false.
Proof.
  split.
  - apply (proj2 (proj1 (proj2
             (verification_by_unique_results
                [timed "A" 50; failure "D" "boom"; timed "B" 10])))).
    vm_compute. reflexivity.
  - apply (proj1 (proj2 (proj2
             (verification_by_unique_results
                [timed "A" 50; failure "D" "boom";
                 {| name := "E"; time := Measure.ofZ 7; result := VNum 0;
                    memoryUsed := Measure.zero; opsPerSecond := Measure.zero;
                    error := None |}])))).
    vm_compute. lia.
Defined.

(** C7 as stated does not hold: with mean times 50ms, 10ms and 100ms the
    rows come out in the order 10ms, 50ms, 100ms, but the speedup column
    reads 1.00x, 0.20x, 0.10x and not 1.00x, 5.00x, 10.00x. *)
Lemma ranking_speedups_not_multiples :
  exists rows failed winner verified,
    formatResults [timed "A" 50; timed "B" 10; timed "C" 100]
    = Ranked rows failed winner verified
    /\ map entry rows = [timed "B" 10; timed "A" 50; timed "C" 100]
    /\ map speedupStr rows = map (padStart 7) ["1.00x"; "0.20x"; "0.10x"]
    /\ map speedupStr rows <> map (padStart 7) ["1.00x"; "5.00x"; "10.00x"]
    /\ map speedup rows
       <> [Measure.ofZ 1; Measure.ofZ 5; Measure.ofZ 10].
Proof.
  eexists _, _, _, _. split; [vm_compute; reflexivity|].
  repeat split; try (vm_compute; reflexivity);
    vm_compute; intros Hc; discriminate Hc.
Qed.

(** C7: three succeeded records with mean times 50ms, 10ms and 100ms, in
    this order, are ranked in the order 10ms, 50ms, 100ms; the fastest is
    the 10ms one, and the speedups of the rows, each the time of the
    fastest divided by the time of the row, are 1 and the doubles nearest
    to 1/5 and to 1/10, printed as 1.00x, 0.20x and 0.10x in a column of
    width 7. *)
Theorem ranking_of_three (a b c : BenchmarkResult) :
  hasError a = false -> hasError b = false -> hasError c = false ->
  time a = Measure.ofZ 50 -> time b = Measure.ofZ 10 ->
  time c = Measure.ofZ 100 ->
  exists rows verified,
    formatResults [a; b; c] = Ranked rows [] b verified
    /\ map entry rows = [b; a; c]
    /\ map rank rows = [1; 2; 3]%nat
    /\ map speedup rows
       = [Fin 1; Fin (3602879701896397 # 18014398509481984);
          Fin (3602879701896397 # 36028797018963968)]
    /\ map speedupStr rows = ["  1.00x"; "  0.20x"; "  0.10x"].
Proof.
  intros Ha Hb Hc Hta Htb Htc.
  assert (sortBy byTime [a; b; c] = [b; a; c]) as Hsorted.
  { unfold sortBy, byTime. cbn [fold_right insertBy].
    rewrite Htb, Htc.
    change (Measure.isPositive
              (Measure.sub (Measure.ofZ 10) (Measure.ofZ 100))) with false.
    cbn [insertBy]. rewrite Hta, Htb, Htc.
    change (Measure.isPositive
              (Measure.sub (Measure.ofZ 50) (Measure.ofZ 10))) with true.
    change (Measure.isPositive
              (Measure.sub (Measure.ofZ 50) (Measure.ofZ 100))) with false.
    reflexivity. }
  unfold formatResults, validOf, failedOf. cbn [List.filter].
  rewrite Ha, Hb, Hc. cbn [negb]. rewrite Hsorted.
  eexists _, _. split; [reflexivity|].
  cbn [imap map entry rank speedup speedupStr rankingRow compose].
  rewrite Hta, Htb, Htc.
  repeat split; vm_compute; reflexivity.
Qed.

Lemma ranking_of_three_witness :
  exists rows verified,
    formatResults [timed "A" 50; timed "B" 10; timed "C" 100]
    = Ranked rows [] (timed "B" 10) verified
    /\ map entry rows = [timed "B" 10; timed "A" 50; timed "C" 100]
    /\ map rank rows = [1; 2; 3]%nat
    /\ map speedup rows
       = [Fin 1; Fin (3602879701896397 # 18014398509481984);
          Fin (3602879701896397 # 36028797018963968)]
    /\ map speedupStr rows = ["  1.00x"; "  0.20x"; "  0.10x"].
Proof.
  apply (ranking_of_three (timed "A" 50) (timed "B" 10) (timed "C" 100));
    reflexivity.
Defined.

(** C8 as stated does not hold of every list of succeeded records: with
    mean times of 5 ms and 0 ms the fastest is the record of 0 ms, and
    its own speedup is 0 / 0, which is not a number and not 1. *)
Lemma ranking_fastest_speedup_not_one :
  exists rows failed verified,
    formatResults [timed "A" 5; timed "Z" 0]
    = Ranked rows failed (timed "Z" 0) verified
    /\ map entry rows = [timed "Z" 0; timed "A" 5]
    /\ map speedup rows = [NaN; Measure.zero]
    /\ map speedupStr rows = ["   NaNx"; "  0.00x"]
    /\ head (map speedup rows) <> Some (Fin 1).
Proof.
  eexists _, _, _. split; [vm_compute; reflexivity|].
  repeat split; try (vm_compute; reflexivity).
  vm_compute. intros Hc. discriminate Hc.
Qed.

(** C8: for every list of records of which at least one succeeded, and
    whose succeeded records carry positive finite mean times, the ranking
    rows are the succeeded records sorted ascending by mean time; the
    first of them is the fastest, no succeeded record is faster; every
    row's speedup is the time of the fastest divided by the time of the
    row, as a double; the speedup of the fastest itself is 1. *)
Theorem ranking_sorted_with_speedups (results : list BenchmarkResult) :
  validOf results <> [] ->
  Forall positiveTime (validOf results) ->
  exists rows first fastest verified,
    formatResults results = Ranked rows (failedOf results) fastest verified
    /\ Permutation (map entry rows) (validOf results)
    /\ StronglySorted timeLe (map entry rows)
    /\ head rows = Some first
    /\ entry first = fastest
    /\ In fastest (validOf results)
    /\ Forall (timeLe fastest) (validOf results)
    /\ Forall (fun row =>
                 speedup row = Double.div (time fastest) (time (entry row)))
         rows
    /\ speedup first = Fin 1.
Proof.
  intros Hne Hpos.
  destruct (formatResults_ranked results Hne) as (fastest & rest & Hs & Hr).
  assert (map entry (imap (rankingRow fastest) (fastest :: rest))
          = sortBy byTime (validOf results)) as Hentries.
  { rewrite Hs. apply entry_imap. reflexivity. }
  assert (StronglySorted timeLe (fastest :: rest)) as Hsorted.
  { rewrite <- Hs. apply sortBy_sorted.
    eapply Forall_impl; [exact Hpos|]. apply positiveTime_finite. }
  assert (Permutation (fastest :: rest) (validOf results)) as Hperm.
  { rewrite <- Hs. apply sortBy_perm. }
  assert (fastest ∈ validOf results) as Hel.
  { rewrite <- Hperm. left. }
  assert (In fastest (validOf results)) as Hin.
  { apply list_elem_of_In. exact Hel. }
  exists (imap (rankingRow fastest) (fastest :: rest)),
    (rankingRow fastest 0 fastest), fastest,
    (bool_decide (size (uniqueResults (validOf results)) = 1%nat)).
  split; [exact Hr|]. rewrite Hentries, Hs.
  split; [exact Hperm|]. split; [exact Hsorted|].
  split; [reflexivity|]. split; [reflexivity|]. split; [exact Hin|].
  split; [|split].
  - rewrite <- Hperm. constructor.
    + rewrite Forall_forall in Hpos. destruct (Hpos fastest Hel) as (q & Hq & _).
      apply (timeLe_fin fastest fastest q q Hq Hq). apply Qle_refl.
    + apply StronglySorted_inv in Hsorted. apply Hsorted.
  - apply Forall_imap. reflexivity.
  - rewrite Forall_forall in Hpos. destruct (Hpos fastest Hel) as (q & Hq & Hlt).
    cbn [speedup rankingRow]. rewrite Hq. unfold Double.div.
    rewrite div_self; [reflexivity|].
    intros Hzero. rewrite Hzero in Hlt. apply (Qlt_irrefl 0). exact Hlt.
Qed.

Lemma ranking_sorted_with_speedups_witness :
  exists rows first fastest verified,
    formatResults [timed "A" 50; failure "D" "boom"; timed "B" 10;
                   timed "C" 100]
    = Ranked rows [failure "D" "boom"] fastest verified
    /\ Permutation (map entry rows)
         [timed "A" 50; timed "B" 10; timed "C" 100]
    /\ StronglySorted timeLe (map entry rows)
    /\ head rows = Some first
    /\ entry first = fastest
    /\ In fastest [timed "A" 50; timed "B" 10; timed "C" 100]
    /\ Forall (timeLe fastest) [timed "A" 50; timed "B" 10; timed "C" 100]
    /\ Forall (fun row =>
                 speedup row = Double.div (time fastest) (time (entry row)))
         rows
    /\ speedup first = Fin 1.
Proof.
  apply (ranking_sorted_with_speedups
           [timed "A" 50; failure "D" "boom"; timed "B" 10; timed "C" 100]).
  - vm_compute. intros Hc. discriminate Hc.
  - repeat constructor; eexists; (split; [reflexivity|reflexivity]).
Defined.

(** A succeeded record whose mean time is zero is ranked with a speedup
    that is not a number. *)
Example ranking_zero_time :
  exists rows failed verified,
    formatResults [timed "Z" 0]
    = Ranked rows failed (timed "Z" 0) verified
    /\ map speedup rows = [NaN].
Proof. eexists _, _, _. split; vm_compute; reflexivity. Qed.

(** ** The suite: results *)

Section Results.

Lemma last_answer calls v :
  Forall returned calls ->
  last (omap (fun c : num * Outcome value =>
                match snd c with Returned w => Some w | _ => None end) calls)
  = Some v ->
  exists x, last calls = Some (x, Returned v).
Proof.
  destruct calls as [|c calls _] using rev_ind; intros Hall Hlast.
  - discriminate Hlast.
  - apply Forall_app in Hall. destruct Hall as [_ Hc].
    apply Forall_cons_1 in Hc. destruct Hc as [Hc _].
    destruct (returned_inv c Hc) as [w Hw]. rewrite omap_app in Hlast.
    cbn in Hlast. rewrite Hw in Hlast. rewrite last_snoc in Hlast.
    injection Hlast as ->. exists (fst c). rewrite last_snoc.
    destruct c as [x o]. cbn in Hw. subst o. reflexivity.
Qed.

Lemma invocationSizes_last flags n : last (invocationSizes flags n) = Some n.
Proof.
  unfold invocationSizes.
  change (replicate (testRuns config) n) with ([n; n; n; n] ++ [n]).
  rewrite app_assoc. apply last_snoc.
Qed.

(** A strategy that returns on the sizes of the plan gets a record
    without an error whose result is what the strategy returns on the full
    size. *)
Lemma runBenchmark_result flags fn label n s r s' :
  ReturnsOn fn (invocationSizes flags n) ->
  runBenchmark flags label fn n s = (Returned r, s') ->
  error r = None /\ name r = label
  /\ exists p, fst (fn n p) = Returned (result r).
Proof.
  intros Hreturns Hrun.
  destruct (runBenchmark_calls _ _ _ _ _ _ _ Hrun) as [Hcalls Ho].
  destruct Ho as [(Hf & Hp & Hn)|(m & Hf & _)].
  - destruct Hp as (_ & _ & _ & Hlast & Herr).
    split; [exact Herr|]. split; [exact Hn|].
    destruct Hf as [Hsizes Hall].
    destruct (last_answer _ _ Hall Hlast) as [x Hx].
    assert (last (map fst (callsOf (appended s s'))) = Some x) as Hx'.
    { change map with (@fmap list _). rewrite fmap_last, Hx. reflexivity. }
    rewrite Hsizes, invocationSizes_last in Hx'. injection Hx' as <-.
    rewrite last_lookup in Hx. apply (Hcalls _ _ _ Hx).
  - exfalso.
    destruct (Follows_blame _ _ _ Hf) as (j & x & c & Hc & Hfate & _);
      [discriminate|].
    pose proof (Follows_sizes _ _ _ _ _ _ Hf Hc) as Hx.
    apply list_elem_of_lookup_2, list_elem_of_In in Hx.
    destruct (Hcalls _ _ _ Hc) as (p & Hp).
    specialize (Hreturns x p Hx). rewrite Hp in Hreturns.
    destruct c as [v|m'| |]; cbn in *; congruence.
Qed.

Lemma asSize_ofZ z : 0 <= z <= two53 -> asSize (Measure.ofZ z) = Some z.
Proof.
  intros [H0 H1]. unfold asSize, Measure.ofZ. cbn.
  apply Z.leb_le in H0, H1. rewrite H0, H1. reflexivity.
Qed.

Lemma onSize_returns (f : Z -> Eff Platform value) sizes :
  Forall (fun x => exists z, asSize x = Some z
                             /\ forall p, Within false (fst (f z p))) sizes ->
  ReturnsOn (onSize f) sizes.
Proof.
  intros Hall x p Hin. rewrite Forall_forall in Hall.
  destruct (Hall x) as (z & Hz & Hf); [apply list_elem_of_In; exact Hin|].
  unfold onSize. rewrite Hz. apply Hf.
Qed.

(** The sizes the suite of [main] passes to a strategy are sizes. *)
Lemma main_sizes flags size :
  size = 100000000 \/ size = 1000000000 ->
  Forall (fun x => exists z, asSize x = Some z)
    (invocationSizes flags (Measure.ofZ size)).
Proof.
  unfold invocationSizes.
  intros [-> | ->]; destruct (isDevelopment flags);
    repeat constructor; eexists; vm_compute; reflexivity.
Qed.

(** Two succeeded records with different results make the verification
    fail. *)
Lemma verification_disagree results a b :
  In a results -> In b results -> hasError a = false -> hasError b = false ->
  toString (result a) <> toString (result b) ->
  verification (formatResults results) = Some false.
Proof.
  intros Ha Hb Hea Heb Hne.
  assert (In a (validOf results)) as Hva.
  { apply filter_In. rewrite Hea. auto. }
  assert (In b (validOf results)) as Hvb.
  { apply filter_In. rewrite Heb. auto. }
  rewrite verification_valid.
  destruct (validOf results) as [|v vs] eqn:Hvalid; [contradiction|].
  f_equal. apply bool_decide_eq_false. intros Hone. apply Hne.
  apply (size_singleton_inv _ _ _ Hone); apply uniqueResults_elem; eauto.
Qed.

Lemma numberStrategy_returns f sizes :
  Forall (fun x => exists z, asSize x = Some z) sizes ->
  ReturnsOn (numberStrategy f) sizes.
Proof.
  intros Hall. apply onSize_returns. eapply Forall_impl; [exact Hall|].
  intros x (z & Hz). exists z. split; [exact Hz|]. intros p. exact I.
Qed.

Lemma numberStrategy_result f z p v :
  0 <= z <= two53 ->
  fst (numberStrategy f (Measure.ofZ z) p) = Returned v -> v = VNum (f z).
Proof.
  intros Hz. unfold numberStrategy, onSize. rewrite (asSize_ofZ z Hz).
  cbn. congruence.
Qed.

Lemma stressEntry_returns sizes :
  Forall (fun x => exists z, asSize x = Some z) sizes ->
  ReturnsOn stressEntry sizes.
Proof.
  intros Hall. apply onSize_returns. eapply Forall_impl; [exact Hall|].
  intros x (z & Hz). exists z. split; [exact Hz|]. intros p. exact I.
Qed.

Lemma stressEntry_result x p v :
  fst (stressEntry x p) = Returned v -> v = VNum 0.
Proof.
  unfold stressEntry, onSize. destruct (asSize x) as [z|]; [|discriminate].
  cbn. congruence.
Qed.

Lemma hasError_none r : error r = None -> hasError r = false.
Proof. intros H. unfold hasError. rewrite H. reflexivity. Qed.

End Results.

(** ** When the suite returns *)

Section Returns.

Variable flags : Flags.
Variable J : Platform -> Prop.

Hypothesis J_now : forall p, J p -> J (snd (performanceNow p)).
Hypothesis J_heap : forall p, J p -> J (snd (getMemoryUsage p)).

Lemma runBenchmark_returns fn label n s :
  ReturnsUnder J fn (invocationSizes flags n) -> J (platform s) ->
  exists r s', runBenchmark flags label fn n s = (Returned r, s')
               /\ J (platform s').
Proof.
  intros [Hkeep Hreturns] Hs.
  destruct (runBenchmark flags label fn n s) as [o s'] eqn:Hrun.
  destruct (runBenchmark_traced flags fn (fun _ => J)
              (fun _ => J_now) (fun _ => J_heap)
              (fun _ p x v p' => Hkeep x p v p')
              label n 0%nat s o s' Hs Hrun) as (X & _ & Htr & Ho).
  assert (forall o', o' <> Returned tt ->
            Follows (invocationSizes flags n) o' (callsOf X) -> False)
    as Hblame.
  { intros o' Hne Hf.
    destruct (Follows_blame _ _ _ Hf Hne) as (j & x & c & Hc & Hfate & _).
    pose proof (Follows_sizes _ _ _ _ _ _ Hf Hc) as Hx.
    apply list_elem_of_lookup_2, list_elem_of_In in Hx.
    destruct (Htr _ _ _ Hc) as (p & Hp & Hcall).
    specialize (Hreturns x p Hx Hp). rewrite Hcall in Hreturns. subst o'.
    destruct c as [v|m| |]; cbn in *; try contradiction; try discriminate;
      congruence. }
  destruct o as [r|m| |].
  - destruct Ho as [(_ & _ & _ & Hend)|(m & Hf & _)].
    + exists r, s'. split; [reflexivity|exact Hend].
    + exfalso. eapply Hblame; [|exact Hf]. discriminate.
  - contradiction.
  - exfalso. eapply Hblame; [|exact Ho]. discriminate.
  - exfalso. eapply Hblame; [|exact Ho]. discriminate.
Qed.

Lemma runAll_returns testSize entries : forall results s,
  Forall (fun entry =>
            ReturnsUnder J (snd entry)
              (invocationSizes flags (Measure.ofZ testSize))) entries ->
  J (platform s) ->
  exists rs s', runAll flags entries testSize results s = (Returned rs, s')
                /\ J (platform s').
Proof.
  induction entries as [|[label fn] rest IH]; intros results s Hall Hs.
  - exists results, s. split; [reflexivity|exact Hs].
  - apply Forall_cons_1 in Hall. destruct Hall as [Hfn Hrest].
    rewrite runAll_step.
    destruct (runBenchmark_returns fn label (Measure.ofZ testSize) s Hfn Hs)
      as (r & s1 & -> & Hs1).
    apply IH; [exact Hrest|].
    destruct (forceGc_journal flags 1 s1) as [c ->]. exact Hs1.
Qed.

End Returns.

Section QuietRuns.

Lemma dispatch_length budget numWorkers chunk n i :
  (length (dispatch budget numWorkers chunk n i) <= budget)%nat.
Proof.
  revert i. induction budget as [|budget IH]; intros i; cbn [dispatch].
  - reflexivity.
  - destruct (i <? numWorkers); [|cbn; lia].
    destruct (n <=? i ⊗ chunk); cbn; [lia|].
    specialize (IH (i ⊕ 1)). lia.
Qed.

Lemma parallelSum_returns numWorkers n events :
  (forall i, (i < Z.to_nat numWorkers)%nat -> workerDelivers events i) ->
  exists total, parallelSum numWorkers n events = Returned total.
Proof.
  intros Hdeliver. unfold parallelSum. rewrite promiseAll_delivered.
  - eexists. reflexivity.
  - intros i w Hw. right. apply list_lookup_fmap_Some in Hw.
    destruct Hw as (r & -> & Hr). split; [reflexivity|].
    apply Hdeliver. apply lookup_lt_Some in Hr. unfold workRanges in Hr.
    pose proof (dispatch_length (Z.to_nat numWorkers) numWorkers
                  (ceilDiv n numWorkers) n 0). lia.
Qed.

Lemma pure_ReturnsUnder J (f : Z -> value) sizes :
  Forall (fun x => exists z, asSize x = Some z) sizes ->
  ReturnsUnder J (onSize (fun n => ret (f n))) sizes.
Proof.
  intros Hall. split.
  - intros x p v p' Hp. unfold onSize.
    destruct (asSize x); intros [= _ <-]. exact Hp.
  - intros x p Hin _. rewrite Forall_forall in Hall.
    destruct (Hall x) as (z & Hz); [apply list_elem_of_In; exact Hin|].
    unfold onSize. rewrite Hz. exact I.
Qed.

Lemma asSize_bounds x z : asSize x = Some z -> 0 <= z <= two53.
Proof.
  unfold asSize. destruct x as [q| | |]; try discriminate.
  destruct (Pos.eqb_spec (Qden q) 1); [|discriminate].
  destruct (Z.leb_spec 0 (Qnum q)); [|discriminate].
  destruct (Z.leb_spec (Qnum q) two53); [|discriminate].
  cbn. intros [= <-]. lia.
Qed.

Lemma typedArrayEntry_ReturnsUnder J sizes :
  Forall (fun x => exists z, asSize x = Some z) sizes ->
  ReturnsUnder J typedArrayEntry sizes.
Proof.
  intros Hall. split.
  - intros x p v p' Hp. unfold typedArrayEntry, onSize.
    destruct (asSize x); [|discriminate].
    destruct (typedArrayOptimal z); intros [= _ <-]. exact Hp.
  - intros x p Hin _. rewrite Forall_forall in Hall.
    destruct (Hall x) as (z & Hz); [apply list_elem_of_In; exact Hin|].
    unfold typedArrayEntry, onSize. rewrite Hz.
    destruct (typedArrayOptimal_returns z (asSize_bounds x z Hz)) as [total ->].
    exact I.
Qed.

Lemma stressEntry_ReturnsUnder sizes :
  Forall (fun x => exists z, asSize x = Some z) sizes ->
  ReturnsUnder Quiet stressEntry sizes.
Proof.
  intros Hall. split.
  - intros x p v p' Hp. unfold stressEntry, onSize.
    destruct (asSize x); intros [= _ <-]. exact Hp.
  - intros x p Hin _. apply (stressEntry_returns sizes Hall x p Hin).
Qed.

Lemma parallelWorkers_ReturnsUnder sizes :
  Forall (fun x => exists z, asSize x = Some z) sizes ->
  ReturnsUnder Quiet parallelWorkers sizes.
Proof.
  intros Hall. split.
  - intros x p v p' Hp. unfold parallelWorkers, onSize.
    destruct (asSize x); [|discriminate].
    destruct (parallelSum _ _ _); intros [= _ <-]. exact Hp.
  - intros x p Hin Hp. rewrite Forall_forall in Hall.
    destruct (Hall x) as (z & Hz); [apply list_elem_of_In; exact Hin|].
    unfold parallelWorkers, onSize. rewrite Hz.
    destruct (parallelSum_returns (Z.pos (cpuCount p)) z
                (workerEvents p (parallelRuns p))) as [total ->]; [|exact I].
    intros i Hi. apply Hp. exact Hi.
Qed.

(** On a platform whose workers always deliver, [main] gets to its
    report. *)
Lemma main_returns flags s :
  Quiet (platform s) -> exists report s', main flags s = (Returned report, s').
Proof.
  intros Hs. unfold main, suite.
  set (N := if isFullTest flags then maxNumber config else 100000000).
  assert (N = 100000000 \/ N = 1000000000) as HN.
  { unfold N. destruct (isFullTest flags); auto. }
  pose proof (main_sizes flags N HN) as Hsizes.
  unfold bind at 1. destruct (liftP_now s) as [t0 ->].
  unfold bind at 1.
  destruct (runAll_returns flags Quiet (fun p H => H) (fun p H => H) N
              (benchmarks N) []
              {| platform := snd (performanceNow (platform s));
                 journal := journal s |}) as (rs & s2 & -> & _).
  - assert ((N <=? 10000) = false) as Hbig.
    { destruct HN as [-> | ->]; reflexivity. }
    unfold benchmarks. rewrite Hbig.
    repeat (apply Forall_cons_2 || apply Forall_app_2 || apply Forall_nil_2);
      cbn [snd];
      first [apply pure_ReturnsUnder|apply typedArrayEntry_ReturnsUnder
            |apply stressEntry_ReturnsUnder
            |apply parallelWorkers_ReturnsUnder]; exact Hsizes.
  - exact Hs.
  - unfold bind at 1. destruct (liftP_now s2) as [t1 ->].
    eexists _, _. reflexivity.
Qed.

Lemma quietPlatform_quiet : Quiet quietPlatform.
Proof.
  intros run i Hi. change (Pos.to_nat (cpuCount quietPlatform)) with 4%nat in Hi.
  destruct i as [|[|[|[|i]]]]; try reflexivity. lia.
Qed.

End QuietRuns.

(** C3: every execution of [main] that gets as far as the report prints a
    failed verification.  The input size N is 100,000,000, or
    1,000,000,000 in the full test; among the records are the succeeded
    record of the closed form, whose result is the non-zero sum
    N*(N-1)/2, and the succeeded record of the "Realistic Stress Test"
    entry, whose result is 0, so the set of result strings has more than
    one element. *)
Theorem main_verification_fails flags s report s' :
  main flags s = (Returned report, s') ->
  let N := if isFullTest flags then 1000000000 else 100000000 in
  exists results formula stress,
    report = formatResults results
    /\ In formula results /\ In stress results
    /\ name formula = "Mathematical Formula"
    /\ hasError formula = false /\ result formula = VNum (tri N)
    /\ name stress = "Realistic Stress Test"
    /\ hasError stress = false /\ result stress = VNum 0
    /\ toString (result formula) <> toString (result stress)
    /\ verification report = Some false.
Proof.
  intros Hmain N. unfold main, suite in Hmain.
  assert (maxNumber config = 1000000000) as Hmax by reflexivity.
  rewrite Hmax in Hmain. fold N in Hmain.
  assert (N = 100000000 \/ N = 1000000000) as HN.
  { unfold N. destruct (isFullTest flags); auto. }
  assert (0 <= N <= two53) as Hfit.
  { unfold two53. destruct HN as [-> | ->]; lia. }
  assert (mathFormula N = tri N /\ (N <=? 10000) = false
          /\ toString (VNum (tri N)) <> toString (VNum 0))
    as (Hexact & Hbig & Hne).
  { destruct HN as [-> | ->]; (split; [|split]);
      try (vm_compute; reflexivity); vm_compute; intros Hc; discriminate Hc. }
  unfold bind at 1 in Hmain. destruct (liftP_now s) as [t0 Ht0].
  rewrite Ht0 in Hmain. unfold bind at 1 in Hmain.
  match type of Hmain with
  | context [runAll ?f ?e ?n ?r ?st] =>
      destruct (runAll f e n r st) as [[rs|m| |] s2] eqn:Hall;
        try discriminate Hmain
  end.
  unfold bind at 1 in Hmain. destruct (liftP_now s2) as [t1 Ht1].
  rewrite Ht1 in Hmain. injection Hmain as <- <-.
  apply runAll_results in Hall. destruct Hall as (news & -> & Hall).
  unfold benchmarks in Hall. rewrite Hbig in Hall. cbn [app] in Hall.
  repeat match goal with
         | H : Forall2 _ (_ :: _) _ |- _ =>
             apply Forall2_cons_inv_l in H;
             destruct H as (? & ? & ? & H & ->)
         end.
  apply Forall2_nil_inv_l in Hall. subst.
  pose proof (main_sizes flags N HN) as Hsizes.
  match goal with
  | H : exists s1 s2, runBenchmark _ (fst ("Mathematical Formula", _)) _ _ _ = _
    |- _ => destruct H as (sa & sb & Hformula)
  end.
  match goal with
  | H : exists s1 s2, runBenchmark _ (fst ("Realistic Stress Test", _)) _ _ _ = _
    |- _ => destruct H as (sc & sd & Hstress)
  end.
  cbn [fst snd] in Hformula, Hstress.
  apply runBenchmark_result in Hformula;
    [|apply numberStrategy_returns; exact Hsizes].
  apply runBenchmark_result in Hstress;
    [|apply stressEntry_returns; exact Hsizes].
  destruct Hformula as (Hef & Hnf & pf & Hrf).
  destruct Hstress as (Hes & Hns & ps & Hrs).
  apply (numberStrategy_result _ _ _ _ Hfit) in Hrf.
  apply stressEntry_result in Hrs. rewrite Hexact in Hrf.
  apply hasError_none in Hef, Hes.
  match goal with
  | |- context [formatResults ?l] => set (results := l) in *
  end.
  match type of Hnf with
  | name ?a = _ =>
      match type of Hns with
      | name ?b = _ =>
          assert (In a results) as Hina by (cbn; auto 12);
          assert (In b results) as Hinb by (cbn; auto 12);
          exists results, a, b
      end
  end.
  rewrite Hrf, Hrs.
  repeat (split; [assumption || reflexivity|]).
  eapply verification_disagree;
    [exact Hina|exact Hinb|exact Hef|exact Hes|rewrite Hrf, Hrs; exact Hne].
Qed.

Lemma main_verification_fails_witness :
  exists report s',
    main productionFlags quietState = (Returned report, s')
    /\ verification report = Some false.
Proof.
  destruct (main_returns productionFlags quietState quietPlatform_quiet)
    as (report & s' & Hmain).
  exists report, s'. split; [exact Hmain|].
  destruct (main_verification_fails productionFlags quietState report s' Hmain)
    as (results & formula & stress & H).
  apply H.
Defined.

(** * Further properties *)

(** ** The report: outcomes, partition and ties *)

Section ReportShape.

Lemma filter_split (P : BenchmarkResult -> bool) l :
  Permutation (List.filter (fun r => negb (P r)) l ++ List.filter P l) l.
Proof.
  induction l as [|x l IH]; cbn; [reflexivity|].
  destruct (P x); cbn.
  - rewrite <- Permutation_middle. constructor. exact IH.
  - constructor. exact IH.
Qed.

Lemma rank_imap fastest l :
  map rank (imap (rankingRow fastest) l) = seq 1 (length l).
Proof.
  apply list_eq. intros i. change map with (@fmap list _).
  rewrite list_lookup_fmap, list_lookup_imap.
  destruct (l !! i) as [r|] eqn:Hr; cbn.
  - rewrite lookup_seq_lt by (eapply lookup_lt_Some; exact Hr).
    f_equal. lia.
  - symmetry. apply lookup_seq_ge. apply lookup_ge_None. exact Hr.
Qed.

Lemma sameTime_fin q r qr :
  time r = Fin qr -> sameTime (Fin q) r = true <-> (qr == q)%Q.
Proof.
  intros Hr. unfold sameTime. rewrite Hr, Bool.andb_true_iff, !Bool.negb_true_iff.
  rewrite <- !Bool.not_true_iff_false, !ltb_fin. split.
  - intros [H1 H2]. apply Qle_antisym; apply Qnot_lt_le; assumption.
  - intros H. rewrite H. split; apply Qlt_irrefl.
Qed.

(** Inserting a record moves no record past one of the same time. *)
Lemma filter_insertBy q x l :
  finiteTime x -> Forall finiteTime l ->
  List.filter (sameTime (Fin q)) (insertBy byTime x l)
  = List.filter (sameTime (Fin q)) (x :: l).
Proof.
  intros [qx Hx] Hl. induction Hl as [|y l [qy Hy] _ IH]; [reflexivity|].
  cbn [insertBy]. destruct (Measure.isPositive (byTime x y)) eqn:Hcmp;
    [|reflexivity].
  apply (byTime_positive x y qx qy Hx Hy) in Hcmp.
  cbn [List.filter]. rewrite IH. cbn [List.filter].
  destruct (sameTime (Fin q) x) eqn:Hsx; [|reflexivity].
  apply (sameTime_fin q x qx Hx) in Hsx.
  assert (sameTime (Fin q) y = false) as ->; [|reflexivity].
  apply Bool.not_true_iff_false. intros Hsy.
  apply (sameTime_fin q y qy Hy) in Hsy.
  rewrite Hsx, Hsy in Hcmp. exact (Qlt_irrefl _ Hcmp).
Qed.

Lemma filter_sortBy q l :
  Forall finiteTime l ->
  List.filter (sameTime (Fin q)) (sortBy byTime l)
  = List.filter (sameTime (Fin q)) l.
Proof.
  induction 1 as [|x l Hx Hl IH]; [reflexivity|].
  unfold sortBy. cbn [fold_right]. fold (sortBy byTime l).
  rewrite filter_insertBy.
  - cbn [List.filter]. rewrite IH. reflexivity.
  - exact Hx.
  - rewrite sortBy_perm. exact Hl.
Qed.

Lemma find_filter (P : BenchmarkResult -> bool) l :
  List.find P l = head (List.filter P l).
Proof.
  induction l as [|x l IH]; cbn; [reflexivity|].
  destruct (P x); [reflexivity|exact IH].
Qed.

End ReportShape.

(** X1: the report has two outcomes only.  It says that there is no
    successful benchmark exactly when every record carries a truthy
    error, in particular for the empty list; in every other case it is a
    ranking.  The branch for a missing fastest record is never taken. *)
Theorem formatResults_outcomes (results : list BenchmarkResult) :
  formatResults results <> NoValidResults
  /\ (formatResults results = NoSuccessfulBenchmarks
      <-> Forall (fun r => hasError r = true) results)
  /\ (formatResults results <> NoSuccessfulBenchmarks
      <-> exists rows winner verified,
            formatResults results
            = Ranked rows (failedOf results) winner verified).
Proof.
  assert (validOf results = [] <-> Forall (fun r => hasError r = true) results)
    as Hnone.
  { unfold validOf. induction results as [|r results IH]; cbn.
    - split; [constructor|reflexivity].
    - destruct (hasError r) eqn:Hr; cbn.
      + rewrite IH. split; [constructor; assumption|].
        intros H. apply Forall_cons_1 in H. apply H.
      + split; [discriminate|]. intros H. apply Forall_cons_1 in H.
        destruct H as [H _]. congruence. }
  destruct (validOf results) as [|v vs] eqn:Hvalid.
  - rewrite (formatResults_none results Hvalid).
    split; [discriminate|]. split.
    + split; [intros _; apply Hnone; reflexivity|reflexivity].
    + split; [intros H; contradiction|].
      intros (rows & winner & verified & H). discriminate H.
  - destruct (formatResults_ranked results) as (fastest & rest & _ & Hr).
    { rewrite Hvalid. discriminate. }
    rewrite Hr. split; [discriminate|]. split.
    + split; [discriminate|]. intros H. apply Hnone in H. discriminate H.
    + split; [|discriminate]. intros _. eexists _, _, _. reflexivity.
Qed.

(** X2: when a record succeeded, every record appears in the report
    exactly once: the ranked rows together with the failed list are a
    rearrangement of the input.  The failed list holds the records with a
    truthy error, the rows those without, and the rows are numbered
    1, 2, 3, ... *)
Theorem formatResults_partition (results : list BenchmarkResult) :
  validOf results <> [] ->
  exists rows winner verified,
    formatResults results = Ranked rows (failedOf results) winner verified
    /\ Permutation (map entry rows ++ failedOf results) results
    /\ (length rows + length (failedOf results) = length results)%nat
    /\ map rank rows = seq 1 (length rows)
    /\ Forall (fun row => hasError (entry row) = false) rows
    /\ Forall (fun r => hasError r = true) (failedOf results).
Proof.
  intros Hne.
  destruct (formatResults_ranked results Hne) as (fastest & rest & Hs & Hr).
  assert (map entry (imap (rankingRow fastest) (fastest :: rest))
          = sortBy byTime (validOf results)) as Hentries.
  { rewrite Hs. apply entry_imap. reflexivity. }
  assert (Permutation (map entry (imap (rankingRow fastest) (fastest :: rest))
                       ++ failedOf results) results) as Hperm.
  { rewrite Hentries, sortBy_perm. apply filter_split. }
  eexists _, _, _. split; [exact Hr|]. split; [exact Hperm|].
  split; [|split; [rewrite length_imap; apply rank_imap|split]].
  - apply Permutation_length in Hperm.
    rewrite length_app, length_map in Hperm. exact Hperm.
  - assert (Forall (fun r => hasError r = false)
              (map entry (imap (rankingRow fastest) (fastest :: rest))))
      as Hall.
    { rewrite Hentries, sortBy_perm. apply Forall_forall. intros r Hin.
      apply list_elem_of_In, filter_In in Hin.
      apply Bool.negb_true_iff, Hin. }
    change map with (@fmap list _) in Hall.
    apply Forall_fmap in Hall. exact Hall.
  - apply Forall_forall. intros r Hin.
    apply list_elem_of_In, filter_In in Hin. apply Hin.
Qed.

Lemma formatResults_partition_witness :
  exists rows winner verified,
    formatResults [timed "A" 50; failure "D" "boom"; timed "B" 10]
    = Ranked rows [failure "D" "boom"] winner verified
    /\ Permutation (map entry rows ++ [failure "D" "boom"])
         [timed "A" 50; failure "D" "boom"; timed "B" 10]
    /\ (length rows + 1 = 3)%nat
    /\ map rank rows = seq 1 (length rows)
    /\ Forall (fun row => hasError (entry row) = false) rows
    /\ Forall (fun r => hasError r = true) [failure "D" "boom"].
Proof.
  apply (formatResults_partition
           [timed "A" 50; failure "D" "boom"; timed "B" 10]).
  vm_compute. intros Hc. discriminate Hc.
Defined.

(** X3: the ranking is stable.  When the succeeded records have finite
    mean times, the rows are sorted ascending by time, and those with one
    and the same time stand in the ranking in the order of the input.
    The winner is the record of the first row; no succeeded record has a
    smaller time, and among the succeeded records that have the winner's
    time the winner is the first of the input. *)
Theorem ranking_stable (results : list BenchmarkResult) :
  validOf results <> [] ->
  Forall finiteTime (validOf results) ->
  exists rows winner verified,
    formatResults results = Ranked rows (failedOf results) winner verified
    /\ StronglySorted timeLe (map entry rows)
    /\ (forall q, List.filter (sameTime (Fin q)) (map entry rows)
                  = List.filter (sameTime (Fin q)) (validOf results))
    /\ head (map entry rows) = Some winner
    /\ Forall (timeLe winner) (validOf results)
    /\ List.find (sameTime (time winner)) (validOf results) = Some winner.
Proof.
  intros Hne Hfin.
  destruct (formatResults_ranked results Hne) as (fastest & rest & Hs & Hr).
  assert (map entry (imap (rankingRow fastest) (fastest :: rest))
          = sortBy byTime (validOf results)) as Hentries.
  { rewrite Hs. apply entry_imap. reflexivity. }
  assert (StronglySorted timeLe (fastest :: rest)) as Hsorted.
  { rewrite <- Hs. apply sortBy_sorted. exact Hfin. }
  assert (Permutation (fastest :: rest) (validOf results)) as Hperm.
  { rewrite <- Hs. apply sortBy_perm. }
  assert (fastest ∈ validOf results) as Hel.
  { rewrite <- Hperm. left. }
  pose proof Hfin as Hall. rewrite Forall_forall in Hall.
  destruct (Hall fastest Hel) as [q Hq].
  eexists _, _, _. split; [exact Hr|]. rewrite Hentries.
  split; [rewrite Hs; exact Hsorted|].
  split; [intros q'; apply filter_sortBy; exact Hfin|].
  split; [rewrite Hs; reflexivity|].
  split.
  { rewrite <- Hperm. constructor.
    - apply (timeLe_fin fastest fastest q q Hq Hq). apply Qle_refl.
    - apply StronglySorted_inv in Hsorted. apply Hsorted. }
  rewrite find_filter, Hq, <- (filter_sortBy q) by exact Hfin.
  rewrite Hs. cbn [List.filter].
  assert (sameTime (Fin q) fastest = true) as ->; [|reflexivity].
  apply (sameTime_fin q fastest q Hq). reflexivity.
Qed.

(** Records of 50, 10 and 10 ms: the winner is the first of the two
    records of 10 ms, not the record of 50 ms that comes first in the
    input. *)
Lemma ranking_stable_witness :
  exists rows winner verified,
    formatResults [timed "A" 50; timed "B" 10; failure "D" "boom";
                   timed "C" 10]
    = Ranked rows [failure "D" "boom"] winner verified
    /\ StronglySorted timeLe (map entry rows)
    /\ (forall q, List.filter (sameTime (Fin q)) (map entry rows)
                  = List.filter (sameTime (Fin q))
                      [timed "A" 50; timed "B" 10; timed "C" 10])
    /\ head (map entry rows) = Some winner
    /\ Forall (timeLe winner) [timed "A" 50; timed "B" 10; timed "C" 10]
    /\ List.find (sameTime (time winner))
         [timed "A" 50; timed "B" 10; timed "C" 10] = Some winner
    /\ winner = timed "B" 10
    /\ map entry rows = [timed "B" 10; timed "C" 10; timed "A" 50].
Proof.
  destruct (ranking_stable
              [timed "A" 50; timed "B" 10; failure "D" "boom"; timed "C" 10])
    as (rows & winner & verified & Hr & H1 & H2 & H3 & H4 & H5).
  - vm_compute. intros Hc. discriminate Hc.
  - repeat constructor; eexists; reflexivity.
  - assert (winner = timed "B" 10
            /\ map entry rows = [timed "B" 10; timed "C" 10; timed "A" 50])
      as [Hw Hrows].
    { vm_compute in Hr. injection Hr as <- <- _. split; reflexivity. }
    exists rows, winner, verified. repeat split; assumption.
Defined.

(** ** The partitioner: how many workers, and when it settles *)

Section WorkerCount.

Lemma Tiles_count c : forall ranges a b,
  1 <= c -> Tiles a ranges b -> ChunkSized c ranges -> ranges <> [] ->
  (Z.of_nat (length ranges) - 1) * c < b - a <= Z.of_nat (length ranges) * c.
Proof.
  induction ranges as [|[start end_] rest IH]; intros a b Hc Ht Hs Hne;
    [contradiction|].
  destruct Ht as (-> & Hlt & Hrest). cbn [ChunkSized] in Hs.
  destruct rest as [|r rest'].
  - cbn in Hrest. subst end_. cbn [length]. lia.
  - destruct Hs as [Hlen Hs].
    specialize (IH end_ b Hc Hrest Hs ltac:(discriminate)).
    cbn [length] in IH |- *. rewrite !Nat2Z.inj_succ in IH |- *. nia.
Qed.

Lemma promiseAll_none events : promiseAll [] events = Returned [].
Proof. induction events as [|[i e] rest IH]; [reflexivity|exact IH]. Qed.

End WorkerCount.

(** X4: for a size N between 1 and 2^53 on P >= 1 processing units the
    partitioner creates ceil(N / ceil(N/P)) workers, which is at most P
    and at most N, and can be less than both: for 9 items on 4 units
    three workers are created. *)
Theorem workRanges_count numWorkers n :
  0 < n <= two53 -> 1 <= numWorkers ->
  Z.of_nat (length (workRanges numWorkers n))
  = ceilDiv n (ceilDiv n numWorkers)
  /\ 1 <= Z.of_nat (length (workRanges numWorkers n)) <= Z.min numWorkers n.
Proof.
  intros Hn Hp.
  destruct (workRanges_tiles numWorkers n) as [Htiles Hsized]; [lia|lia|].
  pose proof (ceilDiv_pos n numWorkers ltac:(lia) ltac:(lia)) as Hchunk.
  assert (workRanges numWorkers n <> []) as Hne.
  { intros Hnil. rewrite Hnil in Htiles. cbn in Htiles. lia. }
  pose proof (Tiles_count _ _ _ _ Hchunk Htiles Hsized Hne) as Hcount.
  pose proof (dispatch_length (Z.to_nat numWorkers) numWorkers
                (ceilDiv n numWorkers) n 0) as Hlen.
  fold (workRanges numWorkers n) in Hlen.
  set (k := Z.of_nat (length (workRanges numWorkers n))) in *.
  assert (k = ceilDiv n (ceilDiv n numWorkers)) as Hk.
  { assert (k - 1 < ceilDiv n (ceilDiv n numWorkers)) as H1
      by (apply ceilDiv_lt; lia).
    assert (~ k < ceilDiv n (ceilDiv n numWorkers)) as H2
      by (rewrite ceilDiv_lt by lia; lia).
    lia. }
  split; [exact Hk|]. split; [|apply Z.min_glb]; try lia.
  unfold k in *. nia.
Qed.

Lemma workRanges_count_witness :
  length (workRanges 4 9) = 3%nat
  /\ Z.of_nat (length (workRanges 4 9)) = ceilDiv 9 (ceilDiv 9 4)
  /\ 1 <= Z.of_nat (length (workRanges 4 9)) <= Z.min 4 9.
Proof.
  split; [reflexivity|].
  apply (workRanges_count 4 9); [unfold two53; lia|lia].
Defined.

(** X5: on the empty input the parallel strategy creates no worker and
    returns 0 at once, whatever the events are, failures included. *)
Theorem parallelSum_empty numWorkers events :
  workRanges numWorkers 0 = []
  /\ parallelSum numWorkers 0 events = Returned 0.
Proof.
  split; [apply workRanges_zero|].
  unfold parallelSum. rewrite workRanges_zero. cbn [map].
  rewrite promiseAll_none. reflexivity.
Qed.

Section Settling.

Lemma mapM_unsettled (ws : list WorkerState) i w :
  ws !! i = Some w -> promise w = Unsettled -> mapM partialOf ws = None.
Proof.
  intros Hw Hp. destruct (mapM partialOf ws) as [parts|] eqn:Hm; [|reflexivity].
  apply mapM_Some in Hm.
  destruct (Forall2_lookup_l _ _ _ _ _ Hm Hw) as (part & _ & Hpart).
  unfold partialOf in Hpart. rewrite Hp in Hpart. discriminate Hpart.
Qed.

(** One step of [Promise.all] on an event of a dispatched worker. *)
Lemma promiseAll_step ws i e rest w :
  ws !! i = Some w ->
  promiseAll ws ((i, e) :: rest)
  = match promise w, promise (handle w e) with
    | Unsettled, Rejected reason => Thrown reason
    | _, _ => promiseAll (<[i := handle w e]> ws) rest
    end.
Proof. intros Hw. cbn [promiseAll]. rewrite Hw. reflexivity. Qed.

(** A worker that has exited with code 0 without a message, and of which
    nothing but such exits and timer ticks is observed, keeps its promise
    unsettled. *)
Lemma promiseAll_hangs events : forall (ws : list WorkerState) i w,
  ws !! i = Some w -> promise w = Unsettled ->
  timerArmed w = false \/ firstEventOf i events = Some (ExitEvent 0) ->
  (forall e, In (i, e) events -> e = ExitEvent 0 \/ e = TimerFired) ->
  (forall parts, promiseAll ws events <> Returned parts)
  /\ ((forall j wj, j <> i -> ws !! j = Some wj ->
         (exists v, promise wj = Resolved v)
         \/ (promise wj = Unsettled /\ workerDelivers events j)) ->
      promiseAll ws events = Pending).
Proof.
  induction events as [|[j e] rest IH]; intros ws i w Hw Hp Harmed Honly.
  - cbn [promiseAll]. rewrite (mapM_unsettled ws i w Hw Hp).
    split; [discriminate|reflexivity].
  - destruct (Nat.eq_dec j i) as [->|Hne].
    + rewrite (promiseAll_step ws i e rest w Hw), Hp.
      assert (promise (handle w e) = Unsettled
              /\ timerArmed (handle w e) = false) as [Hp' Ht'].
      { destruct (Honly e (or_introl eq_refl)) as [-> | ->].
        - cbn. auto.
        - destruct Harmed as [Hoff|Hfirst].
          + cbn. rewrite Hoff. auto.
          + rewrite firstEventOf_here in Hfirst. discriminate Hfirst. }
      rewrite Hp'.
      assert (<[i := handle w e]> ws !! i = Some (handle w e)) as Hw'.
      { apply list_lookup_insert_eq. eapply lookup_lt_Some. exact Hw. }
      destruct (IH _ i _ Hw' Hp' (or_introl Ht')) as [Hnever Hpending].
      { intros e' Hin. apply Honly. right. exact Hin. }
      split; [exact Hnever|]. intros Hothers. apply Hpending.
      intros k wk Hk Hwk. rewrite list_lookup_insert_ne in Hwk by congruence.
      destruct (Hothers k wk Hk Hwk) as [Hres|[Hun Hdel]]; [left; exact Hres|].
      right. split; [exact Hun|]. unfold workerDelivers in *.
      rewrite firstEventOf_other in Hdel by congruence. exact Hdel.
    + assert (timerArmed w = false \/ firstEventOf i rest = Some (ExitEvent 0))
        as Harmed'.
      { destruct Harmed as [Hoff|Hfirst]; [left; exact Hoff|right].
        rewrite firstEventOf_other in Hfirst by exact Hne. exact Hfirst. }
      assert (forall e', In (i, e') rest -> e' = ExitEvent 0 \/ e' = TimerFired)
        as Honly'.
      { intros e' Hin. apply Honly. right. exact Hin. }
      destruct (ws !! j) as [wj|] eqn:Hwj.
      2:{ cbn [promiseAll]. rewrite Hwj.
          destruct (IH ws i w Hw Hp Harmed' Honly') as [Hnever Hpending].
          split; [exact Hnever|]. intros Hothers. apply Hpending.
          intros k wk Hk Hwk.
          destruct (Hothers k wk Hk Hwk) as [Hres|[Hun Hdel]];
            [left; exact Hres|].
          right. split; [exact Hun|]. unfold workerDelivers in *.
          rewrite firstEventOf_other in Hdel; [exact Hdel|].
          intros ->. rewrite Hwj in Hwk. discriminate Hwk. }
      rewrite (promiseAll_step ws j e rest wj Hwj).
      assert (<[j := handle wj e]> ws !! i = Some w) as Hw'.
      { rewrite list_lookup_insert_ne by exact Hne. exact Hw. }
      destruct (IH _ i w Hw' Hp Harmed' Honly') as [Hnever Hpending].
      split.
      * destruct (promise wj), (promise (handle wj e));
          try exact Hnever; discriminate.
      * intros Hothers.
        assert (exists v, promise (handle wj e) = Resolved v) as [v Hv].
        { destruct (Hothers j wj Hne Hwj) as [[v Hres]|[Hun Hdel]].
          - exists v. apply handle_resolved. exact Hres.
          - unfold workerDelivers in Hdel. rewrite firstEventOf_here in Hdel.
            injection Hdel as ->. cbn. rewrite Hun. eexists. reflexivity. }
        rewrite Hv.
        assert (promiseAll (<[j := handle wj e]> ws) rest = Pending) as ->.
        { apply Hpending. intros k wk Hk Hwk.
          destruct (Nat.eq_dec k j) as [->|Hkj].
          - rewrite list_lookup_insert_eq in Hwk
              by (eapply lookup_lt_Some; exact Hwj).
            injection Hwk as <-. left. exists v. exact Hv.
          - rewrite list_lookup_insert_ne in Hwk by congruence.
            destruct (Hothers k wk Hk Hwk) as [Hres|[Hun Hdel]];
              [left; exact Hres|].
            right. split; [exact Hun|]. unfold workerDelivers in *.
            rewrite firstEventOf_other in Hdel by congruence. exact Hdel. }
        destruct (promise wj); reflexivity.
Qed.

(** As long as no failure is observed and nothing of worker [i], the
    promise of worker [i] stays as it is and nothing is thrown. *)
Lemma promiseAll_first_failure pre : forall (ws : list WorkerState) i w e post,
  ws !! i = Some w -> promise w = Unsettled -> timerArmed w = true ->
  isFailure e = true ->
  (forall k e', In (k, e') pre -> k <> i /\ isFailure e' = false) ->
  promiseAll ws (pre ++ (i, e) :: post) = Thrown (failureReason e).
Proof.
  induction pre as [|[k e'] pre IH]; intros ws i w e post Hw Hp Ht He Hpre.
  - cbn [app]. rewrite (promiseAll_step ws i e post w Hw), Hp.
    rewrite (handle_failure w e Hp Ht He). reflexivity.
  - destruct (Hpre k e' (or_introl eq_refl)) as [Hk Hquiet].
    assert (forall k' e'', In (k', e'') pre -> k' <> i /\ isFailure e'' = false)
      as Hpre' by (intros k' e'' Hin; apply Hpre; right; exact Hin).
    cbn [app]. destruct (ws !! k) as [wk|] eqn:Hwk.
    + rewrite (promiseAll_step ws k e' _ wk Hwk).
      assert (promiseAll (<[k := handle wk e']> ws) (pre ++ (i, e) :: post)
              = Thrown (failureReason e)) as Hrest.
      { apply (IH _ i w); try assumption.
        rewrite list_lookup_insert_ne by exact Hk. exact Hw. }
      destruct (promise wk) eqn:Hpk; try exact Hrest.
      destruct (promise (handle wk e')) eqn:Hpk'; try exact Hrest.
      destruct (handle_rejects wk e' reason Hpk Hpk') as [Hf _]. congruence.
    + cbn [promiseAll]. rewrite Hwk. apply (IH ws i w); assumption.
Qed.

End Settling.

(** X6: a worker that exits with code 0 before it has posted its sum
    leaves the parallel strategy hanging.  The exit handler clears the
    timeout and rejects only on a non-zero code, so when nothing but such
    exits and timer ticks is observed of a dispatched worker, the
    strategy never returns a sum; and when every other dispatched worker
    delivers, it stays pending for good. *)
Theorem clean_exit_never_settles numWorkers n events (i : nat) :
  (i < length (workRanges numWorkers n))%nat ->
  firstEventOf i events = Some (ExitEvent 0) ->
  (forall e, In (i, e) events -> e = ExitEvent 0 \/ e = TimerFired) ->
  (forall total, parallelSum numWorkers n events <> Returned total)
  /\ ((forall j, j <> i -> (j < length (workRanges numWorkers n))%nat ->
                 workerDelivers events j) ->
      parallelSum numWorkers n events = Pending).
Proof.
  intros Hi Hfirst Honly.
  destruct (lookup_lt_is_Some_2 (workRanges numWorkers n) i Hi) as [r Hr].
  set (ws := map (fun r => createWorker (fst r) (snd r))
               (workRanges numWorkers n)).
  assert (ws !! i = Some (createWorker (fst r) (snd r))) as Hw.
  { unfold ws. change map with (@fmap list _).
    rewrite list_lookup_fmap, Hr. reflexivity. }
  destruct (promiseAll_hangs events ws i _ Hw eq_refl (or_intror Hfirst) Honly)
    as [Hnever Hpending].
  unfold parallelSum. fold ws. split.
  - intros total. specialize (Hnever).
    destruct (promiseAll ws events) as [parts| | |] eqn:Hall;
      try discriminate.
    exfalso. exact (Hnever parts eq_refl).
  - intros Hothers. rewrite Hpending; [reflexivity|].
    intros j wj Hj Hwj. right. unfold ws in Hwj.
    apply list_lookup_fmap_Some in Hwj. destruct Hwj as (rj & -> & Hrj).
    split; [reflexivity|]. apply Hothers; [exact Hj|].
    eapply lookup_lt_Some. exact Hrj.
Qed.

Lemma clean_exit_never_settles_witness :
  parallelSum 4 10
    [(0%nat, Message); (1%nat, ExitEvent 0); (2%nat, Message);
     (3%nat, Message); (1%nat, TimerFired)]
  = Pending.
Proof.
  apply (clean_exit_never_settles 4 10 _ 1).
  - vm_compute. lia.
  - reflexivity.
  - intros e [H|[H|[H|[H|[H|[]]]]]]; inversion H; auto.
  - intros j Hj Hlt. change (length (workRanges 4 10)) with 4%nat in Hlt.
    destruct j as [|[|[|[|j]]]]; try reflexivity; lia.
Defined.

(** X7: the parallel strategy fails fast.  When the first thing observed
    of a dispatched worker is a failure (an error, the timeout or a
    non-zero exit) and nothing before it was a failure, the strategy
    throws with the reason of that failure, whatever comes after it:
    later deliveries and later failures change nothing. *)
Theorem first_failure_rejects numWorkers n pre (i : nat) e post :
  (i < length (workRanges numWorkers n))%nat ->
  isFailure e = true ->
  (forall k e', In (k, e') pre -> k <> i /\ isFailure e' = false) ->
  parallelSum numWorkers n (pre ++ (i, e) :: post)
  = Thrown (failureReason e).
Proof.
  intros Hi He Hpre.
  destruct (lookup_lt_is_Some_2 (workRanges numWorkers n) i Hi) as [r Hr].
  unfold parallelSum.
  rewrite (promiseAll_first_failure pre _ i (createWorker (fst r) (snd r)));
    try reflexivity; try assumption.
  change map with (@fmap list _). rewrite list_lookup_fmap, Hr. reflexivity.
Qed.

Lemma first_failure_rejects_witness :
  parallelSum 4 10
    ([(0%nat, Message); (0%nat, ExitEvent 0)]
     ++ (2%nat, TimerFired)
     :: [(1%nat, ErrorEvent "late"); (3%nat, Message)])
  = Thrown "Worker timeout".
Proof.
  apply (first_failure_rejects 4 10
           [(0%nat, Message); (0%nat, ExitEvent 0)] 2 TimerFired).
  - vm_compute. lia.
  - reflexivity.
  - intros k e' [H|[H|[]]]; inversion H; split; (lia || reflexivity).
Defined.

(** ** The runner: failing calls, and the records of [main] *)

Section RunnerEdges.

Lemma runBenchmark_name flags label fn n s r s' :
  runBenchmark flags label fn n s = (Returned r, s') -> name r = label.
Proof.
  intros Hrun. destruct (runBenchmark_calls _ _ _ _ _ _ _ Hrun) as [_ Ho].
  destruct Ho as [(_ & _ & Hn)|(m & _ & ->)]; [exact Hn|reflexivity].
Qed.

Lemma runAll_names flags testSize entries results s rs s' :
  runAll flags entries testSize results s = (Returned rs, s') ->
  map name rs = map name results ++ map fst entries.
Proof.
  intros Hrun. apply runAll_results in Hrun.
  destruct Hrun as (news & -> & Hall). rewrite map_app. f_equal.
  induction Hall as [|entry r entries news (s1 & s2 & Hr) _ IH];
    [reflexivity|].
  cbn [map]. rewrite IH, (runBenchmark_name _ _ _ _ _ _ _ Hr). reflexivity.
Qed.

End RunnerEdges.

(** X8: [runBenchmark] never calls the strategy again after a call that
    did not return.  A call that threw, or that never settled, is the last
    call of the run; every call before it returned; and a throw with
    message [m] makes the run return the failure record with [m]. *)
Theorem runBenchmark_stops_at_failure
    flags label fn n s o s' (j : nat) x c :
  runBenchmark flags label fn n s = (o, s') ->
  callsOf (appended s s') !! j = Some (x, c) ->
  fate c <> Returned tt ->
  length (callsOf (appended s s')) = S j
  /\ (forall i y d, (i < j)%nat ->
        callsOf (appended s s') !! i = Some (y, d) -> returned (y, d))
  /\ invocationSizes flags n !! j = Some x
  /\ (forall m, c = Thrown m -> o = Returned (failure label m))
  /\ (c = Pending -> o = Pending).
Proof.
  intros Hrun Hj Hc.
  destruct (runBenchmark_calls _ _ _ _ _ _ _ Hrun) as [_ Ho].
  assert (exists o', Follows (invocationSizes flags n) o'
                       (callsOf (appended s s'))
                     /\ o' <> Returned tt
                     /\ (forall m, o' = Thrown m -> o = Returned (failure label m))
                     /\ (o' = Pending -> o = Pending))
    as (o' & Hf & Hne & Hthrown & Hpending).
  { destruct o as [r|m| |].
    - destruct Ho as [(Hf & _)|(m & Hf & ->)].
      + exfalso. destruct Hf as [_ Hall].
        apply Hc. exact (Forall_lookup_1 _ _ _ _ Hall Hj).
      + exists (Thrown m). split; [exact Hf|]. split; [discriminate|].
        split; [intros m' [= ->]; reflexivity|discriminate].
    - contradiction.
    - exists Pending. split; [exact Ho|]. split; [discriminate|].
      split; [discriminate|reflexivity].
    - exists Unmodelled. split; [exact Ho|]. split; [discriminate|].
      split; discriminate. }
  destruct (Follows_blame _ _ _ Hf Hne)
    as (i & y & d & Hi & Hfate & Hlen & Hbefore).
  assert (j = i) as ->.
  { pose proof (lookup_lt_Some _ _ _ Hj) as Hlt. rewrite Hlen in Hlt.
    destruct (Nat.eq_dec j i) as [Heq|Hji]; [exact Heq|].
    exfalso. apply Hc. exact (Hbefore j x c ltac:(lia) Hj). }
  rewrite Hj in Hi. injection Hi as <- <-.
  split; [exact Hlen|]. split; [exact Hbefore|].
  split; [exact (Follows_sizes _ _ _ _ _ _ Hf Hj)|]. split.
  - intros m ->. apply Hthrown. symmetry. exact Hfate.
  - intros ->. apply Hpending. symmetry. exact Hfate.
Qed.

Lemma runBenchmark_stops_at_failure_witness :
  let flaky : Strategy :=
    fun x p => (if Measure.ltb x (Measure.ofZ 500) then Returned (VNum 1)
                else Thrown "too big", p) in
  exists s',
    runBenchmark productionFlags "Flaky" flaky (Measure.ofZ 1000) sampleState
    = (Returned (failure "Flaky" "too big"), s')
    /\ length (callsOf (appended sampleState s')) = 4%nat.
Proof.
  intros flaky.
  destruct (runBenchmark productionFlags "Flaky" flaky (Measure.ofZ 1000)
              sampleState) as [o s'] eqn:Hrun.
  assert (callsOf (appended sampleState s') !! 3%nat
          = Some (Measure.ofZ 1000, Thrown "too big")) as Hcall.
  { vm_compute in Hrun. injection Hrun as <- <-. reflexivity. }
  destruct (runBenchmark_stops_at_failure productionFlags "Flaky" flaky
              (Measure.ofZ 1000) sampleState o s' 3 _ _ Hrun Hcall)
    as (Hlen & _ & _ & Hthrown & _); [discriminate|].
  exists s'. rewrite (Hthrown "too big" eq_refl). split; [reflexivity|exact Hlen].
Defined.

(** X9: [main] never throws, and when it gets to its report, the report
    is made from exactly one record for each of the nine benchmark
    entries, in the order of the list and named after the entries; the
    "Tail Recursive" entry is never among them, as [main] only uses sizes
    above 10,000. *)
Theorem main_records flags s :
  match fst (main flags s) with
  | Thrown _ => False
  | Returned report =>
      exists results,
        report = formatResults results
        /\ map name results
           = ["Mathematical Formula"; "BigInt Math Formula";
              "Assembly Style Loop"; "SIMD Style Processing";
              "Optimized Loop"; "Cache Friendly"; "Typed Array Optimal";
              "Parallel Workers"; "Realistic Stress Test"]
  | _ => True
  end.
Proof.
  unfold main, suite.
  set (N := if isFullTest flags then maxNumber config else 100000000).
  assert ((N <=? 10000) = false) as Hbig.
  { unfold N. destruct (isFullTest flags); reflexivity. }
  unfold bind at 1. destruct (liftP_now s) as [t0 ->]. unfold bind at 1.
  match goal with
  | |- context [runAll ?f ?e ?n ?r ?st] =>
      destruct (runAll f e n r st) as [[rs|m| |] s2] eqn:Hall
  end; cbn [fst]; try exact I.
  - unfold bind at 1. destruct (liftP_now s2) as [t1 ->]. cbn [fst ret].
    exists rs. split; [reflexivity|].
    rewrite (runAll_names _ _ _ _ _ _ _ Hall).
    unfold benchmarks. rewrite Hbig. reflexivity.
  - apply runAll_results in Hall. exact Hall.
Qed.

(** ** The runner: the journal of a complete run *)

Section Shape.

Variable flags : Flags.
Variable fn : Strategy.
Variable c0 : nat -> Q.
Variable h0 : nat -> Q.
Variable g : bool.
Variable J : Platform -> Prop.

Hypothesis fn_observes : Observer fn.
Hypothesis fn_keeps :
  forall x p v p', J p -> fn x p = (Returned v, p') -> J p'.
Hypothesis J_now : forall p, J p -> J (snd (performanceNow p)).
Hypothesis J_heap : forall p, J p -> J (snd (getMemoryUsage p)).

Lemma forceGc_exact count s :
  forceGc flags count s
  = (Returned tt,
     {| platform := platform s;
        journal :=
          journal s
          ++ replicate (if gcExposed (platform s) && negb (isDevelopment flags)
                        then count else 0%nat) GcForced |}).
Proof.
  unfold forceGc.
  destruct (gcExposed (platform s) && negb (isDevelopment flags)).
  - clear. revert s. induction count as [|count IH]; intros s.
    + cbn. rewrite app_nil_r. destruct s; reflexivity.
    + cbn [repeatNote]. unfold bind, note. rewrite IH. cbn.
      rewrite <- app_assoc. reflexivity.
  - cbn. rewrite app_nil_r. destruct s; reflexivity.
Qed.

Lemma default_last (final v : value) answers :
  default final (last (v :: answers)) = default v (last answers).
Proof. rewrite last_cons. destruct (last answers); reflexivity. Qed.

Lemma Elapsed_wider c lo hi lo' hi' t :
  (lo' <= lo)%nat -> (hi <= hi')%nat -> Elapsed c lo hi t ->
  Elapsed c lo' hi' t.
Proof.
  intros Hlo Hhi (a & b & H1 & H2 & H3 & ->). exists a, b.
  repeat split; lia.
Qed.

Lemma warmup_shape size runs : forall s,
  (forall p, J p -> Within false (fst (fn size p))) ->
  J (platform s) ->
  clock (platform s) = c0 -> gcExposed (platform s) = g ->
  heapUsed (platform s) = h0 ->
  exists warm s',
    warmup runs fn size s = (Returned tt, s')
    /\ journal s' = journal s ++ map (fun v => Called size (Returned v)) warm
    /\ length warm = runs /\ J (platform s')
    /\ clock (platform s') = c0 /\ gcExposed (platform s') = g
    /\ heapUsed (platform s') = h0
    /\ (heapReads (platform s) <= heapReads (platform s'))%nat
    /\ (clockReads (platform s) <= clockReads (platform s'))%nat
    /\ (forall m, ReadsAtMost m fn ->
          (clockReads (platform s')
           <= clockReads (platform s) + runs * m)%nat).
Proof.
  intros s Hret. revert s.
  induction runs as [|runs IH]; intros s HJ Hc Hg Hh.
  - exists [], s. cbn. rewrite app_nil_r. repeat split; try assumption; lia.
  - cbn [warmup]. unfold bind at 1, invoke.
    pose proof (Hret (platform s) HJ) as Hw.
    destruct (fn size (platform s)) as [o p1] eqn:Hcall.
    destruct o as [v|m| |];
      try (cbn in Hw; first [discriminate Hw|contradiction]).
    destruct (fn_observes _ _ _ _ Hcall) as (Hc1 & Hg1 & Hk1 & Hh1 & Hr1).
    pose proof (fn_keeps _ _ _ _ HJ Hcall) as HJ1.
    destruct (IH {| platform := p1;
                    journal := journal s ++ [Called size (Returned v)] |})
      as (warm & s' & Hrun & Hj & Hlen & HJ' & Hc' & Hg' & Hh' & Hr' & Hk'
          & Hm');
      cbn [platform]; [exact HJ1|congruence|congruence|congruence|].
    exists (v :: warm), s'. split; [exact Hrun|].
    cbn [journal platform] in Hj, Hr', Hk', Hm'. rewrite Hj, <- app_assoc. cbn.
    rewrite Hlen. repeat split; try assumption; try lia.
    intros m Hm. specialize (Hm' m Hm).
    pose proof (Hm _ _ _ _ Hcall). lia.
Qed.

Lemma measure_shape n runs : forall times final s,
  (forall p, J p -> Within false (fst (fn n p))) ->
  J (platform s) ->
  clock (platform s) = c0 -> gcExposed (platform s) = g ->
  heapUsed (platform s) = h0 ->
  exists answers elapsed s',
    measure runs flags fn n times final s
    = (Returned (times ++ elapsed, default final (last answers)), s')
    /\ journal s'
       = journal s
         ++ concat (zip_with (measuredBlock (forcedGcsIf flags g) n)
                      answers elapsed)
    /\ length answers = runs /\ length elapsed = runs
    /\ Forall (Elapsed c0 (clockReads (platform s))
                 (clockReads (platform s'))) elapsed
    /\ J (platform s')
    /\ clock (platform s') = c0 /\ gcExposed (platform s') = g
    /\ heapUsed (platform s') = h0
    /\ (heapReads (platform s) <= heapReads (platform s'))%nat
    /\ (clockReads (platform s) <= clockReads (platform s'))%nat
    /\ (forall m, ReadsAtMost m fn ->
          (clockReads (platform s')
           <= clockReads (platform s) + runs * (m + 2))%nat).
Proof.
  intros times final s Hret. revert times final s.
  induction runs as [|runs IH]; intros times final s HJ Hc Hg Hh.
  - exists [], [], s. cbn. rewrite !app_nil_r.
    repeat split; auto; lia.
  - cbn [measure]. unfold bind at 1. rewrite forceGc_exact, Hg. fold (forcedGcsIf flags g).
    unfold bind at 1, liftP at 1, performanceNow at 1. cbn [platform journal].
    unfold bind at 1, invoke at 1. cbn [platform journal].
    match goal with
    | |- context [fn n ?p] =>
        assert (J p) as HJ0 by (exact (J_now _ HJ));
        pose proof (Hret p HJ0) as Hw;
        destruct (fn n p) as [o p2] eqn:Hcall
    end.
    destruct o as [v|m| |];
      try (cbn in Hw; first [discriminate Hw|contradiction]).
    destruct (fn_observes _ _ _ _ Hcall) as (Hc2 & Hg2 & Hreads & Hh2 & Hr2).
    pose proof (fn_keeps _ _ _ _ HJ0 Hcall) as HJ2.
    cbn [clock gcExposed clockReads heapUsed heapReads] in Hc2, Hg2, Hreads,
      Hh2, Hr2.
    unfold bind at 1, liftP at 1, performanceNow at 1. cbn [platform journal].
    unfold bind at 1, note at 1. cbn [platform journal].
    match goal with
    | |- context [measure runs flags fn n ?ts v ?st] =>
        destruct (IH ts v st)
          as (answers & elapsed & s' & Hrun & Hj & Hla & Hle & Hel & HJ'
              & Hc' & Hg' & Hh' & Hr' & Hk' & Hm');
          cbn [platform clock gcExposed heapUsed];
          [exact (J_now _ HJ2)|congruence|congruence|congruence|]
    end.
    cbn [platform heapReads clockReads] in Hr', Hk', Hm', Hel.
    rewrite Hrun.
    match type of Hrun with
    | context [times ++ [?t]] =>
        exists (v :: answers), (t :: elapsed), s'
    end.
    split.
    { rewrite <- app_assoc. cbn [app]. rewrite default_last. reflexivity. }
    split.
    { rewrite Hj. cbn [journal zip_with concat]. unfold measuredBlock at 2.
      rewrite <- !app_assoc. reflexivity. }
    split; [cbn; rewrite Hla; reflexivity|].
    split; [cbn; rewrite Hle; reflexivity|].
    split.
    { constructor.
      - exists (clockReads (platform s)), (clockReads p2).
        split; [lia|]. split; [lia|]. split; [lia|].
        unfold reading. rewrite Hc2, Hc. reflexivity.
      - eapply Forall_impl; [exact Hel|]. intros t.
        apply Elapsed_wider; lia. }
    repeat split; try assumption; try lia.
    intros m Hm. specialize (Hm' m Hm).
    pose proof (Hm _ _ _ _ Hcall) as Hcount.
    cbn [clockReads] in Hcount. lia.
Qed.

Lemma runBenchmark_shape label n s :
  ReturnsUnder J fn (invocationSizes flags n) -> J (platform s) ->
  clock (platform s) = c0 -> gcExposed (platform s) = g ->
  heapUsed (platform s) = h0 ->
  exists r s' warm answers elapsed,
    runBenchmark flags label fn n s = (Returned r, s')
    /\ journal s'
       = journal s
         ++ map (fun v => Called (warmupSize n) (Returned v)) warm
         ++ concat (zip_with (measuredBlock (forcedGcsIf flags g) n)
                      answers elapsed)
    /\ length warm = (if isDevelopment flags then 0%nat else 3%nat)
    /\ length answers = 5%nat /\ length elapsed = 5%nat
    /\ Forall (Elapsed c0 (clockReads (platform s))
                 (clockReads (platform s'))) elapsed
    /\ mean elapsed = Some (time r)
    /\ result r = default (VNum 0) (last answers)
    /\ error r = None
    /\ J (platform s') /\ clock (platform s') = c0
    /\ HeapDelta h0 (memoryUsed r)
    /\ (clockReads (platform s) <= clockReads (platform s'))%nat
    /\ (forall m, ReadsAtMost m fn ->
          (clockReads (platform s')
           <= clockReads (platform s) + readsOfRun m)%nat).
Proof.
  intros [_ Hret] HJ Hc Hg Hh.
  assert (forall p, J p -> Within false (fst (fn n p))) as Hn.
  { intros p Hp. apply Hret; [|exact Hp]. unfold invocationSizes.
    apply in_or_app. right. left. reflexivity. }
  assert (exists warm s1,
            (if negb (isDevelopment flags)
             then warmup (warmupRuns config) fn (warmupSize n)
             else ret tt) s = (Returned tt, s1)
            /\ journal s1
               = journal s
                 ++ map (fun v => Called (warmupSize n) (Returned v)) warm
            /\ length warm = (if isDevelopment flags then 0%nat else 3%nat)
            /\ J (platform s1)
            /\ clock (platform s1) = c0 /\ gcExposed (platform s1) = g
            /\ heapUsed (platform s1) = h0
            /\ (clockReads (platform s) <= clockReads (platform s1))%nat
            /\ (forall m, ReadsAtMost m fn ->
                  (clockReads (platform s1)
                   <= clockReads (platform s) + 3 * m)%nat))
    as (warm & s1 & Hwarm & Hj1 & Hlw & HJ1 & Hc1 & Hg1 & Hh1 & Hk1 & Hm1).
  { pose proof (warmup_shape (warmupSize n) (warmupRuns config) s) as Hws.
    destruct (isDevelopment flags) eqn:Hdev; cbn [negb].
    - exists [], s. cbn. rewrite app_nil_r.
      repeat split; try assumption; lia.
    - destruct Hws
        as (warm & s1 & H1 & H2 & H3 & H4 & H5 & H6 & H7 & _ & H8 & H9);
        try assumption;
        [|exists warm, s1; repeat split; assumption].
      intros p Hp. apply Hret; [|exact Hp]. unfold invocationSizes.
      rewrite Hdev. left. reflexivity. }
  unfold runBenchmark, tryCatch, measuredRun.
  unfold bind at 1. rewrite Hwarm.
  unfold bind at 1, liftP at 1, getMemoryUsage at 1. cbn [platform journal].
  unfold bind at 1.
  match goal with
  | |- context [measure ?k flags fn n [] ?final ?st] =>
      destruct (measure_shape n k [] final st Hn)
        as (answers & elapsed & s2 & Hrun & Hj2 & Hla & Hle & Hel & HJ2
            & Hc2 & _ & Hh2 & Hr2 & Hk2 & Hm2);
        cbn [platform clock gcExposed heapUsed];
        [exact (J_heap _ HJ1)|assumption|assumption|assumption|]
  end.
  cbn [platform heapReads clockReads] in Hr2, Hk2, Hm2, Hel.
  rewrite Hrun. cbn [app].
  unfold bind at 1, liftP at 1, getMemoryUsage at 1.
  cbn [platform journal fst snd].
  destruct elapsed as [|first rest]; [discriminate Hle|].
  unfold bind at 1, reduceSum, ret. cbn [fst snd].
  eexists _, _, warm, answers, (first :: rest).
  split; [reflexivity|]. cbn [journal platform]. rewrite Hj2. cbn [journal].
  rewrite Hj1, <- app_assoc.
  split; [reflexivity|]. split; [exact Hlw|].
  split; [exact Hla|]. split; [exact Hle|].
  cbn [clockReads].
  split.
  { eapply Forall_impl; [exact Hel|]. intros t.
    apply Elapsed_wider; lia. }
  cbn [time result error mean memoryUsed]. rewrite Hle.
  split; [reflexivity|]. split; [reflexivity|]. split; [reflexivity|].
  split; [exact (J_heap _ HJ2)|]. split; [exact Hc2|].
  split.
  { exists (heapReads (platform s1)), (heapReads (platform s2)).
    split; [lia|]. unfold reading. rewrite Hh2, Hh1. reflexivity. }
  split; [lia|].
  intros m Hm. specialize (Hm1 m Hm). specialize (Hm2 m Hm).
  unfold readsOfRun. change (testRuns config) with 5%nat in Hm2. lia.
Qed.

End Shape.

Section CompleteRun.

Lemma within_positive lo hi t : (0 < lo)%Q -> within lo hi t -> positiveNum t.
Proof.
  intros Hlo (q & -> & H1 & _). exists q. split; [reflexivity|].
  eapply Qlt_le_trans; eassumption.
Qed.

Lemma sub_within lo hi a b :
  isDouble lo -> isDouble hi -> (lo <= a - b)%Q -> (a - b <= hi)%Q ->
  within lo hi (Double.sub (Fin a) (Fin b)).
Proof.
  intros Hlo Hhi H1 H2. unfold Double.sub.
  destruct (sub_fin a b) as (q & -> & Hq).
  apply round_within; try assumption; rewrite Hq; assumption.
Qed.

Lemma add_within lo1 hi1 lo2 hi2 lo hi x y :
  isDouble lo -> isDouble hi ->
  within lo1 hi1 x -> within lo2 hi2 y ->
  (lo <= lo1 + lo2)%Q -> (hi1 + hi2 <= hi)%Q ->
  within lo hi (Double.add x y).
Proof.
  intros Hlo Hhi (a & -> & Ha1 & Ha2) (b & -> & Hb1 & Hb2) H1 H2.
  unfold Double.add, Measure.add, Measure.fin.
  apply round_within; try assumption; rewrite Qred_correct.
  - eapply Qle_trans; [exact H1|]. apply Qplus_le_compat; assumption.
  - eapply Qle_trans; [|exact H2]. apply Qplus_le_compat; assumption.
Qed.

Lemma div_within lo hi a b :
  isDouble lo -> isDouble hi -> (0 < b)%Q ->
  (lo * b <= a)%Q -> (a <= hi * b)%Q ->
  within lo hi (Double.div (Fin a) (Fin b)).
Proof.
  intros Hlo Hhi Hb H1 H2. unfold Double.div, Measure.div.
  assert (Measure.isZero b = false) as ->.
  { apply Bool.not_true_iff_false. rewrite isZero_eq. intros Hz.
    rewrite Hz in Hb. exact (Qlt_irrefl _ Hb). }
  unfold Measure.fin.
  apply round_within; try assumption; rewrite Qred_correct.
  - apply Qle_shift_div_l; assumption.
  - apply Qle_shift_div_r; assumption.
Qed.

(** The sum of measurements between [lo] and [hi], when the multiples
    of the bounds it passes are doubles. *)
Lemma fold_add_within lo hi (count : nat) :
  (forall i, (1 <= i <= count)%nat ->
     isDouble (inject_Z (Z.of_nat i) * lo)
     /\ isDouble (inject_Z (Z.of_nat i) * hi)) ->
  forall rest first (j : nat),
    (1 <= j)%nat -> (j + length rest <= count)%nat ->
    within (inject_Z (Z.of_nat j) * lo) (inject_Z (Z.of_nat j) * hi) first ->
    Forall (within lo hi) rest ->
    within (inject_Z (Z.of_nat (j + length rest)) * lo)
      (inject_Z (Z.of_nat (j + length rest)) * hi)
      (fold_left Double.add rest first).
Proof.
  intros Hdoubles.
  induction rest as [|t rest IH]; intros first j Hj Hcount Hfirst Hrest.
  - cbn [length fold_left]. rewrite Nat.add_0_r. exact Hfirst.
  - apply Forall_cons_1 in Hrest. destruct Hrest as [Ht Hrest].
    cbn [length fold_left] in *.
    replace (j + S (length rest))%nat with (S j + length rest)%nat by lia.
    apply IH; [lia|lia| |exact Hrest].
    destruct (Hdoubles (S j) ltac:(lia)) as [Hlo Hhi].
    eapply add_within; [exact Hlo|exact Hhi|exact Hfirst|exact Ht| |];
      rewrite Nat2Z.inj_succ; unfold Z.succ; rewrite inject_Z_plus;
      ring_simplify; apply Qle_refl.
Qed.

(** The mean of measurements between [lo] and [hi] lies between [lo]
    and [hi]. *)
Lemma mean_within lo hi ts t :
  isDouble lo -> isDouble hi ->
  (forall i, (1 <= i <= length ts)%nat ->
     isDouble (inject_Z (Z.of_nat i) * lo)
     /\ isDouble (inject_Z (Z.of_nat i) * hi)) ->
  Forall (within lo hi) ts -> mean ts = Some t -> within lo hi t.
Proof.
  intros Hlo Hhi Hdoubles Hall Hmean.
  destruct ts as [|first rest]; [discriminate Hmean|].
  injection Hmean as <-.
  apply Forall_cons_1 in Hall. destruct Hall as [Hfirst Hrest].
  destruct (fold_add_within lo hi (length (first :: rest)) Hdoubles
              rest first 1%nat) as (q & -> & Hq1 & Hq2);
    [lia|cbn [length]; lia| |exact Hrest|].
  { change (inject_Z (Z.of_nat 1)) with 1%Q.
    eapply within_wider; [| |exact Hfirst]; rewrite Qmult_1_l; apply Qle_refl. }
  change (1 + length rest)%nat with (length (first :: rest)) in Hq1, Hq2.
  unfold Measure.ofZ. apply div_within; try assumption.
  - change 0%Q with (inject_Z 0). rewrite <- Zlt_Qlt. cbn [length]. lia.
  - rewrite Qmult_comm. exact Hq1.
  - rewrite Qmult_comm. exact Hq2.
Qed.

Lemma Ticking_narrower c lo hi lo' hi' :
  (lo <= lo')%nat -> (hi' <= hi)%nat -> Ticking c lo hi -> Ticking c lo' hi'.
Proof.
  intros Hlo Hhi Htick a b Ha Hab Hb. apply Htick; lia.
Qed.

Lemma isDouble_tick : isDouble tick.
Proof. repeat split; vm_compute; reflexivity. Qed.

Lemma isDouble_horizon : isDouble horizon.
Proof. repeat split; vm_compute; reflexivity. Qed.

(** On a ticking clock an elapsed time is between a tick and the
    horizon. *)
Lemma Elapsed_within c lo hi t :
  Ticking c lo hi -> Elapsed c lo hi t -> within tick horizon t.
Proof.
  intros Htick (a & b & Ha & Hab & Hb & ->).
  destruct (Htick a b Ha Hab Hb) as (x & y & -> & -> & Hx & Hxy & Hy).
  apply sub_within; [apply isDouble_tick|apply isDouble_horizon| |].
  - apply (Qplus_le_l _ _ x). ring_simplify.
    rewrite Qplus_comm. exact Hxy.
  - apply (Qplus_le_l _ _ x). ring_simplify.
    eapply Qle_trans; [exact Hy|].
    rewrite <- (Qplus_0_l horizon) at 1. apply Qplus_le_l. exact Hx.
Qed.

(** The mean of five elapsed times of a ticking clock. *)
Lemma mean_ticking ts t :
  length ts = 5%nat -> Forall (within tick horizon) ts -> mean ts = Some t ->
  within tick horizon t.
Proof.
  intros Hlen.
  apply mean_within; [apply isDouble_tick|apply isDouble_horizon|].
  rewrite Hlen. intros i Hi.
  assert (i = 1 \/ i = 2 \/ i = 3 \/ i = 4 \/ i = 5)%nat
    as [->|[->|[->|[->| ->]]]] by lia;
    (split; repeat split; vm_compute; reflexivity).
Qed.

Lemma onSize_observer (f : Z -> value) : Observer (onSize (fun n => ret (f n))).
Proof.
  intros x p v p'. unfold onSize. destruct (asSize x); [|discriminate].
  intros [= _ <-]. repeat split; lia.
Qed.

Lemma stressEntry_observer : Observer stressEntry.
Proof.
  intros x p v p'. unfold stressEntry, onSize.
  destruct (asSize x); [|discriminate]. cbn. intros [= _ <-]. cbn.
  repeat split; lia.
Qed.

Lemma parallelWorkers_observer : Observer parallelWorkers.
Proof.
  intros x p v p'. unfold parallelWorkers, onSize.
  destruct (asSize x); [|discriminate].
  destruct (parallelSum _ _ _); intros [= _ <-]. cbn. repeat split; lia.
Qed.

Lemma typedArrayEntry_observer : Observer typedArrayEntry.
Proof.
  intros x p v p'. unfold typedArrayEntry, onSize.
  destruct (asSize x); [|discriminate].
  destruct (typedArrayOptimal _); intros [= _ <-]. repeat split; lia.
Qed.

Lemma tailRecursiveEntry_observer : Observer tailRecursiveEntry.
Proof.
  intros x p v p'. unfold tailRecursiveEntry, onSize.
  destruct (asSize x); [|discriminate].
  destruct (tailRecursive _ _ _ _); intros [= _ <-]. repeat split; lia.
Qed.

(** Every entry of the suite only observes the platform. *)
Lemma benchmarks_observers testSize :
  Forall (fun entry => Observer (snd entry)) (benchmarks testSize).
Proof.
  unfold benchmarks. apply Forall_app_2.
  - repeat (apply Forall_cons_2 || apply Forall_nil_2); cbn [snd];
      first [apply onSize_observer|apply typedArrayEntry_observer
            |apply stressEntry_observer|apply parallelWorkers_observer].
  - destruct (testSize <=? 10000); [|apply Forall_nil_2].
    apply Forall_cons_2; [apply tailRecursiveEntry_observer|apply Forall_nil_2].
Qed.

Lemma onSize_reads (f : Z -> value) m :
  ReadsAtMost m (onSize (fun n => ret (f n))).
Proof.
  intros x p v p'. unfold onSize. destruct (asSize x); [|discriminate].
  intros [= _ <-]. lia.
Qed.

Lemma typedArrayEntry_reads m : ReadsAtMost m typedArrayEntry.
Proof.
  intros x p v p'. unfold typedArrayEntry, onSize.
  destruct (asSize x); [|discriminate].
  destruct (typedArrayOptimal _); intros [= _ <-]. lia.
Qed.

Lemma parallelWorkers_reads m : ReadsAtMost m parallelWorkers.
Proof.
  intros x p v p'. unfold parallelWorkers, onSize.
  destruct (asSize x); [|discriminate].
  destruct (parallelSum _ _ _); intros [= _ <-]. cbn. lia.
Qed.

Lemma tailRecursiveEntry_reads m : ReadsAtMost m tailRecursiveEntry.
Proof.
  intros x p v p'. unfold tailRecursiveEntry, onSize.
  destruct (asSize x); [|discriminate].
  destruct (tailRecursive _ _ _ _); intros [= _ <-]. lia.
Qed.

(** The stress test reads the clock twice. *)
Lemma stressEntry_reads : ReadsAtMost 2 stressEntry.
Proof.
  intros x p v p'. unfold stressEntry, onSize.
  destruct (asSize x); [|discriminate]. cbn. intros [= _ <-]. cbn. lia.
Qed.

(** No entry of the suite reads the clock more than twice in a call. *)
Lemma benchmarks_reads testSize :
  Forall (fun entry => ReadsAtMost 2 (snd entry)) (benchmarks testSize).
Proof.
  unfold benchmarks. apply Forall_app_2.
  - repeat (apply Forall_cons_2 || apply Forall_nil_2); cbn [snd];
      first [apply onSize_reads|apply typedArrayEntry_reads
            |apply stressEntry_reads|apply parallelWorkers_reads].
  - destruct (testSize <=? 10000); [|apply Forall_nil_2].
    apply Forall_cons_2; [apply tailRecursiveEntry_reads|apply Forall_nil_2].
Qed.

Section CompleteSuite.

Variable flags : Flags.
Variable c0 : nat -> Q.
Variable J : Platform -> Prop.
Variable m : nat.

Hypothesis J_now : forall p, J p -> J (snd (performanceNow p)).
Hypothesis J_heap : forall p, J p -> J (snd (getMemoryUsage p)).

(** When every strategy returns and the clock ticks, the loop of [main]
    gives every entry a record without an error whose mean time lies
    between a tick and the horizon. *)
Lemma runAll_complete testSize entries : forall results s,
  Forall (fun entry =>
            Observer (snd entry) /\ ReadsAtMost m (snd entry)
            /\ ReturnsUnder J (snd entry)
                 (invocationSizes flags (Measure.ofZ testSize))) entries ->
  J (platform s) -> clock (platform s) = c0 ->
  Ticking c0 (clockReads (platform s))
    (clockReads (platform s) + length entries * readsOfRun m) ->
  exists news s',
    runAll flags entries testSize results s = (Returned (results ++ news), s')
    /\ map name news = map fst entries
    /\ Forall (fun r => error r = None /\ within tick horizon (time r)) news
    /\ J (platform s') /\ clock (platform s') = c0
    /\ (clockReads (platform s) <= clockReads (platform s'))%nat
    /\ (clockReads (platform s')
        <= clockReads (platform s) + length entries * readsOfRun m)%nat.
Proof.
  induction entries as [|[label fn] rest IH]; intros results s Hall HJ Hc Htick.
  - exists [], s. rewrite app_nil_r. cbn [length].
    repeat split; try assumption; try lia. constructor.
  - apply Forall_cons_1 in Hall. destruct Hall as [(Hobs & Hreads & Hfn) Hrest].
    cbn [snd] in Hobs, Hreads, Hfn. rewrite runAll_step.
    destruct (runBenchmark_shape flags fn c0 (heapUsed (platform s))
                (gcExposed (platform s)) J
                Hobs (proj1 Hfn) J_now J_heap label (Measure.ofZ testSize) s
                Hfn HJ Hc eq_refl eq_refl)
      as (r & s1 & warm & answers & elapsed & Hrun & _ & _ & _ & Hle & Hel
          & Hmean & _ & Herr & HJ1 & Hc1 & _ & Hlow & Hup).
    specialize (Hup m Hreads). cbn [length] in Htick |- *.
    rewrite Hrun, forceGc_exact. cbn [snd].
    match goal with
    | |- context [runAll flags rest testSize ?rs ?st] =>
        destruct (IH rs st Hrest HJ1 Hc1)
          as (news & s' & -> & Hnames & Hnews & HJ' & Hc' & Hlow' & Hup')
    end.
    { cbn [platform]. eapply Ticking_narrower; [| |exact Htick]; lia. }
    cbn [platform] in Hlow', Hup'.
    exists (r :: news), s'. rewrite <- app_assoc.
    split; [reflexivity|]. split.
    { cbn [map fst]. rewrite Hnames.
      rewrite (runBenchmark_name _ _ _ _ _ _ _ Hrun). reflexivity. }
    split; [|repeat split; try assumption; lia].
    constructor; [|exact Hnews]. split; [exact Herr|].
    apply (mean_ticking elapsed); [exact Hle| |exact Hmean].
    eapply Forall_impl; [exact Hel|].
    intros t Ht. apply (Elapsed_within c0 (clockReads (platform s))
                          (clockReads (platform s1))); [|exact Ht].
    eapply Ticking_narrower; [| |exact Htick]; lia.
Qed.

End CompleteSuite.

End CompleteRun.

Section SampleFacts.

(** The sample clock ticks over its first thousand readings. *)
Lemma sample_clock_ticks lo hi :
  (hi <= 1000)%nat -> Ticking (clock samplePlatform) lo hi.
Proof.
  intros Hhi a b _ Hab Hb. unfold reading. cbn [clock samplePlatform].
  exists (inject_Z (Z.of_nat (a * a))), (inject_Z (Z.of_nat (b * b))).
  assert (2 ^ 53 = 9007199254740992) as Hpow by reflexivity.
  split; [apply round_ofZ; nia|]. split; [apply round_ofZ; nia|].
  split; [change 0%Q with (inject_Z 0); rewrite <- Zle_Qle; lia|].
  split.
  - apply Qle_trans with (inject_Z (Z.of_nat (a * a)) + 1)%Q.
    + apply Qplus_le_r. unfold tick. vm_compute. discriminate.
    + change 1%Q with (inject_Z 1). rewrite <- inject_Z_plus, <- Zle_Qle. nia.
  - unfold horizon. rewrite <- (pow2_Z 53) by lia. rewrite <- Zle_Qle. nia.
Qed.

Lemma validOf_all results :
  Forall (fun r => error r = None) results ->
  validOf results = results /\ failedOf results = [].
Proof.
  unfold validOf, failedOf. induction 1 as [|r results Hr _ [IH1 IH2]]; cbn.
  - split; reflexivity.
  - rewrite (hasError_none r Hr). cbn. rewrite IH1, IH2. split; reflexivity.
Qed.

Lemma timesOf_blocks gcs n : forall answers elapsed,
  length answers = length elapsed ->
  timesOf (concat (zip_with (measuredBlock gcs n) answers elapsed)) = elapsed.
Proof.
  induction answers as [|a answers IH]; intros [|t elapsed] Hlen;
    try discriminate Hlen; [reflexivity|].
  cbn [zip_with concat]. unfold measuredBlock at 1.
  rewrite <- app_assoc, timesOf_app, timesOf_gc. cbn [app].
  change (timesOf (Called n (Returned a) :: Timed t :: ?l))
    with (t :: timesOf l).
  rewrite IH; [reflexivity|]. cbn in Hlen. lia.
Qed.

Lemma timesOf_warm size warm :
  timesOf (map (fun v => Called size (Returned v)) warm) = [].
Proof. induction warm; [reflexivity|assumption]. Qed.

Lemma answersOf_warm size warm :
  answersOf (map (fun v => Called size (Returned v)) warm) = warm.
Proof.
  induction warm as [|v warm IH]; [reflexivity|].
  cbn [map]. change (answersOf (Called size (Returned v) :: ?l))
    with (v :: answersOf l). rewrite IH. reflexivity.
Qed.

Lemma answersOf_blocks gcs n : forall answers elapsed,
  length answers = length elapsed ->
  answersOf (concat (zip_with (measuredBlock gcs n) answers elapsed))
  = answers.
Proof.
  induction answers as [|a answers IH]; intros [|t elapsed] Hlen;
    try discriminate Hlen; [reflexivity|].
  cbn [zip_with concat]. unfold measuredBlock at 1.
  rewrite <- app_assoc, answersOf_app.
  unfold answersOf at 1. rewrite callsOf_gc. cbn [omap list_omap app].
  change (answersOf (Called n (Returned a) :: Timed t :: ?l))
    with (a :: answersOf l).
  rewrite IH; [reflexivity|]. cbn in Hlen. lia.
Qed.

(** The journal of a run that returns on every platform, with the
    calls it shows traced to the strategy. *)
Lemma runBenchmark_observed flags label fn n s :
  Observer fn -> ReturnsOn fn (invocationSizes flags n) ->
  exists r s' warm answers elapsed,
    runBenchmark flags label fn n s = (Returned r, s')
    /\ appended s s'
       = map (fun v => Called (warmupSize n) (Returned v)) warm
         ++ concat (zip_with (measuredBlock (forcedGcs flags (platform s)) n)
                      answers elapsed)
    /\ Traced fn (Reaches fn (platform s)) 0 (appended s s')
    /\ Forall2 (Measured fn n) answers elapsed
    /\ length warm = (if isDevelopment flags then 0%nat else 3%nat)
    /\ length answers = 5%nat /\ length elapsed = 5%nat
    /\ timesOf (appended s s') = elapsed
    /\ Forall (Elapsed (clock (platform s)) (clockReads (platform s))
                 (clockReads (platform s'))) elapsed
    /\ mean elapsed = Some (time r)
    /\ result r = default (VNum 0) (last answers)
    /\ error r = None
    /\ HeapDelta (heapUsed (platform s)) (memoryUsed r)
    /\ (forall m, ReadsAtMost m fn ->
          (clockReads (platform s')
           <= clockReads (platform s) + readsOfRun m)%nat).
Proof.
  intros Hobs Hret.
  destruct (runBenchmark_shape flags fn (clock (platform s))
              (heapUsed (platform s))
              (gcExposed (platform s)) (fun _ => True) Hobs
              (fun _ _ _ _ _ _ => I) (fun _ _ => I) (fun _ _ => I)
              label n s)
    as (r & s' & warm & answers & elapsed & Hrun & Hj & Hlw & Hla & Hle
        & Hel & Hmean & Hres & Herr & _ & _ & Hmem & _ & Hup);
    try reflexivity.
  { split; [intros; exact I|]. intros x p Hin _. apply Hret. exact Hin. }
  destruct (runBenchmark_traced flags fn (Reaches fn (platform s))
              (reaches_now fn (platform s)) (reaches_heap fn (platform s))
              (fun k p x v p' H => reaches_call fn (platform s) k p x v p' H)
              label n 0%nat s _ s' (reaches_start fn (platform s)) Hrun)
    as (X & HjX & Htr & _).
  assert (appended s s' = X) as HX by (apply appended_app; exact HjX).
  exists r, s', warm, answers, elapsed. split; [exact Hrun|].
  assert (appended s s'
          = map (fun v => Called (warmupSize n) (Returned v)) warm
            ++ concat (zip_with (measuredBlock (forcedGcs flags (platform s)) n)
                         answers elapsed)) as Happ.
  { apply appended_app. exact Hj. }
  assert (timesOf (appended s s') = elapsed) as Htimes.
  { rewrite Happ, timesOf_app, timesOf_warm. cbn [app].
    apply timesOf_blocks. congruence. }
  assert (answersOf (appended s s') = warm ++ answers) as Hanswers.
  { rewrite Happ, answersOf_app, answersOf_warm, answersOf_blocks;
      [reflexivity|congruence]. }
  split; [exact Happ|]. split; [rewrite HX; exact Htr|].
  split.
  { destruct (runBenchmark_measured flags fn label n s r s' Hrun Herr)
      as (X' & warm' & answers' & Hj' & Ha' & Hw' & Hm').
    assert (appended s s' = X') as HX' by (apply appended_app; exact Hj').
    rewrite <- HX', Htimes, Hanswers in *.
    apply app_inj_1 in Ha'; [|congruence].
    destruct Ha' as [_ ->]. exact Hm'. }
  split; [exact Hlw|]. split; [exact Hla|]. split; [exact Hle|].
  split; [exact Htimes|].
  repeat split; assumption.
Qed.

End SampleFacts.

(** X10: the journal of a complete run.  For a strategy that only
    observes the platform and returns on the sizes it is called with,
    [runBenchmark] writes, in this order: the warm-up calls on the reduced
    size, three of them, or none in development mode; then five times the
    same block: two forced collections when the collector is exposed and
    the mode is not development, and none otherwise, the call on the full
    size, and the elapsed time of that call.  Nothing else is written.
    Every call written is a call of the strategy, on a platform the run
    has reached, and the answer written is what the strategy returned
    there; the elapsed time of a block is the reading of the clock after
    its call minus the reading before it.  The result of the record is the answer of the last call, and
    its memory figure is a later reading of the heap gauge minus an
    earlier one. *)
Theorem runBenchmark_journal flags label fn n s :
  Observer fn -> ReturnsOn fn (invocationSizes flags n) ->
  exists r s' warm answers elapsed,
    runBenchmark flags label fn n s = (Returned r, s')
    /\ appended s s'
       = map (fun v => Called (warmupSize n) (Returned v)) warm
         ++ concat (zip_with (measuredBlock (forcedGcs flags (platform s)) n)
                      answers elapsed)
    /\ Traced fn (Reaches fn (platform s)) 0 (appended s s')
    /\ Forall2 (Measured fn n) answers elapsed
    /\ length warm = (if isDevelopment flags then 0%nat else 3%nat)
    /\ length answers = 5%nat /\ length elapsed = 5%nat
    /\ result r = default (VNum 0) (last answers)
    /\ HeapDelta (heapUsed (platform s)) (memoryUsed r).
Proof.
  intros Hobs Hret.
  destruct (runBenchmark_observed flags label fn n s Hobs Hret)
    as (r & s' & warm & answers & elapsed & Hrun & Hj & Htr & Hms & Hlw & Hla
        & Hle & _ & _ & _ & Hres & _ & Hmem & _).
  exists r, s', warm, answers, elapsed. repeat split; assumption.
Qed.

(** The journal of the development run of the loop strategy on N = 1000
    shows five calls that returned 499500, the sum the strategy
    computes. *)
Lemma runBenchmark_journal_witness :
  exists r s' warm answers elapsed,
    runBenchmark developmentFlags "Optimized Loop"
      (numberStrategy optimizedLoop) (Measure.ofZ 1000) sampleState
    = (Returned r, s')
    /\ appended sampleState s'
       = map (fun v => Called (warmupSize (Measure.ofZ 1000)) (Returned v))
           warm
         ++ concat (zip_with (measuredBlock 0 (Measure.ofZ 1000))
                      answers elapsed)
    /\ Traced (numberStrategy optimizedLoop)
         (Reaches (numberStrategy optimizedLoop) samplePlatform) 0
         (appended sampleState s')
    /\ length warm = 0%nat
    /\ length answers = 5%nat /\ length elapsed = 5%nat
    /\ result r = default (VNum 0) (last answers)
    /\ HeapDelta (heapUsed samplePlatform) (memoryUsed r)
    /\ callsOf (appended sampleState s')
       = replicate 5 (Measure.ofZ 1000, Returned (VNum 499500))
    /\ timesOf (appended sampleState s') = map Measure.ofZ [1; 5; 9; 13; 17].
Proof.
  destruct (runBenchmark_journal developmentFlags "Optimized Loop"
              (numberStrategy optimizedLoop) (Measure.ofZ 1000) sampleState)
    as (r & s' & warm & answers & elapsed & Hrun & Hj & Htr & _ & Hrest).
  - apply onSize_observer.
  - intros x p Hin. vm_compute in Hin.
    repeat (destruct Hin as [<-|Hin]; [vm_compute; exact I|]).
    contradiction.
  - exists r, s', warm, answers, elapsed.
    split; [exact Hrun|]. split; [exact Hj|]. split; [exact Htr|].
    assert (callsOf (appended sampleState s')
            = replicate 5 (Measure.ofZ 1000, Returned (VNum 499500))
            /\ timesOf (appended sampleState s')
               = map Measure.ofZ [1; 5; 9; 13; 17]) as [Hcalls Htimes].
    { vm_compute in Hrun. injection Hrun as _ <-.
      split; vm_compute; reflexivity. }
    destruct Hrest as (H1 & H2 & H3 & H4 & H5).
    repeat split; assumption.
Defined.

(** X11: on a clock that ticks over the readings of the run, a complete
    run of a strategy that only observes the platform, and reads the
    clock at most [m] times in a call, records five elapsed times; each
    is the difference of a later and an earlier reading taken during the
    run, a positive finite number, and the time of the record, their
    mean, is a positive finite number. *)
Theorem runBenchmark_positive_time flags label fn n m s :
  Observer fn -> ReadsAtMost m fn ->
  ReturnsOn fn (invocationSizes flags n) ->
  Ticking (clock (platform s)) (clockReads (platform s))
    (clockReads (platform s) + readsOfRun m) ->
  exists r s' elapsed,
    runBenchmark flags label fn n s = (Returned r, s')
    /\ timesOf (appended s s') = elapsed
    /\ length elapsed = 5%nat
    /\ Forall (Elapsed (clock (platform s)) (clockReads (platform s))
                 (clockReads (platform s) + readsOfRun m)) elapsed
    /\ Forall positiveNum elapsed
    /\ mean elapsed = Some (time r)
    /\ positiveTime r /\ error r = None.
Proof.
  intros Hobs Hreads Hret Htick.
  destruct (runBenchmark_observed flags label fn n s Hobs Hret)
    as (r & s' & warm & answers & elapsed & Hrun & _ & _ & _ & _ & _ & Hle
        & Htimes & Hel & Hmean & _ & Herr & _ & Hup).
  specialize (Hup m Hreads).
  assert (Forall (Elapsed (clock (platform s)) (clockReads (platform s))
                    (clockReads (platform s) + readsOfRun m)) elapsed)
    as Hel'.
  { eapply Forall_impl; [exact Hel|]. intros t.
    apply Elapsed_wider; lia. }
  assert (Forall (within tick horizon) elapsed) as Hin.
  { eapply Forall_impl; [exact Hel'|]. intros t.
    apply Elapsed_within. exact Htick. }
  exists r, s', elapsed. split; [exact Hrun|]. split; [exact Htimes|].
  split; [exact Hle|]. split; [exact Hel'|].
  split.
  { eapply Forall_impl; [exact Hin|]. intros t.
    apply within_positive. reflexivity. }
  split; [exact Hmean|]. split; [|exact Herr].
  apply (within_positive tick horizon); [reflexivity|].
  exact (mean_ticking elapsed _ Hle Hin Hmean).
Qed.

(** On the sample clock the run of the loop strategy on N = 1000
    measures 1, 5, 9, 13 and 17 ms, 9 ms in the mean. *)
Lemma runBenchmark_positive_time_witness :
  exists r s' elapsed,
    runBenchmark productionFlags "Optimized Loop"
      (numberStrategy optimizedLoop) (Measure.ofZ 1000) sampleState
    = (Returned r, s')
    /\ timesOf (appended sampleState s') = elapsed
    /\ length elapsed = 5%nat
    /\ Forall positiveNum elapsed
    /\ positiveTime r /\ error r = None
    /\ elapsed = map Measure.ofZ [1; 5; 9; 13; 17]
    /\ time r = Measure.ofZ 9.
Proof.
  destruct (runBenchmark_positive_time productionFlags "Optimized Loop"
              (numberStrategy optimizedLoop) (Measure.ofZ 1000) 0 sampleState)
    as (r & s' & elapsed & Hrun & Htimes & Hlen & _ & Hpos & _ & Htime & Herr).
  - apply onSize_observer.
  - apply onSize_reads.
  - intros x p Hin. vm_compute in Hin.
    repeat (destruct Hin as [<-|Hin]; [vm_compute; exact I|]).
    contradiction.
  - apply sample_clock_ticks. cbn. lia.
  - exists r, s', elapsed.
    assert (timesOf (appended sampleState s')
            = map Measure.ofZ [1; 5; 9; 13; 17]
            /\ time r = Measure.ofZ 9) as [Hvalues Hmean].
    { vm_compute in Hrun. injection Hrun as <- <-.
      split; vm_compute; reflexivity. }
    rewrite Htimes in Hvalues. repeat split; assumption.
Defined.

(** X12: on a platform whose clock ticks over the readings [main] takes
    and whose workers always deliver, [main] ranks every benchmark.  Its
    report is a ranking with an empty list of failures; the rows are the
    records of the nine entries, sorted ascending by mean time, and every
    mean time is a positive finite number, so every speedup is one too. *)
Theorem main_ranks_every_entry flags s :
  Quiet (platform s) ->
  Ticking (clock (platform s)) (clockReads (platform s))
    (clockReads (platform s) + readsOfMain) ->
  exists results rows winner verified s',
    main flags s = (Returned (Ranked rows [] winner verified), s')
    /\ map name results
       = ["Mathematical Formula"; "BigInt Math Formula";
          "Assembly Style Loop"; "SIMD Style Processing";
          "Optimized Loop"; "Cache Friendly"; "Typed Array Optimal";
          "Parallel Workers"; "Realistic Stress Test"]
    /\ Permutation (map entry rows) results
    /\ StronglySorted timeLe (map entry rows)
    /\ Forall (fun r => error r = None /\ positiveTime r) results
    /\ Forall (fun row => positiveNum (speedup row)) rows.
Proof.
  intros Hquiet Htick. unfold main, suite.
  set (N := if isFullTest flags then maxNumber config else 100000000).
  assert (N = 100000000 \/ N = 1000000000) as HN.
  { unfold N. destruct (isFullTest flags); auto. }
  assert ((N <=? 10000) = false) as Hbig.
  { destruct HN as [-> | ->]; reflexivity. }
  pose proof (main_sizes flags N HN) as Hsizes.
  assert (length (benchmarks N) = 9%nat) as Hnine.
  { unfold benchmarks. rewrite Hbig. reflexivity. }
  unfold bind at 1, liftP at 1, performanceNow at 1. cbn [platform journal].
  unfold bind at 1.
  match goal with
  | |- context [runAll flags (benchmarks N) N [] ?st] =>
      destruct (runAll_complete flags (clock (platform s)) Quiet 2
                  (fun p H => H) (fun p H => H) N (benchmarks N) [] st)
        as (news & s2 & Hrun & Hnames & Hnews & _)
  end.
  { pose proof (benchmarks_observers N) as Hobs.
    pose proof (benchmarks_reads N) as Hreads.
    assert (Forall (fun entry =>
                      ReturnsUnder Quiet (snd entry)
                        (invocationSizes flags (Measure.ofZ N)))
              (benchmarks N)) as Hret.
    { unfold benchmarks. rewrite Hbig.
      repeat (apply Forall_cons_2 || apply Forall_app_2 || apply Forall_nil_2);
        cbn [snd];
        first [apply pure_ReturnsUnder|apply typedArrayEntry_ReturnsUnder
              |apply stressEntry_ReturnsUnder
              |apply parallelWorkers_ReturnsUnder]; exact Hsizes. }
    rewrite Forall_forall in Hobs, Hreads, Hret. apply Forall_forall.
    intros entry Hentry. split; [apply Hobs; exact Hentry|].
    split; [apply Hreads; exact Hentry|apply Hret; exact Hentry]. }
  { exact Hquiet. }
  { reflexivity. }
  { cbn [platform clockReads clock]. rewrite Hnine.
    eapply Ticking_narrower; [| |exact Htick]; unfold readsOfMain; lia. }
  rewrite Hrun. cbn [app].
  unfold bind at 1, liftP at 1, performanceNow at 1, ret.
  cbn [platform journal].
  unfold benchmarks in Hnames. rewrite Hbig in Hnames. cbn [app map fst] in Hnames.
  assert (Forall (fun r => error r = None /\ positiveTime r) news) as Hpos.
  { eapply Forall_impl; [exact Hnews|]. intros r [Hr Hw].
    split; [exact Hr|].
    apply (within_positive tick horizon); [reflexivity|exact Hw]. }
  destruct (validOf_all news) as [Hvalid Hfailed].
  { eapply Forall_impl; [exact Hnews|]. intros r [Hr _]. exact Hr. }
  destruct (formatResults_ranked news) as (fastest & rest & Hs & Hr).
  { rewrite Hvalid. intros ->. discriminate Hnames. }
  rewrite Hr, Hfailed. rewrite Hvalid in Hs.
  assert (map entry (imap (rankingRow fastest) (fastest :: rest))
          = sortBy byTime news) as Hentries.
  { rewrite Hs. apply entry_imap. reflexivity. }
  eexists news, _, _, _, _. split; [reflexivity|].
  split; [exact Hnames|]. rewrite Hentries.
  split; [apply sortBy_perm|]. split.
  { apply sortBy_sorted. eapply Forall_impl; [exact Hpos|].
    intros r [_ Hr']. apply positiveTime_finite. exact Hr'. }
  split; [exact Hpos|].
  assert (Forall (fun r => within tick horizon (time r)) (fastest :: rest))
    as Hrows.
  { rewrite <- Hs, sortBy_perm. eapply Forall_impl; [exact Hnews|].
    intros r [_ Hr']. exact Hr'. }
  assert (within tick horizon (time fastest)) as (qf & Hqf & Hf1 & Hf2).
  { apply Forall_cons_1 in Hrows. apply Hrows. }
  apply Forall_forall. intros row Hrow.
  apply list_elem_of_lookup in Hrow. destruct Hrow as [k Hk].
  rewrite list_lookup_imap in Hk.
  destruct ((fastest :: rest) !! k) as [r|] eqn:Hrk; [|discriminate Hk].
  injection Hk as <-.
  assert (within tick horizon (time r)) as (qr & Hqr & Hr1 & Hr2).
  { eapply Forall_lookup_1 in Hrows; [exact Hrows|exact Hrk]. }
  cbn [speedup rankingRow]. rewrite Hqf, Hqr.
  apply (within_positive (2 ^ (-73)) (2 ^ 73)); [reflexivity|].
  assert (0 < qr)%Q as Hqr0.
  { eapply Qlt_le_trans; [|exact Hr1]. reflexivity. }
  apply div_within; [repeat split; vm_compute; reflexivity
                    |repeat split; vm_compute; reflexivity|exact Hqr0| |].
  - apply Qle_trans with (2 ^ (-73) * horizon)%Q.
    + apply Qmult_le_l; [reflexivity|exact Hr2].
    + eapply Qle_trans; [|exact Hf1]. vm_compute. discriminate.
  - apply Qle_trans with (2 ^ 73 * tick)%Q.
    + eapply Qle_trans; [exact Hf2|]. vm_compute. discriminate.
    + apply Qmult_le_l; [reflexivity|exact Hr1].
Qed.

Lemma main_ranks_every_entry_witness :
  exists results rows winner verified s',
    main productionFlags quietState
    = (Returned (Ranked rows [] winner verified), s')
    /\ length results = 9%nat
    /\ Permutation (map entry rows) results
    /\ StronglySorted timeLe (map entry rows)
    /\ Forall (fun r => error r = None /\ positiveTime r) results.
Proof.
  destruct (main_ranks_every_entry productionFlags quietState)
    as (results & rows & winner & verified & s' & Hmain & Hnames & Hperm
        & Hsorted & Hpos & _).
  - exact quietPlatform_quiet.
  - apply (sample_clock_ticks 0 (0 + readsOfMain)). vm_compute. lia.
  - exists results, rows, winner, verified, s'. split; [exact Hmain|].
    split; [|repeat split; assumption].
    rewrite <- (length_map name), Hnames. reflexivity.
Defined.

(** ** Result strings *)

Section ResultStrings.

Lemma pretty_N_go_length (k : nat) : forall (x : N) s,
  (x < 10 ^ N.of_nat k)%N ->
  (String.length (pretty_N_go x s) <= k + String.length s)%nat.
Proof.
  induction k as [|k IH]; intros x s Hx.
  - assert (x = 0%N) as -> by (cbn in Hx; lia). rewrite pretty_N_go_0. lia.
  - destruct (N.eq_dec x 0%N) as [->|Hne].
    + rewrite pretty_N_go_0. lia.
    + rewrite pretty_N_go_step by lia.
      etransitivity; [apply IH|cbn [String.length]; lia].
      rewrite Nat2N.inj_succ, N.pow_succ_r' in Hx.
      apply N.Div0.div_lt_upper_bound. exact Hx.
Qed.

Lemma digitCount_small a : 0 <= a < two53 -> (digitCount a <= 16)%nat.
Proof.
  intros [H0 H1]. unfold digitCount.
  destruct a as [|a|a]; [cbn; lia| |lia].
  change (pretty (Z.pos a)) with (pretty (N.pos a)).
  unfold pretty, pretty_N. destruct (decide (N.pos a = 0%N)); [cbn; lia|].
  etransitivity; [apply (pretty_N_go_length 16)|cbn; lia].
  unfold two53 in H1. lia.
Qed.

Lemma candidate_small p a c :
  0 < a < two53 -> candidate p a = Some c -> c = a.
Proof.
  intros [H0 H1]. unfold candidate.
  set (step := 10 ^ Z.of_nat p). set (lo := a / step * step).
  assert (0 < step) as Hstep by (apply Z.pow_pos_nonneg; lia).
  assert (0 <= lo <= a /\ a < lo + step) as [Hlo Hhi].
  { unfold lo. pose proof (Z.div_mod a step ltac:(lia)).
    pose proof (Z.mod_pos_bound a step Hstep).
    assert (0 <= a / step) by (apply Z.div_pos; lia). nia. }
  assert (round53 lo = lo) as ->.
  { apply round53_exact. rewrite Z.abs_eq by lia. lia. }
  assert ((round53 (lo + step) =? a) = false) as ->.
  { apply Z.eqb_neq. destruct (Z_lt_le_dec (lo + step) two53) as [Hs|Hl].
    - rewrite round53_exact by (rewrite Z.abs_eq by lia; lia). lia.
    - pose proof (round53_large (lo + step) Hl). lia. }
  destruct (0 <? lo); cbn [andb]; [|discriminate].
  destruct (Z.eqb_spec lo a); [|discriminate]. intros [= <-]. assumption.
Qed.

Lemma shortest_small p a : 0 < a < two53 -> shortest p a = a.
Proof.
  intros Ha. induction p as [|p IH]; cbn [shortest];
    destruct (candidate _ a) as [c|] eqn:Hc;
    try (apply (candidate_small _ a c Ha Hc)); [reflexivity|exact IH].
Qed.

Lemma numberToString_nonneg z :
  0 <= z < two53 -> numberToString z = pretty z.
Proof.
  intros Hz. unfold numberToString.
  destruct (Z.eqb_spec z 0) as [->|Hne]; [reflexivity|].
  rewrite Z.abs_eq by lia. rewrite shortest_small by lia.
  assert ((digitCount z <=? 21)%nat = true) as ->.
  { apply Nat.leb_le. pose proof (digitCount_small z Hz). lia. }
  destruct (Z.ltb_spec z 0); [lia|reflexivity].
Qed.

End ResultStrings.

(** X13: a number and a bigint of the same value below 2^53 in
    magnitude have the same result string, the plain decimal, so the
    verification does not tell a number result from a bigint result of
    that value.  Beyond 2^53 this is not so: the double 2^60 prints as
    1152921504606847000, the bigint 2^60 as 1152921504606846976. *)
Theorem toString_number_bigint :
  (forall z, Z.abs z < two53 ->
     toString (VNum z) = pretty z /\ toString (VNum z) = toString (VBig z))
  /\ round53 (2 ^ 60) = 2 ^ 60
  /\ toString (VNum (2 ^ 60)) = "1152921504606847000"
  /\ toString (VBig (2 ^ 60)) = "1152921504606846976".
Proof.
  split; [|repeat split; vm_compute; reflexivity].
  intros z Hz. cbn [toString].
  assert (numberToString z = pretty z) as ->; [|split; reflexivity].
  destruct (Z_lt_le_dec z 0) as [Hneg|Hpos].
  - unfold numberToString.
    destruct (Z.eqb_spec z 0) as [->|_]; [lia|].
    destruct (Z.ltb_spec z 0); [|lia].
    assert (0 < Z.abs z < two53) as Ha by lia.
    rewrite (shortest_small _ _ Ha).
    assert ((digitCount (Z.abs z) <=? 21)%nat = true) as ->.
    { apply Nat.leb_le. pose proof (digitCount_small (Z.abs z) ltac:(lia)). lia. }
    destruct z as [|z|z]; try lia. reflexivity.
  - apply numberToString_nonneg. lia.
Qed.

(** ** The recursive strategy and the call stack *)

(** X14: the recursive strategy takes one stack frame per number and one
    more.  For a size N >= 0 whose sum fits in 53 bits it returns
    N*(N-1)/2 when more than N frames are left, and otherwise overflows
    the stack; it never returns a partial sum.  As a benchmark entry it
    then throws "Maximum call stack size exceeded". *)
Theorem tailRecursive_needs_frames (frames : nat) n :
  0 <= n -> n * (n - 1) / 2 <= two53 ->
  tailRecursive frames n 0 0
  = (if n <? Z.of_nat frames then Some (n * (n - 1) / 2) else None)
  /\ forall p, stackFrames p = frames ->
       fst (tailRecursiveEntry (Measure.ofZ n) p)
       = if n <? Z.of_nat frames then Returned (VNum (n * (n - 1) / 2))
         else Thrown "Maximum call stack size exceeded".
Proof.
  intros Hn Hfit. pose proof (tri_bound n Hn Hfit) as Hbound.
  assert (tailRecursive frames n 0 0
          = if n <? Z.of_nat frames then Some (n * (n - 1) / 2) else None)
    as Hrec.
  { destruct (Z.ltb_spec n (Z.of_nat frames)) as [Hlt|Hge].
    - rewrite tailRecursive_exact; change (tri 0) with 0;
        try (unfold two53 in *; lia).
      + f_equal. unfold tri. lia.
      + unfold tri. lia.
    - apply tailRecursive_overflow; unfold two53; lia. }
  split; [exact Hrec|]. intros p Hp.
  unfold tailRecursiveEntry, onSize.
  rewrite asSize_ofZ by (unfold two53; lia). rewrite Hp, Hrec.
  destruct (n <? Z.of_nat frames); reflexivity.
Qed.

Lemma tailRecursive_needs_frames_witness :
  tailRecursive 500 1000 0 0 = None
  /\ fst (tailRecursiveEntry (Measure.ofZ 1000) samplePlatform)
     = Thrown "Maximum call stack size exceeded"
  /\ tailRecursive 500 499 0 0 = Some 124251.
Proof.
  destruct (tailRecursive_needs_frames 500 1000) as [Hrec Hentry];
    [lia|vm_compute; intros Hc; discriminate Hc|].
  destruct (tailRecursive_needs_frames 500 499) as [Hsmall _];
    [lia|vm_compute; intros Hc; discriminate Hc|].
  split; [exact Hrec|]. split; [exact (Hentry samplePlatform eq_refl)|].
  exact Hsmall.
Defined.

(** ** The progress bar *)

Section ProgressBar.

Lemma isDouble_1 : isDouble 1.
Proof. repeat split; vm_compute; reflexivity. Qed.

Lemma isDouble_40 : isDouble 40.
Proof. repeat split; vm_compute; reflexivity. Qed.

Lemma div_ofZ c t :
  0 < t ->
  Measure.div (Measure.ofZ c) (Measure.ofZ t)
  = Fin (Qred (inject_Z c / inject_Z t)).
Proof.
  intros Ht. unfold Measure.div, Measure.ofZ, Measure.fin.
  assert (Measure.isZero (inject_Z t) = false) as ->; [|reflexivity].
  unfold Measure.isZero. cbn. apply Z.eqb_neq. lia.
Qed.

Lemma ratio_range c t :
  0 <= c <= t -> 0 < t ->
  (0 <= Qred (inject_Z c / inject_Z t))%Q
  /\ (Qred (inject_Z c / inject_Z t) <= 1)%Q.
Proof.
  intros Hc Ht. rewrite Qred_correct.
  assert (0 < inject_Z t)%Q as Hpos.
  { change 0%Q with (inject_Z 0). rewrite <- Zlt_Qlt. exact Ht. }
  split.
  - apply Qle_shift_div_l; [exact Hpos|]. rewrite Qmult_0_l.
    change 0%Q with (inject_Z 0). rewrite <- Zle_Qle. lia.
  - apply Qle_shift_div_r; [exact Hpos|]. rewrite Qmult_1_l.
    rewrite <- Zle_Qle. lia.
Qed.

Lemma ratio_mono c c' t :
  c' <= c -> 0 < t ->
  (Qred (inject_Z c' / inject_Z t) <= Qred (inject_Z c / inject_Z t))%Q.
Proof.
  intros Hc Ht. rewrite !Qred_correct.
  apply Qmult_le_r.
  - apply Qinv_lt_0_compat. change 0%Q with (inject_Z 0).
    rewrite <- Zlt_Qlt. exact Ht.
  - rewrite <- Zle_Qle. exact Hc.
Qed.

(** On a part of a whole the bar has between 0 and 40 full cells. *)
Lemma filledCells_cellsOf c t :
  0 <= c <= t -> 0 < t ->
  filledCells (Measure.ofZ c) (Measure.ofZ t) = Measure.ofZ (cellsOf c t)
  /\ 0 <= cellsOf c t <= 40.
Proof.
  intros Hc Ht. destruct (ratio_range c t Hc Ht) as [H0 H1].
  destruct (round_nonneg _ 1 H0 H1 isDouble_1) as (Hr & Hr0 & Hr1).
  unfold filledCells, Double.div, Double.mul. rewrite (div_ofZ c t Ht), Hr.
  cbn [Double.mulExact Measure.ofZ]. unfold Measure.fin.
  set (ratio := Qred (roundNonneg (Qred (inject_Z c / inject_Z t)))) in *.
  assert (0 <= Qred (ratio * inject_Z barLength))%Q as Hp0.
  { rewrite Qred_correct. apply Qmult_le_0_compat; [|discriminate].
    unfold ratio. rewrite Qred_correct. exact Hr0. }
  assert (Qred (ratio * inject_Z barLength) <= 40)%Q as Hp1.
  { rewrite Qred_correct. unfold ratio. rewrite Qred_correct.
    change 40%Q with (1 * inject_Z barLength)%Q.
    apply Qmult_le_r; [reflexivity|exact Hr1]. }
  destruct (round_nonneg _ 40 Hp0 Hp1 isDouble_40) as (Hw & Hw0 & Hw1).
  rewrite Hw. cbn [Double.floor]. split; [reflexivity|].
  unfold cellsOf. fold ratio. split.
  - change 0 with (Qfloor (inject_Z 0)). apply Qfloor_resp_le.
    rewrite Qred_correct. exact Hw0.
  - change 40 with (Qfloor (inject_Z 40)). apply Qfloor_resp_le.
    rewrite Qred_correct. exact Hw1.
Qed.

Lemma Qred_le a b : (a <= b)%Q -> (Qred a <= Qred b)%Q.
Proof. intros H. rewrite !Qred_correct. exact H. Qed.

Lemma Qred_nonneg a : (0 <= a)%Q -> (0 <= Qred a)%Q.
Proof. intros H. rewrite Qred_correct. exact H. Qed.

Lemma cellsOf_mono c c' t :
  0 <= c' <= c -> 0 < t -> cellsOf c' t <= cellsOf c t.
Proof.
  intros Hc Ht. unfold cellsOf. apply Qfloor_resp_le.
  assert (0 <= Qred (inject_Z c' / inject_Z t))%Q as H0.
  { apply Qred_nonneg, Qle_shift_div_l.
    - change 0%Q with (inject_Z 0). rewrite <- Zlt_Qlt. exact Ht.
    - rewrite Qmult_0_l. change 0%Q with (inject_Z 0).
      rewrite <- Zle_Qle. lia. }
  apply Qred_le, roundNonneg_mono.
  - apply Qred_nonneg, Qmult_le_0_compat; [|discriminate].
    apply Qred_nonneg, roundNonneg_nonneg. exact H0.
  - apply Qred_le, Qmult_le_r; [reflexivity|].
    apply Qred_le, roundNonneg_mono; [exact H0|]. apply ratio_mono; lia.
Qed.

Lemma ofZ_inj a b : Measure.ofZ a = Measure.ofZ b -> a = b.
Proof. intros [= H]. exact H. Qed.

Lemma repeatLength_ofZ k :
  0 <= k <= 40 -> repeatLength (Measure.ofZ k) = Returned k.
Proof.
  intros Hk. unfold repeatLength, Measure.ofZ. cbn [Qden Qnum inject_Z].
  cbn [Pos.eqb negb].
  destruct (Z.ltb_spec k 0); [lia|].
  destruct (Z.leb_spec k (2 ^ 28 - 16)); [reflexivity|lia].
Qed.

Lemma light_cells k :
  0 <= k <= 40 ->
  Double.sub (Measure.ofZ barLength) (Measure.ofZ k) = Measure.ofZ (40 - k).
Proof.
  intros Hk.
  assert (forallb (fun j =>
            match Double.sub (Measure.ofZ barLength)
                    (Measure.ofZ (Z.of_nat j)) with
            | Fin q => Qeq_bool q (inject_Z (40 - Z.of_nat j))
                       && (Qden q =? 1)%positive
            | _ => false
            end) (seq 0 41) = true) as Hall by (vm_compute; reflexivity).
  rewrite forallb_forall in Hall.
  specialize (Hall (Z.to_nat k)). rewrite Z2Nat.id in Hall by lia.
  destruct (Double.sub _ _) as [q| | |];
    try (discriminate Hall; apply in_seq; lia).
  assert (Qeq_bool q (inject_Z (40 - k)) && (Qden q =? 1)%positive = true)
    as Hq by (apply Hall, in_seq; lia).
  apply andb_prop in Hq. destruct Hq as [Hq Hd].
  apply Qeq_bool_eq in Hq. apply Pos.eqb_eq in Hd.
  destruct q as [a b]. cbn in Hd. subst b.
  unfold Qeq in Hq. cbn in Hq. unfold Measure.ofZ, inject_Z. f_equal. f_equal.
  lia.
Qed.

End ProgressBar.

(** X15: the progress bar.  Without [--verbose] nothing is written.  With
    it, for a part [current] of a positive whole [total], both integers,
    [reportProgress] does not throw and writes a bar of exactly 40 cells,
    of which floor(40 * current / total), computed in doubles, are full:
    none at the start, all at the end, and never fewer when [current]
    grows.  The percentage reads 0.0 at the start and 100.0 at the end. *)
Theorem reportProgress_bar flags label :
  (isVerbose flags = false ->
   forall current total,
     reportProgress flags current total label = Returned None)
  /\ (isVerbose flags = true ->
      forall c t, 0 <= c <= t -> 0 < t ->
        exists line,
          reportProgress flags (Measure.ofZ c) (Measure.ofZ t) label
          = Returned (Some line)
          /\ method line = label
          /\ 0 <= fullCells line <= 40
          /\ fullCells line + lightCells line = 40
          /\ (c = 0 -> fullCells line = 0 /\ percentage line = "0.0")
          /\ (c = t -> fullCells line = 40 /\ percentage line = "100.0")
          /\ (forall c' line', 0 <= c' <= c ->
                reportProgress flags (Measure.ofZ c') (Measure.ofZ t) label
                = Returned (Some line') ->
                fullCells line' <= fullCells line)).
Proof.
  split.
  - intros Hquiet current total. unfold reportProgress. rewrite Hquiet.
    reflexivity.
  - intros Hverbose.
    assert (forall c t, 0 <= c <= t -> 0 < t ->
              reportProgress flags (Measure.ofZ c) (Measure.ofZ t) label
              = Returned
                  (Some {| method := label; fullCells := cellsOf c t;
                           lightCells := 40 - cellsOf c t;
                           percentage :=
                             Double.toFixed 1
                               (Double.mul
                                  (Double.div (Measure.ofZ c) (Measure.ofZ t))
                                  (Measure.ofZ 100)) |})) as Hline.
    { intros c t Hc Ht. unfold reportProgress. rewrite Hverbose.
      cbn [config enableProgressReporting negb orb].
      destruct (filledCells_cellsOf c t Hc Ht) as [-> Hk].
      rewrite (repeatLength_ofZ _ Hk), (light_cells _ Hk).
      rewrite repeatLength_ofZ by lia. reflexivity. }
    intros c t Hc Ht. eexists. split; [apply Hline; assumption|].
    cbn [method fullCells lightCells percentage].
    destruct (filledCells_cellsOf c t Hc Ht) as [_ Hk].
    split; [reflexivity|]. split; [exact Hk|]. split; [lia|].
    split; [|split].
    + intros ->. unfold cellsOf, Double.div. rewrite (div_ofZ 0 t Ht).
      assert (Qred (inject_Z 0 / inject_Z t) = Qred 0) as ->.
      { apply Qred_complete. unfold Qdiv. apply Qmult_0_l. }
      split; vm_compute; reflexivity.
    + intros ->. unfold cellsOf, Double.div. rewrite (div_ofZ t t Ht).
      assert (Qred (inject_Z t / inject_Z t) = Qred 1) as ->.
      { apply Qred_complete. apply Qmult_inv_r.
        intros H. unfold Qeq in H. cbn in H. lia. }
      split; vm_compute; reflexivity.
    + intros c' line' Hc' Hrun. rewrite Hline in Hrun by lia.
      injection Hrun as <-. cbn [fullCells]. apply cellsOf_mono; assumption.
Qed.

Lemma reportProgress_bar_witness :
  exists line,
    reportProgress verboseFlags (Measure.ofZ 50000000)
      (Measure.ofZ 1000000000) "Optimized Loop"
    = Returned (Some line)
    /\ method line = "Optimized Loop"
    /\ 0 <= fullCells line <= 40
    /\ fullCells line + lightCells line = 40.
Proof.
  destruct (proj2 (reportProgress_bar verboseFlags "Optimized Loop") eq_refl
              50000000 1000000000)
    as (line & Hrun & Hm & Hr & Hsum & _); [lia|lia|].
  exists line. split; [exact Hrun|]. split; [exact Hm|].
  split; [exact Hr|exact Hsum].
Defined.

(** ** Printed times *)

Section PrintedTimes.

Lemma round_between A B q :
  isDouble A -> isDouble B -> (A <= q)%Q -> (q <= B)%Q ->
  Double.round (Fin q) = Fin (Qred (roundNonneg q))
  /\ (A <= Qred (roundNonneg q))%Q /\ (Qred (roundNonneg q) <= B)%Q.
Proof.
  intros HA HB HAq HqB.
  assert (0 <= A)%Q as HA0 by (apply Qlt_le_weak, HA).
  assert (0 <= q)%Q as Hq by (eapply Qle_trans; eassumption).
  destruct (round_nonneg q B Hq HqB HB) as (Hr & _ & Hle).
  split; [exact Hr|]. rewrite Qred_correct. split; [|exact Hle].
  rewrite <- (roundNonneg_double A HA). apply roundNonneg_mono; assumption.
Qed.

Lemma toFixed2_nonneg q n :
  (0 <= q)%Q -> Qfloor (q * inject_Z 100 + (1 # 2)) = n ->
  Measure.toFixed 2 (Fin q)
  = pretty (n / 100) +:+ "." +:+ Measure.padLeft 2 (pretty (n mod 100)).
Proof.
  intros Hq Hn. unfold Measure.toFixed.
  change (10 ^ Z.of_nat 2) with 100.
  assert (Qfloor (Qabs q * inject_Z 100 + (1 # 2)) = n) as ->.
  { rewrite <- Hn. apply Qfloor_comp. rewrite Qabs_pos by exact Hq.
    reflexivity. }
  assert (Measure.isNeg q = false) as ->; [|reflexivity].
  unfold Measure.isNeg. apply Z.ltb_ge. unfold Qle in Hq. cbn in Hq. lia.
Qed.

Lemma toFixed_small digits q :
  (Qabs q < inject_Z (10 ^ 21))%Q ->
  Double.toFixed digits (Fin q) = Measure.toFixed digits (Fin q).
Proof.
  intros Hq. unfold Double.toFixed.
  assert (Qle_bool (inject_Z (10 ^ 21)) (Qabs q) = false) as ->;
    [|reflexivity].
  apply Bool.not_true_iff_false. intros Hc. apply Qle_bool_iff in Hc.
  exact (Qlt_irrefl _ (Qle_lt_trans _ _ _ Hc Hq)).
Qed.

Lemma isDouble_60 : isDouble 60.
Proof. repeat split; vm_compute; reflexivity. Qed.

Lemma isDouble_below_60 : isDouble (61439 # 1024).
Proof. repeat split; vm_compute; reflexivity. Qed.

End PrintedTimes.

(** X16: [formatTime] chooses the unit before it rounds, so the printed
    number can reach the threshold of the next unit: every time from
    999.995 ms up to a second is printed as 1000.00ms, and every time from
    59999.995 ms up to a minute as 60.00s. *)
Theorem formatTime_thresholds q :
  ((999995 # 1000 <= q)%Q -> (q < 1000)%Q ->
   formatTime (Fin q) = "1000.00ms")
  /\ ((59999995 # 1000 <= q)%Q -> (q < 60000)%Q ->
      formatTime (Fin q) = "60.00s").
Proof.
  split; intros Hlow Hhigh.
  - assert (0 <= q)%Q as Hq by (eapply Qle_trans; [|exact Hlow]; discriminate).
    unfold formatTime.
    assert (Measure.ltb (Fin q) (Measure.ofZ 1000) = true) as ->
      by (apply ltb_fin; exact Hhigh).
    rewrite toFixed_small.
    2:{ rewrite Qabs_pos by exact Hq. eapply Qlt_trans; [exact Hhigh|].
        reflexivity. }
    rewrite (toFixed2_nonneg q 100000 Hq); [reflexivity|].
    apply Qfloor_eq.
    + apply Qle_trans with ((999995 # 1000) * inject_Z 100 + (1 # 2))%Q;
        [discriminate|].
      apply Qplus_le_l, Qmult_le_r; [reflexivity|exact Hlow].
    + apply Qlt_le_trans with (1000 * inject_Z 100 + (1 # 2))%Q;
        [|discriminate].
      apply Qplus_lt_l, Qmult_lt_r; [reflexivity|exact Hhigh].
  - unfold formatTime.
    assert (Measure.ltb (Fin q) (Measure.ofZ 1000) = false) as ->.
    { apply Bool.not_true_iff_false. intros Hc. apply ltb_fin in Hc.
      apply (Qlt_irrefl q). eapply Qlt_le_trans; [exact Hc|].
      eapply Qle_trans; [|exact Hlow]. discriminate. }
    assert (Measure.ltb (Fin q) (Measure.ofZ 60000) = true) as ->
      by (apply ltb_fin; exact Hhigh).
    unfold Double.div, Measure.div, Measure.ofZ.
    change (Measure.isZero (inject_Z 1000)) with false. cbv iota.
    unfold Measure.fin.
    destruct (round_between (61439 # 1024) 60 (Qred (q / inject_Z 1000))
                isDouble_below_60 isDouble_60) as (-> & Hv1 & Hv2).
    { rewrite Qred_correct. apply Qle_shift_div_l; [reflexivity|].
      eapply Qle_trans; [|exact Hlow]. discriminate. }
    { rewrite Qred_correct. apply Qle_shift_div_r; [reflexivity|].
      apply Qlt_le_weak. exact Hhigh. }
    set (v := Qred (roundNonneg (Qred (q / inject_Z 1000)))) in *.
    assert (0 <= v)%Q as Hv0 by (eapply Qle_trans; [|exact Hv1]; discriminate).
    rewrite toFixed_small.
    2:{ rewrite Qabs_pos by exact Hv0. eapply Qle_lt_trans; [exact Hv2|].
        reflexivity. }
    rewrite (toFixed2_nonneg v 6000 Hv0); [reflexivity|].
    apply Qfloor_eq.
    + apply Qle_trans with ((61439 # 1024) * inject_Z 100 + (1 # 2))%Q;
        [discriminate|].
      apply Qplus_le_l, Qmult_le_r; [reflexivity|exact Hv1].
    + apply Qle_lt_trans with (60 * inject_Z 100 + (1 # 2))%Q;
        [|reflexivity].
      apply Qplus_le_l, Qmult_le_r; [reflexivity|exact Hv2].
Qed.

Lemma formatTime_thresholds_witness :
  formatTime (Fin (999996 # 1000)) = "1000.00ms"
  /\ formatTime (Fin (59999996 # 1000)) = "60.00s".
Proof.
  split.
  - apply (proj1 (formatTime_thresholds (999996 # 1000)));
      [discriminate|reflexivity].
  - apply (proj2 (formatTime_thresholds (59999996 # 1000)));
      [discriminate|reflexivity].
Defined.

(** The rounding of fractions shows in what is printed: 1005 ms is
    1.00499999999999989... s as a double and prints as 1.00s. *)
Example formatTime_samples :
  Double.div (Measure.ofZ 1) (Measure.ofZ 10)
  = Fin (3602879701896397 # 36028797018963968)
  /\ formatTime (Measure.ofZ 1005) = "1.00s"
  /\ formatTime (Fin (1234567 # 1000)) = "1.23s"
  /\ formatTime (Measure.ofZ 3600000) = "60.00m"
  /\ formatTime PosInf = "Infinitym" /\ formatTime NaN = "NaNm".
Proof. repeat split; vm_compute; reflexivity. Qed.

(** ** The closed form beyond 53 bits, and negative sizes *)

Section ClosedForm.

Lemma even_halves x y :
  Z.even x = true -> Z.even y = true -> x / 2 = y / 2 -> x = y.
Proof.
  intros Hx Hy H. apply Z.even_spec in Hx, Hy.
  destruct Hx as [a ->], Hy as [b ->].
  rewrite !(Z.mul_comm 2), !Z.div_mul in H by lia. lia.
Qed.

Lemma consecutive_even n : Z.even (n * (n - 1)) = true.
Proof.
  rewrite Z.even_mul, Z.even_sub. destruct (Z.even n); reflexivity.
Qed.

End ClosedForm.

(** X17: the closed form in doubles is exact exactly when the product
    N*(N-1) is a double.  For every size N from 0 to 2^53 it returns half
    of the product rounded to a double, which is N*(N-1)/2 if and only if
    the rounding changes nothing, while the bigint form is always exact.
    The rounding does change the product below one billion: at
    N = 134217730 the closed form returns 9007199456067584, one less than
    the sum. *)
Theorem mathFormula_exact_iff :
  (forall n, 0 <= n <= two53 ->
     mathFormula n = round53 (n * (n - 1)) / 2
     /\ (mathFormula n = n * (n - 1) / 2
         <-> round53 (n * (n - 1)) = n * (n - 1))
     /\ mathFormulaBigInt n = n * (n - 1) / 2)
  /\ mathFormula 134217730 = 9007199456067584
  /\ mathFormulaBigInt 134217730 = 9007199456067585.
Proof.
  split; [|split; vm_compute; reflexivity].
  intros n Hn.
  assert (mathFormula n = round53 (n * (n - 1)) / 2) as Hm.
  { unfold mathFormula, fhalf, fmul. rewrite fsub_exact; [reflexivity|].
    unfold two53 in *. lia. }
  split; [exact Hm|]. split.
  - rewrite Hm. split.
    + apply even_halves; [|apply consecutive_even].
      apply round53_preserves_even, consecutive_even.
    + intros ->. reflexivity.
  - apply mathFormulaBigInt_exact. lia.
Qed.

(** X18: negative sizes are not rejected, and the strategies disagree on
    them.  For a negative integer size every loop, the recursive strategy
    and the parallel strategy return 0, as no number is below the size;
    the two closed forms return the positive number N*(N-1)/2. *)
Theorem strategies_on_negative_size n :
  n < 0 -> n * (n - 1) / 2 <= two53 ->
  optimizedLoop n = 0
  /\ assemblyStyleLoop n = 0
  /\ simdStyle n = 0
  /\ cacheFriendly n = 0
  /\ (forall frames, tailRecursive (S frames) n 0 0 = Some 0)
  /\ (forall numWorkers events,
        1 <= numWorkers -> parallelSum numWorkers n events = Returned 0)
  /\ mathFormula n = n * (n - 1) / 2
  /\ mathFormulaBigInt n = n * (n - 1) / 2
  /\ 0 < n * (n - 1) / 2.
Proof.
  intros Hneg Hfit.
  assert (Z.to_nat n = 0%nat) as Hbudget by lia.
  assert ((0 <? n) = false) as Hlt by (apply Z.ltb_ge; lia).
  assert (exists k, n * (n - 1) = 2 * k /\ 1 <= k <= two53)
    as (k & Hk & Hrange).
  { pose proof (consecutive_even n) as He. apply Z.even_spec in He.
    destruct He as [k Hk]. exists k. split; [exact Hk|].
    rewrite Hk, (Z.mul_comm 2), Z.div_mul in Hfit by lia. nia. }
  split; [unfold optimizedLoop; rewrite Hbudget; reflexivity|].
  split.
  { unfold assemblyStyleLoop.
    assert (Z.to_nat (n / 16) = 0%nat) as ->.
    { pose proof (Z.div_lt_upper_bound n 16 0 ltac:(lia) ltac:(lia)). lia. }
    cbn [unrolledLoop scalarLoop]. rewrite Hlt. reflexivity. }
  split.
  { unfold simdStyle.
    assert (Z.to_nat (n / 8) = 0%nat) as ->.
    { pose proof (Z.div_lt_upper_bound n 8 0 ltac:(lia) ltac:(lia)). lia. }
    cbn [vectorLoop scalarLoop]. rewrite Hlt. reflexivity. }
  split.
  { unfold cacheFriendly.
    assert (Z.to_nat (n / chunkSize + 1) = 0%nat) as ->; [|reflexivity].
    change chunkSize with 16000.
    pose proof (Z.div_lt_upper_bound n 16000 0 ltac:(lia) ltac:(lia)). lia. }
  split.
  { intros frames. cbn [tailRecursive].
    destruct (Z.leb_spec n 0); [reflexivity|lia]. }
  split.
  { intros numWorkers events Hp. unfold parallelSum.
    assert (workRanges numWorkers n = []) as ->.
    { unfold workRanges. destruct (Z.to_nat numWorkers) eqn:Hw; [lia|].
      cbn [dispatch]. destruct (Z.ltb_spec 0 numWorkers); [|lia].
      change (0 ⊗ ceilDiv n numWorkers) with (round53 (0 * ceilDiv n numWorkers)).
      rewrite Z.mul_0_l. change (round53 0) with 0.
      destruct (Z.leb_spec n 0); [reflexivity|lia]. }
    cbn [map]. rewrite promiseAll_none. reflexivity. }
  split.
  { unfold mathFormula, fhalf, fmul. rewrite fsub_exact.
    - rewrite round53_even_exact; [reflexivity| |apply consecutive_even].
      rewrite Hk. lia.
    - destruct (Z.eq_dec n (-1)) as [->|Hne]; [unfold two53; lia|].
      assert (1 - n <= k) by nia. unfold two53 in *. lia. }
  split.
  { unfold mathFormulaBigInt. apply Z.quot_div_nonneg; [nia|lia]. }
  rewrite Hk, (Z.mul_comm 2), Z.div_mul by lia. lia.
Qed.

Lemma strategies_on_negative_size_witness :
  optimizedLoop (-20) = 0 /\ mathFormula (-20) = 210
  /\ mathFormulaBigInt (-20) = 210
  /\ parallelSum 4 (-20) [(0%nat, ErrorEvent "boom")] = Returned 0.
Proof.
  destruct (strategies_on_negative_size (-20))
    as (H1 & _ & _ & _ & _ & H6 & H7 & H8 & _);
    [lia|vm_compute; intros Hc; discriminate Hc|].
  split; [exact H1|]. split; [exact H7|]. split; [exact H8|].
  apply H6. lia.
Defined.

(** ** Arrival order, and a clock that stands still *)

(** X19: the arrival order of the workers' messages does not influence
    the result.  When the first thing observed of every dispatched worker
    is its message, the parallel strategy returns the partial sums added
    in the order in which the workers were created, whatever the order of
    arrival and whatever is observed afterwards; so two runs on the same
    size return the same number, also beyond 53 bits, where the order of
    the additions matters. *)
Theorem parallelSum_arrival_order numWorkers n events :
  (forall i, (i < length (workRanges numWorkers n))%nat ->
             workerDelivers events i) ->
  parallelSum numWorkers n events
  = Returned
      (fold_left fadd
         (map (fun r => workerMain (fst r) (snd r)) (workRanges numWorkers n))
         0)
  /\ forall events',
       (forall i, (i < length (workRanges numWorkers n))%nat ->
                  workerDelivers events' i) ->
       parallelSum numWorkers n events' = parallelSum numWorkers n events.
Proof.
  assert (forall evs,
            (forall i, (i < length (workRanges numWorkers n))%nat ->
                       workerDelivers evs i) ->
            parallelSum numWorkers n evs
            = Returned
                (fold_left fadd
                   (map (fun r => workerMain (fst r) (snd r))
                      (workRanges numWorkers n)) 0)) as Hsum.
  { intros evs Hdeliver. unfold parallelSum. rewrite promiseAll_delivered.
    - rewrite map_map. reflexivity.
    - intros i w Hw. right. apply list_lookup_fmap_Some in Hw.
      destruct Hw as (r & -> & Hr). split; [reflexivity|].
      apply Hdeliver. eapply lookup_lt_Some. exact Hr. }
  intros Hdeliver. split; [apply Hsum; exact Hdeliver|].
  intros events' Hdeliver'. rewrite !Hsum by assumption. reflexivity.
Qed.

Lemma parallelSum_arrival_order_witness :
  parallelSum 4 10
    [(3%nat, Message); (1%nat, Message); (0%nat, Message);
     (1%nat, ErrorEvent "late"); (2%nat, Message)]
  = parallelSum 4 10
      [(0%nat, Message); (1%nat, Message); (2%nat, Message);
       (3%nat, Message)].
Proof.
  apply (parallelSum_arrival_order 4 10
           [(0%nat, Message); (1%nat, Message); (2%nat, Message);
            (3%nat, Message)]).
  - intros i Hi. change (length (workRanges 4 10)) with 4%nat in Hi.
    destruct i as [|[|[|[|i]]]]; try reflexivity. lia.
  - intros i Hi. change (length (workRanges 4 10)) with 4%nat in Hi.
    destruct i as [|[|[|[|i]]]]; try reflexivity. lia.
Defined.

Section StillClock.

Lemma Elapsed_still c0 lo hi c t :
  (forall k, reading c0 k = Fin c) -> Elapsed c0 lo hi t -> t = Measure.zero.
Proof.
  intros Hstill (a & b & _ & _ & _ & ->). rewrite !Hstill.
  unfold Double.sub. destruct (sub_fin c c) as (q & -> & Hq).
  unfold Double.round.
  assert ((q ?= 0)%Q = Eq) as ->; [|reflexivity].
  apply Qeq_alt. rewrite Hq. ring.
Qed.

End StillClock.

(** X20: a clock that stands still.  When the clock gives the same
    finite reading throughout a complete run, every elapsed time is 0 and
    the division by the mean time is not guarded: the record has time 0
    and, for a positive size, a throughput of [Infinity]; ranked alone,
    its own speedup is 0/0 and is printed as NaNx. *)
Theorem runBenchmark_still_clock flags label fn q c s :
  Observer fn -> ReturnsOn fn (invocationSizes flags (Fin q)) ->
  (forall k, reading (clock (platform s)) k = Fin c) ->
  (0 < q)%Q ->
  exists r s' rows,
    runBenchmark flags label fn (Fin q) s = (Returned r, s')
    /\ error r = None
    /\ time r = Measure.zero
    /\ opsPerSecond r = PosInf
    /\ formatResults [r] = Ranked rows [] r true
    /\ map speedup rows = [NaN]
    /\ map speedupStr rows = ["   NaNx"].
Proof.
  intros Hobs Hret Hstill Hq.
  destruct (runBenchmark_shape flags fn (clock (platform s))
              (heapUsed (platform s))
              (gcExposed (platform s)) (fun _ => True) Hobs
              (fun _ _ _ _ _ _ => I) (fun _ _ => I) (fun _ _ => I)
              label (Fin q) s)
    as (r & s' & warm & answers & elapsed & Hrun & _ & _ & _ & Hle
        & Hel & Hmean & _ & Herr & _); try reflexivity.
  { split; [intros; exact I|]. intros x p Hin _. apply Hret. exact Hin. }
  assert (time r = Measure.zero) as Htime.
  { assert (Forall (fun t => t = Measure.zero) elapsed) as Hzero.
    { eapply Forall_impl; [exact Hel|].
      intros t. eapply Elapsed_still. exact Hstill. }
    destruct elapsed as [|t1 [|t2 [|t3 [|t4 [|t5 [|t6 rest]]]]]];
      try discriminate Hle.
    repeat (apply Forall_cons_1 in Hzero; destruct Hzero as [-> Hzero]).
    injection Hmean as <-. vm_compute. reflexivity. }
  assert (opsPerSecond r = PosInf) as Hops.
  { destruct (runBenchmark_complete flags fn label (Fin q) s Hret)
      as (r' & s'' & Hrun' & _ & Hprotocol & _).
    rewrite Hrun in Hrun'. injection Hrun' as <- <-.
    destruct Hprotocol as (_ & _ & -> & _). rewrite Htime.
    change (Double.div Measure.zero (Measure.ofZ 1000)) with Measure.zero.
    unfold Double.div, Measure.div, Measure.zero, Measure.ofZ.
    change (Measure.isZero (inject_Z 0)) with true. cbv iota.
    assert (Measure.isZero q = false) as ->.
    { apply Bool.not_true_iff_false. rewrite isZero_eq. intros Hz.
      rewrite Hz in Hq. exact (Qlt_irrefl _ Hq). }
    assert (Measure.isNeg q = false) as ->; [|reflexivity].
    apply Bool.not_true_iff_false. rewrite isNeg_lt. intros Hn.
    exact (Qlt_irrefl _ (Qlt_trans _ _ _ Hq Hn)). }
  exists r, s', [rankingRow r 0 r]. split; [exact Hrun|].
  split; [exact Herr|]. split; [exact Htime|]. split; [exact Hops|].
  split.
  { unfold formatResults, validOf, failedOf. cbn [List.filter].
    rewrite (hasError_none r Herr). cbn [negb sortBy fold_right insertBy imap].
    f_equal. apply bool_decide_eq_true. unfold uniqueResults. cbn [map].
    rewrite list_to_set_singleton. apply size_singleton. }
  cbn [map speedup speedupStr rankingRow]. rewrite Htime.
  split; reflexivity.
Qed.

Lemma runBenchmark_still_clock_witness :
  let still : RunState :=
    {| platform :=
         {| clock := fun _ => 5%Q; clockReads := 0;
            heapUsed := fun _ => 10%Q; heapReads := 0;
            gcExposed := false; cpuCount := 4%positive;
            workerEvents := fun _ => []; parallelRuns := 0;
            stackFrames := 500 |};
       journal := [] |} in
  exists r s' rows,
    runBenchmark productionFlags "Mathematical Formula"
      (numberStrategy mathFormula) (Fin 1000) still = (Returned r, s')
    /\ error r = None
    /\ time r = Measure.zero
    /\ opsPerSecond r = PosInf
    /\ formatResults [r] = Ranked rows [] r true
    /\ map speedup rows = [NaN]
    /\ map speedupStr rows = ["   NaNx"].
Proof.
  intros still.
  apply (runBenchmark_still_clock productionFlags "Mathematical Formula"
           (numberStrategy mathFormula) 1000 5 still).
  - apply onSize_observer.
  - intros x p Hin. vm_compute in Hin.
    repeat (destruct Hin as [<-|Hin]; [vm_compute; exact I|]).
    contradiction.
  - intros k. reflexivity.
  - reflexivity.
Defined.

(** ** What the default run records *)

Section Agreement.

Variable flags : Flags.
Variable J : Platform -> Prop.

Hypothesis J_now : forall p, J p -> J (snd (performanceNow p)).
Hypothesis J_heap : forall p, J p -> J (snd (getMemoryUsage p)).

(** Under [J] the record of a strategy that returns carries what the
    strategy returned on the full size on a platform where [J] holds. *)
Lemma runBenchmark_result_under fn label n s :
  ReturnsUnder J fn (invocationSizes flags n) -> J (platform s) ->
  exists r s' p, runBenchmark flags label fn n s = (Returned r, s')
    /\ J (platform s') /\ name r = label /\ error r = None
    /\ J p /\ fst (fn n p) = Returned (result r).
Proof.
  intros [Hkeep Hreturns] Hs.
  destruct (runBenchmark flags label fn n s) as [o s'] eqn:Hrun.
  destruct (runBenchmark_traced flags fn (fun _ => J)
              (fun _ => J_now) (fun _ => J_heap)
              (fun _ p x v p' => Hkeep x p v p')
              label n 0%nat s o s' Hs Hrun) as (X & _ & Htr & Ho).
  assert (forall o', o' <> Returned tt ->
            Follows (invocationSizes flags n) o' (callsOf X) -> False)
    as Hblame.
  { intros o' Hne Hf.
    destruct (Follows_blame _ _ _ Hf Hne) as (j & x & c & Hc & Hfate & _).
    pose proof (Follows_sizes _ _ _ _ _ _ Hf Hc) as Hx.
    apply list_elem_of_lookup_2, list_elem_of_In in Hx.
    destruct (Htr _ _ _ Hc) as (p & Hp & Hcall).
    specialize (Hreturns x p Hx Hp). rewrite Hcall in Hreturns. subst o'.
    destruct c as [v|m| |]; cbn in *; try contradiction; try discriminate;
      congruence. }
  destruct o as [r|m| |].
  - destruct Ho as [(Hf & Hp & Hn & Hend)|(m & Hf & _)].
    + destruct Hp as (_ & _ & _ & Hlast & Herr).
      destruct Hf as [Hsizes Hall].
      destruct (last_answer _ _ Hall Hlast) as [x Hx].
      assert (last (map fst (callsOf X)) = Some x) as Hx'.
      { change map with (@fmap list _). rewrite fmap_last, Hx. reflexivity. }
      rewrite Hsizes, invocationSizes_last in Hx'. injection Hx' as <-.
      rewrite last_lookup in Hx.
      destruct (Htr _ _ _ Hx) as (p & Hp & Hcall).
      exists r, s', p. repeat split; assumption.
    + exfalso. eapply Hblame; [|exact Hf]. discriminate.
  - contradiction.
  - exfalso. eapply Hblame; [|exact Ho]. discriminate.
  - exfalso. eapply Hblame; [|exact Ho]. discriminate.
Qed.

Lemma runAll_under testSize entries : forall results s,
  Forall (fun entry =>
            ReturnsUnder J (snd entry)
              (invocationSizes flags (Measure.ofZ testSize))) entries ->
  J (platform s) ->
  exists news s',
    runAll flags entries testSize results s = (Returned (results ++ news), s')
    /\ Forall2 (fun entry r =>
                  name r = fst entry /\ error r = None
                  /\ exists p, J p
                       /\ fst (snd entry (Measure.ofZ testSize) p)
                          = Returned (result r)) entries news
    /\ J (platform s').
Proof.
  induction entries as [|[label fn] rest IH]; intros results s Hall Hs.
  - exists [], s. rewrite app_nil_r.
    split; [reflexivity|]. split; [constructor|exact Hs].
  - apply Forall_cons_1 in Hall. destruct Hall as [Hfn Hrest].
    rewrite runAll_step.
    destruct (runBenchmark_result_under fn label (Measure.ofZ testSize) s
                Hfn Hs) as (r & s1 & p & -> & Hs1 & Hn & He & Hp & Hr).
    destruct (IH (results ++ [r]) (snd (forceGc flags 1 s1)) Hrest)
      as (news & s' & Hrun & Hnews & Hs').
    { destruct (forceGc_journal flags 1 s1) as [c ->]. exact Hs1. }
    exists (r :: news), s'. rewrite Hrun, <- app_assoc.
    split; [reflexivity|]. split; [|exact Hs'].
    constructor; [|exact Hnews]. cbn [fst snd].
    split; [exact Hn|]. split; [exact He|]. exists p. split; assumption.
Qed.

End Agreement.

Section DefaultRun.

Let N : Z := 100000000.

Lemma default_size_fits : 0 <= N /\ tri N <= two53.
Proof. vm_compute. split; discriminate. Qed.

Lemma numberStrategy_default f p v :
  f N = tri N ->
  fst (numberStrategy f (Measure.ofZ N) p) = Returned v ->
  toString v = "4999999950000000".
Proof.
  intros Hf Hv.
  apply numberStrategy_result in Hv; [|vm_compute; split; discriminate].
  subst v. rewrite Hf. vm_compute. reflexivity.
Qed.

Lemma bigintStrategy_default p v :
  fst (bigintStrategy mathFormulaBigInt (Measure.ofZ N) p) = Returned v ->
  toString v = "4999999950000000".
Proof.
  unfold bigintStrategy, onSize. rewrite (asSize_ofZ N).
  - cbn. intros [= <-]. vm_compute. reflexivity.
  - vm_compute. split; discriminate.
Qed.

Lemma typedArrayEntry_default p v :
  fst (typedArrayEntry (Measure.ofZ N) p) = Returned v ->
  toString v = "4999999950000000".
Proof.
  unfold typedArrayEntry, onSize. rewrite (asSize_ofZ N).
  - rewrite (typedArrayOptimal_exact N); [|apply default_size_fits..].
    cbn. intros [= <-]. vm_compute. reflexivity.
  - vm_compute. split; discriminate.
Qed.

Lemma parallelWorkers_default p v :
  Quiet p ->
  fst (parallelWorkers (Measure.ofZ N) p) = Returned v ->
  toString v = "4999999950000000".
Proof.
  intros Hp. unfold parallelWorkers, onSize. rewrite (asSize_ofZ N).
  - rewrite (parallelSum_exact (Z.pos (cpuCount p)) N).
    + cbn. intros [= <-]. vm_compute. reflexivity.
    + apply default_size_fits.
    + apply default_size_fits.
    + lia.
    + intros i Hi. apply Hp. unfold workRanges in Hi.
      pose proof (dispatch_length (Z.to_nat (Z.pos (cpuCount p)))
                    (Z.pos (cpuCount p))
                    (ceilDiv N (Z.pos (cpuCount p))) N 0). lia.
  - vm_compute. split; discriminate.
Qed.

Lemma stressEntry_default x p v :
  fst (stressEntry x p) = Returned v -> toString v = "0".
Proof. intros Hv. apply stressEntry_result in Hv. subst v. reflexivity. Qed.

(** Records that carry what their strategies return print what the
    strategies' values print. *)
Lemma records_strings (J : Platform -> Prop) n entries expected : forall news,
  Forall2 (fun (entry : string * Strategy) r =>
             name r = fst entry /\ error r = None
             /\ exists p, J p /\ fst (snd entry n p) = Returned (result r))
    entries news ->
  Forall2 (fun (entry : string * Strategy) e =>
             forall p v, J p -> fst (snd entry n p) = Returned v ->
                         toString v = e) entries expected ->
  map name news = map fst entries
  /\ Forall (fun r => error r = None) news
  /\ map (fun r => toString (result r)) news = expected.
Proof.
  intros news Hnews. revert expected.
  induction Hnews as [|entry r entries news (Hn & He & p & Hp & Hr) _ IH];
    intros expected Hexp.
  - apply Forall2_nil_inv_l in Hexp. subst. repeat split. constructor.
  - apply Forall2_cons_inv_l in Hexp.
    destruct Hexp as (e & rest & Hentry & Hrest & ->).
    destruct (IH rest Hrest) as (Hnames & Herrs & Hstrs). cbn [map].
    rewrite Hn, Hnames, Hstrs, (Hentry p (result r) Hp Hr).
    repeat split. constructor; assumption.
Qed.

(** X21: the default run (N = 100,000,000, without the full-test flag)
    on a platform whose workers always deliver reports nine records, none
    with an error, in the order of the suite; the eight summation entries
    all print the sum 4999999950000000 as their result, and the only
    other result is the 0 of the "Realistic Stress Test" entry. *)
Theorem main_default_results flags s :
  isFullTest flags = false -> Quiet (platform s) ->
  exists results s',
    main flags s = (Returned (formatResults results), s')
    /\ map name results
       = [ "Mathematical Formula"; "BigInt Math Formula";
           "Assembly Style Loop"; "SIMD Style Processing"; "Optimized Loop";
           "Cache Friendly"; "Typed Array Optimal"; "Parallel Workers";
           "Realistic Stress Test" ]
    /\ Forall (fun r => error r = None) results
    /\ map (fun r => toString (result r)) results
       = replicate 8 "4999999950000000" ++ ["0"].
Proof.
  intros Hfull Hs. unfold main, suite. rewrite Hfull. fold N.
  pose proof (main_sizes flags N (or_introl eq_refl)) as Hsizes.
  unfold bind at 1. destruct (liftP_now s) as [t0 ->].
  unfold bind at 1.
  destruct (runAll_under flags Quiet (fun p H => H) (fun p H => H) N
              (benchmarks N) []
              {| platform := snd (performanceNow (platform s));
                 journal := journal s |}) as (news & s2 & -> & Hnews & _).
  - unfold benchmarks. change (N <=? 10000) with false.
    repeat (apply Forall_cons_2 || apply Forall_app_2 || apply Forall_nil_2);
      cbn [snd];
      first [apply pure_ReturnsUnder|apply typedArrayEntry_ReturnsUnder
            |apply stressEntry_ReturnsUnder
            |apply parallelWorkers_ReturnsUnder]; exact Hsizes.
  - exact Hs.
  - unfold bind at 1. destruct (liftP_now s2) as [t1 ->]. cbn [app].
    exists news, {| platform := snd (performanceNow (platform s2));
                    journal := journal s2 |}.
    split; [reflexivity|].
    pose proof default_size_fits as [Hn Hfit].
    apply (records_strings Quiet (Measure.ofZ N) (benchmarks N)
             (replicate 8 "4999999950000000" ++ ["0"]) news Hnews).
    unfold benchmarks. change (N <=? 10000) with false.
    cbn [app replicate].
    repeat apply Forall2_cons_2; try apply Forall2_nil_2; cbn [snd];
      intros p v Hp Hv.
    + apply (numberStrategy_default mathFormula p v); [|exact Hv].
      vm_compute. reflexivity.
    + apply (bigintStrategy_default p v Hv).
    + apply (numberStrategy_default assemblyStyleLoop p v); [|exact Hv].
      apply assemblyStyleLoop_exact; assumption.
    + apply (numberStrategy_default simdStyle p v); [|exact Hv].
      apply simdStyle_exact; assumption.
    + apply (numberStrategy_default optimizedLoop p v); [|exact Hv].
      apply optimizedLoop_exact; assumption.
    + apply (numberStrategy_default cacheFriendly p v); [|exact Hv].
      apply cacheFriendly_exact; assumption.
    + apply (typedArrayEntry_default p v Hv).
    + apply (parallelWorkers_default p v Hp Hv).
    + apply (stressEntry_default _ p v Hv).
Qed.

Lemma main_default_results_witness :
  exists results s',
    main productionFlags quietState = (Returned (formatResults results), s')
    /\ length results = 9%nat
    /\ map (fun r => toString (result r)) results
       = replicate 8 "4999999950000000" ++ ["0"].
Proof.
  destruct (main_default_results productionFlags quietState)
    as (results & s' & Hmain & Hnames & _ & Hstrs).
  - reflexivity.
  - exact quietPlatform_quiet.
  - exists results, s'. split; [exact Hmain|]. split; [|exact Hstrs].
    rewrite <- (length_map name), Hnames. reflexivity.
Defined.

End DefaultRun.

(** ** The typed-array strategy and negative sizes *)

(** X22: [typedArrayOptimal] is the one strategy that rejects a negative
    size.  For a size N between -2^53 and 2^53 it throws exactly when N
    is negative, with the [RangeError] of the array of length N that it
    allocates for its first batch; for every other N it returns a sum, so
    that as a benchmark entry it returns on every size the runner can
    pass. *)
Theorem typedArrayOptimal_rejects_negative n :
  - two53 <= n <= two53 ->
  (n < 0 -> typedArrayOptimal n = InvalidLength n)
  /\ (0 <= n ->
      exists total,
        typedArrayOptimal n = Total total
        /\ forall p,
             typedArrayEntry (Measure.ofZ n) p = (Returned (VNum total), p)).
Proof.
  intros Hn. split.
  - intros Hneg. apply typedArrayOptimal_negative. lia.
  - intros Hpos.
    destruct (typedArrayOptimal_returns n ltac:(lia)) as [total Htotal].
    exists total. split; [exact Htotal|]. intros p.
    unfold typedArrayEntry, onSize. rewrite (asSize_ofZ n) by lia.
    rewrite Htotal. reflexivity.
Qed.

Lemma typedArrayOptimal_rejects_negative_witness :
  typedArrayOptimal (-20) = InvalidLength (-20)
  /\ exists total, typedArrayOptimal 20 = Total total.
Proof.
  destruct (typedArrayOptimal_rejects_negative (-20)) as [Hneg _];
    [vm_compute; split; discriminate|].
  destruct (typedArrayOptimal_rejects_negative 20) as [_ Hpos];
    [vm_compute; split; discriminate|].
  split; [apply Hneg; lia|].
  destruct (Hpos ltac:(lia)) as (total & Htotal & _).
  exists total. exact Htotal.
Defined.
